(** * Tateisi et al. readability score: a shallow embedding of [tateisi.py]

    The Python class [Tateisi] scans a text once, counting letters and runs of
    the four letter classes (alphabet, hiragana, katakana, kanji) and the two
    punctuation marks kuten and toten, derives ten statistics from the counts
    and evaluates two linear formulas on them.

    Integers are modelled by [Z], Python floats by Rocq's primitive binary64
    floats (the same IEEE-754 format), a text by the list of its code points
    (what [ord] returns for each element of a [str]).  The program is read as
    Python 3: [/] is true division, also on two [int]s.  Where it matters
    which object an attribute belongs to, the class and its instances are a
    store of [__dict__]s. *)

From Stdlib Require Import QArith Qpower Qabs Lqa ZArith List Bool Lia Floats
  Permutation.
From Stdlib Require String.
Import ListNotations.
Import String.StringSyntax.

#[local] Set Warnings "-inexact-float".

Open Scope Z_scope.
Delimit Scope string_scope with string.
Bind Scope string_scope with String.string.

(** ** Python numbers *)

(** A Python number that occurs in the program is an [int] or a [float]; the
    class attributes start as the [int] 0 and are overwritten by quotients. *)
Inductive pynum : Type :=
  | PyInt (n : Z)
  | PyFloat (f : float).

(** [float(n)] for an [int]: the nearest binary64 (ties to even).  A count of
    characters of a [str] is below [sys.maxsize = 2^63 - 1], the range on
    which the primitive conversion is the correctly rounded one. *)
Definition float_of_int (n : Z) : float := PrimFloat.of_uint63 (Uint63.of_Z n).

Definition to_float (v : pynum) : float :=
  match v with
  | PyInt n => float_of_int n
  | PyFloat f => f
  end.

(** An [int] as a mantissa at exponent 0, not yet rounded. *)
Definition int_mantissa (z : Z) : spec_float :=
  match z with
  | Z0 => S754_zero false
  | Zpos p => S754_finite false p 0
  | Zneg p => S754_finite true p 0
  end.

(** [a / b] on two [int]s: CPython divides the integers and rounds the exact
    quotient once, to nearest with ties to even (it does not convert the
    operands first, which would round three times above [2^53]).  That is
    [SFdiv] on the integers taken as mantissas. *)
Definition int_truediv (a b : Z) : float :=
  SF2Prim (SFdiv prec emax (int_mantissa a) (int_mantissa b)).

(** [x / y], true division.  It raises [ZeroDivisionError] ([None]) when the
    divisor is the [int] 0 or a float equal to 0; an [int] operand of a float
    is converted. *)
Definition py_truediv (x y : pynum) : option float :=
  match x, y with
  | _, PyInt 0 => None
  | PyInt a, PyInt b => Some (int_truediv a b)
  | PyFloat f, PyInt b => Some (f / float_of_int b)%float
  | _, PyFloat g => if (g =? 0)%float then None else Some (to_float x / g)%float
  end.

(** [x or y] on numbers: [x] when it is truthy (not zero), else [y]. *)
Definition py_truthy (v : pynum) : bool :=
  match v with
  | PyInt n => negb (n =? 0)
  | PyFloat f => negb (f =? 0)%float
  end.

Definition py_or (x y : pynum) : pynum := if py_truthy x then x else y.

(** [x != 0] *)
Definition py_ne0 (v : pynum) : bool := py_truthy v.

(** [c * v] and the like with a float on the left: the result is a float. *)
Definition py_mul (c : float) (v : pynum) : float := (c * to_float v)%float.

(** ** The scan *)

(** The variable [current_run]: the empty string, or one of the four tags. *)
Inductive run_tag : Type :=
  | run_none   (* '' *)
  | run_a      (* 'a' *)
  | run_h      (* 'h' *)
  | run_k      (* 'k' *)
  | run_c.     (* 'c' *)

Definition run_tag_eqb (x y : run_tag) : bool :=
  match x, y with
  | run_none, run_none | run_a, run_a | run_h, run_h
  | run_k, run_k | run_c, run_c => true
  | _, _ => false
  end.

(** The local variables of [__init__] during the loop. *)
Record scan_state : Type := mk_scan {
  v_a : Z; v_h : Z; v_c : Z; v_k : Z;
  v_ar : Z; v_hr : Z; v_cr : Z; v_kr : Z;
  v_tt : Z; v_tk : Z;
  current_run : run_tag
}.

Definition scan_init : scan_state :=
  mk_scan 0 0 0 0 0 0 0 0 0 0 run_none.

Definition between (lo x hi : Z) : bool := (lo <=? x) && (x <=? hi).

Definition KUTEN : Z := 0x3002.  (* u'。' *)
Definition TOTEN : Z := 0x3001.  (* u'、' *)

(** One iteration of [for l in txt], on the code point [ord_l] of [l]. *)
Definition loop_body (st : scan_state) (ord_l : Z) : scan_state :=
  let '(mk_scan a h c k ar hr cr kr n_tt n_tk cur) := st in
  (* latin, latin fullwidth *)
  if between 0x0041 ord_l 0x007A || between 0xFF21 ord_l 0xFF5A then
    if negb (run_tag_eqb cur run_a)
    then mk_scan (a + 1) h c k (ar + 1) hr cr kr n_tt n_tk run_a
    else mk_scan (a + 1) h c k ar hr cr kr n_tt n_tk cur
  (* hiragana *)
  else if between 0x3041 ord_l 0x3096 then
    if negb (run_tag_eqb cur run_h)
    then mk_scan a (h + 1) c k ar (hr + 1) cr kr n_tt n_tk run_h
    else mk_scan a (h + 1) c k ar hr cr kr n_tt n_tk cur
  (* katakana *)
  else if between 0x30A1 ord_l 0x30FA then
    if negb (run_tag_eqb cur run_k)
    then mk_scan a h c (k + 1) ar hr cr (kr + 1) n_tt n_tk run_k
    else mk_scan a h c (k + 1) ar hr cr kr n_tt n_tk cur
  (* kanji *)
  else if between 0x4E00 ord_l 0x9FBF then
    if negb (run_tag_eqb cur run_c)
    then mk_scan a h (c + 1) k ar hr (cr + 1) kr n_tt n_tk run_c
    else mk_scan a h (c + 1) k ar hr cr kr n_tt n_tk cur
  (* kuten *)
  else if ord_l =? KUTEN then
    mk_scan a h c k ar hr cr kr n_tt (n_tk + 1) cur
  (* tooten *)
  else if ord_l =? TOTEN then
    mk_scan a h c k ar hr cr kr (n_tt + 1) n_tk cur
  else if between 0x0021 ord_l 0x002F then st   (* continue *)
  else if between 0x0030 ord_l 0x0039 then st   (* continue *)
  else if between 0x003A ord_l 0x0040 then st   (* continue *)
  else if between 0x007B ord_l 0x007E then st   (* continue *)
  else st.

Definition scan_from (st : scan_state) (txt : list Z) : scan_state :=
  fold_left loop_body txt st.

Definition scan (txt : list Z) : scan_state := scan_from scan_init txt.

(** ** The statistics *)

(** The attributes of a [Tateisi] object. *)
Record Statistics : Type := mk_stats {
  pa : pynum; ph : pynum; pc : pynum; pk : pynum;
  la : pynum; lh : pynum; lc : pynum; lk : pynum;
  ls : pynum;
  cp : pynum
}.

(** The class attributes [pa, ph, pc, pk = 0, 0, 0, 0] and so on: what an
    attribute of an instance reads as until [__init__] assigns it. *)
Definition class_attributes : Statistics :=
  mk_stats (PyInt 0) (PyInt 0) (PyInt 0) (PyInt 0)
           (PyInt 0) (PyInt 0) (PyInt 0) (PyInt 0)
           (PyInt 0) (PyInt 0).

Definition set_pa (v : pynum) (s : Statistics) : Statistics :=
  mk_stats v (ph s) (pc s) (pk s) (la s) (lh s) (lc s) (lk s) (ls s) (cp s).
Definition set_ph (v : pynum) (s : Statistics) : Statistics :=
  mk_stats (pa s) v (pc s) (pk s) (la s) (lh s) (lc s) (lk s) (ls s) (cp s).
Definition set_pc (v : pynum) (s : Statistics) : Statistics :=
  mk_stats (pa s) (ph s) v (pk s) (la s) (lh s) (lc s) (lk s) (ls s) (cp s).
Definition set_pk (v : pynum) (s : Statistics) : Statistics :=
  mk_stats (pa s) (ph s) (pc s) v (la s) (lh s) (lc s) (lk s) (ls s) (cp s).
Definition set_la (v : pynum) (s : Statistics) : Statistics :=
  mk_stats (pa s) (ph s) (pc s) (pk s) v (lh s) (lc s) (lk s) (ls s) (cp s).
Definition set_lh (v : pynum) (s : Statistics) : Statistics :=
  mk_stats (pa s) (ph s) (pc s) (pk s) (la s) v (lc s) (lk s) (ls s) (cp s).
Definition set_lc (v : pynum) (s : Statistics) : Statistics :=
  mk_stats (pa s) (ph s) (pc s) (pk s) (la s) (lh s) v (lk s) (ls s) (cp s).
Definition set_lk (v : pynum) (s : Statistics) : Statistics :=
  mk_stats (pa s) (ph s) (pc s) (pk s) (la s) (lh s) (lc s) v (ls s) (cp s).
Definition set_ls (v : pynum) (s : Statistics) : Statistics :=
  mk_stats (pa s) (ph s) (pc s) (pk s) (la s) (lh s) (lc s) (lk s) v (cp s).
Definition set_cp (v : pynum) (s : Statistics) : Statistics :=
  mk_stats (pa s) (ph s) (pc s) (pk s) (la s) (lh s) (lc s) (lk s) (ls s) v.

(** A small error monad for the statements that can raise. *)
Definition bind {A B : Type} (m : option A) (f : A -> option B) : option B :=
  match m with
  | Some x => f x
  | None => None
  end.

Notation "x <- m ;; k" := (bind m (fun x => k))
  (at level 61, m at next level, right associativity).

(** [if n != 0: self.x = (n' / n)] for one attribute; [self] is left as it is
    when the guard is false. *)
Definition assign_if_ne0 (set : pynum -> Statistics -> Statistics)
    (num den : pynum) (self : Statistics) : option Statistics :=
  if py_ne0 den
  then q <- py_truediv num den ;; Some (set (PyFloat q) self)
  else Some self.

(** The statements of [__init__] after the loop, on the attributes [self]
    (the class attributes when the object is new). *)
Definition finalize (self : Statistics) (st : scan_state) : option Statistics :=
  let '(mk_scan a h c k ar hr cr kr n_tt n_tk _) := st in
  (* assume at least 1 (implicit) kuten per sentence *)
  let tk := py_or (PyInt n_tk) (PyFloat 1.0) in
  tr <- py_truediv (PyInt (ar + hr + cr + kr)) (PyFloat 100.0) ;;
  self <- (if py_ne0 (PyFloat tr) then
             q_pa <- py_truediv (PyInt ar) (PyFloat tr) ;;
             q_ph <- py_truediv (PyInt hr) (PyFloat tr) ;;
             q_pc <- py_truediv (PyInt cr) (PyFloat tr) ;;
             q_pk <- py_truediv (PyInt kr) (PyFloat tr) ;;
             Some (set_pk (PyFloat q_pk) (set_pc (PyFloat q_pc)
                    (set_ph (PyFloat q_ph) (set_pa (PyFloat q_pa) self))))
           else Some self) ;;
  self <- assign_if_ne0 set_la (PyInt a) (PyInt ar) self ;;
  self <- assign_if_ne0 set_lh (PyInt h) (PyInt hr) self ;;
  self <- assign_if_ne0 set_lc (PyInt c) (PyInt cr) self ;;
  self <- assign_if_ne0 set_lk (PyInt k) (PyInt kr) self ;;
  q_cp <- py_truediv (PyInt n_tt) tk ;;
  q_ls <- py_truediv (PyInt (a + h + c + k)) tk ;;
  Some (set_ls (PyFloat q_ls) (set_cp (PyFloat q_cp) self)).

(** [Tateisi.__init__(self, txt)] on a new object, and [Tateisi(txt)];
    [None] stands for a raised exception. *)
Definition __init__ (self : Statistics) (txt : list Z) : option Statistics :=
  finalize self (scan txt).

Definition Tateisi (txt : list Z) : option Statistics :=
  __init__ class_attributes txt.

(** ** The two scores *)

Definition calculate_rs_tateisi_a (self : Statistics) : float :=
  ((py_mul 0.06 (pa self)) + (py_mul 0.25 (ph self)) -
   (py_mul 0.19 (pc self)) - (py_mul 0.61 (pk self)) -
   (py_mul 1.34 (ls self)) - (py_mul 1.35 (la self)) +
   (py_mul 7.52 (lh self)) - (py_mul 22.1 (lc self)) -
   (py_mul 5.3 (lk self)) - (py_mul 3.87 (cp self)) -
   109.1)%float.

Definition calculate_rs_tateisi_b (self : Statistics) : float :=
  ((py_mul (-0.12) (ls self)) + (py_mul (-1.37) (la self)) +
   (py_mul 7.4 (lh self)) + (py_mul (-23.18) (lc self)) +
   (py_mul (-5.4) (lk self)) + (py_mul (-4.67) (cp self)) +
   115.79)%float.

(** ** The classification the loop performs, as the specification words it *)

Inductive CharacterClass : Type :=
  | Alphabet | Hiragana | Katakana | Kanji
  | KutenPunctuation | TotenPunctuation | Other.

Definition is_letter_class (cl : CharacterClass) : bool :=
  match cl with
  | Alphabet | Hiragana | Katakana | Kanji => true
  | _ => false
  end.

(** The range table, in its priority order. *)
Definition class_table : list ((Z -> bool) * CharacterClass) :=
  [ (fun x => between 0x0041 x 0x007A || between 0xFF21 x 0xFF5A, Alphabet);
    (fun x => between 0x3041 x 0x3096, Hiragana);
    (fun x => between 0x30A1 x 0x30FA, Katakana);
    (fun x => between 0x4E00 x 0x9FBF, Kanji);
    (fun x => x =? 0x3002, KutenPunctuation);
    (fun x => x =? 0x3001, TotenPunctuation) ].

(** Only the first predicate that matches applies; none matching is [Other]. *)
Fixpoint first_match (tbl : list ((Z -> bool) * CharacterClass)) (x : Z)
    : CharacterClass :=
  match tbl with
  | [] => Other
  | (p, cl) :: tbl' => if p x then cl else first_match tbl' x
  end.

Definition classify (x : Z) : CharacterClass := first_match class_table x.

(** Steps 2 to 5 of the specification's algorithm on one classified
    character. *)
Definition begin_or_extend (tag : run_tag) (st : scan_state) : scan_state :=
  let '(mk_scan a h c k ar hr cr kr n_tt n_tk cur) := st in
  let fresh := negb (run_tag_eqb cur tag) in
  let inc (b : bool) (n : Z) := if b then n + 1 else n in
  match tag with
  | run_a => mk_scan (a + 1) h c k (inc fresh ar) hr cr kr n_tt n_tk tag
  | run_h => mk_scan a (h + 1) c k ar (inc fresh hr) cr kr n_tt n_tk tag
  | run_k => mk_scan a h c (k + 1) ar hr cr (inc fresh kr) n_tt n_tk tag
  | run_c => mk_scan a h (c + 1) k ar hr (inc fresh cr) kr n_tt n_tk tag
  | run_none => st
  end.

Definition count_class (cl : CharacterClass) (st : scan_state) : scan_state :=
  match cl with
  | Alphabet => begin_or_extend run_a st
  | Hiragana => begin_or_extend run_h st
  | Katakana => begin_or_extend run_k st
  | Kanji => begin_or_extend run_c st
  | KutenPunctuation =>
      let '(mk_scan a h c k ar hr cr kr n_tt n_tk cur) := st in
      mk_scan a h c k ar hr cr kr n_tt (n_tk + 1) cur
  | TotenPunctuation =>
      let '(mk_scan a h c k ar hr cr kr n_tt n_tk cur) := st in
      mk_scan a h c k ar hr cr kr (n_tt + 1) n_tk cur
  | Other => st
  end.

(** What run tracking sees of a state: the letter and run counters and
    [current_run], not the two punctuation counters. *)
Definition run_view (st : scan_state) : scan_state :=
  let '(mk_scan a h c k ar hr cr kr _ _ cur) := st in
  mk_scan a h c k ar hr cr kr 0 0 cur.

(** ** The finalization in closed form *)

(** [n / tk] after [tk = tk or 1.0]. *)
Definition div_by_kuten (n n_tk : Z) : float :=
  if n_tk =? 0 then (float_of_int n / 1.0)%float else int_truediv n n_tk.

(** The attributes after the percentage block. *)
Definition percentages (self : Statistics) (ar hr cr kr : Z) : Statistics :=
  let tr := (float_of_int (ar + hr + cr + kr) / 100.0)%float in
  if (tr =? 0)%float then self
  else set_pk (PyFloat (float_of_int kr / tr)) (set_pc (PyFloat (float_of_int cr / tr))
        (set_ph (PyFloat (float_of_int hr / tr)) (set_pa (PyFloat (float_of_int ar / tr)) self))).

(** [if r != 0: self.l = (n / r)] *)
Definition mean_run (set : pynum -> Statistics -> Statistics) (n r : Z)
    (self : Statistics) : Statistics :=
  if r =? 0 then self else set (PyFloat (int_truediv n r)) self.

(** ** Predicates of the statements about the scan *)

(** Digits, the ASCII punctuation the loop lists, kuten and toten. *)
Definition listed_non_letter (d : Z) : bool :=
  between 0x0021 d 0x002F || between 0x0030 d 0x0039 ||
  between 0x003A d 0x0040 || between 0x007B d 0x007E ||
  (d =? KUTEN) || (d =? TOTEN).

(** An Alphabet character: one more letter, a new run unless one is open. *)
Definition counted_as_alphabet (st st' : scan_state) : Prop :=
  v_a st' = v_a st + 1 /\
  v_ar st' = (if run_tag_eqb (current_run st) run_a then v_ar st else v_ar st + 1) /\
  current_run st' = run_a /\
  (v_h st', v_c st', v_k st', v_hr st', v_cr st', v_kr st', v_tt st', v_tk st') =
  (v_h st, v_c st, v_k st, v_hr st, v_cr st, v_kr st, v_tt st, v_tk st).

(** ** The class object, the instances and attribute access *)

(** A [__dict__]: attribute names bound to values, in order of insertion. *)
Definition pydict : Type := list (String.string * pynum).

(** [d.get(x)] *)
Fixpoint dict_get (d : pydict) (x : String.string) : option pynum :=
  match d with
  | [] => None
  | (y, w) :: d' => if String.eqb x y then Some w else dict_get d' x
  end.

(** [d[x] = v]: the binding of [x] is replaced where it is, a new name is
    appended. *)
Fixpoint dict_set (d : pydict) (x : String.string) (v : pynum) : pydict :=
  match d with
  | [] => [(x, v)]
  | (y, w) :: d' => if String.eqb x y then (y, v) :: d' else (y, w) :: dict_set d' x v
  end.

(** The objects of the program: the [__dict__] of the class [Tateisi], which
    every instance shares, and the [__dict__] of each instance, in order of
    creation.  An instance is referred to by its index. *)
Record store : Type := mk_store {
  class_dict : pydict;
  instances : list pydict
}.

(** The store after the class statement: the class body has bound the ten
    names to the [int] 0, and there is no instance. *)
Definition class_body : store :=
  mk_store [("pa"%string, PyInt 0); ("ph"%string, PyInt 0); ("pc"%string, PyInt 0);
            ("pk"%string, PyInt 0);
            ("la"%string, PyInt 0); ("lh"%string, PyInt 0); ("lc"%string, PyInt 0);
            ("lk"%string, PyInt 0);
            ("ls"%string, PyInt 0);
            ("cp"%string, PyInt 0)]
           [].

(** [obj.x]: the instance's own binding if it has one, else the binding of
    the class; [None] stands for [AttributeError] (and for a reference to no
    object). *)
Definition getattr (s : store) (obj : nat) (x : String.string) : option pynum :=
  d <- nth_error (instances s) obj ;;
  match dict_get d x with
  | Some v => Some v
  | None => dict_get (class_dict s) x
  end.

(** The list [l] with its element at [n] replaced. *)
Fixpoint list_set {A : Type} (l : list A) (n : nat) (x : A) : list A :=
  match l, n with
  | [], _ => []
  | _ :: l', O => x :: l'
  | y :: l', S n' => y :: list_set l' n' x
  end.

(** [obj.x = v]: the name is bound in the [__dict__] of the instance; the
    class has no descriptor for it and is left as it is. *)
Definition setattr (s : store) (obj : nat) (x : String.string) (v : pynum) :
    option store :=
  d <- nth_error (instances s) obj ;;
  Some (mk_store (class_dict s) (list_set (instances s) obj (dict_set d x v))).

(** [self.x = (num / den)] *)
Definition assign_quotient (x : String.string) (num den : pynum)
    (self : nat) (s : store) : option store :=
  q <- py_truediv num den ;; setattr s self x (PyFloat q).

(** [Tateisi.__init__(self, txt)] on the store: the loop works on local
    variables, the statements after it assign attributes of [self]. *)
Definition Tateisi___init__ (s : store) (self : nat) (txt : list Z) : option store :=
  let '(mk_scan a h c k ar hr cr kr n_tt n_tk _) := scan txt in
  (* assume at least 1 (implicit) kuten per sentence *)
  let tk := py_or (PyInt n_tk) (PyFloat 1.0) in
  tr <- py_truediv (PyInt (ar + hr + cr + kr)) (PyFloat 100.0) ;;
  s <- (if py_ne0 (PyFloat tr) then
          s <- assign_quotient "pa" (PyInt ar) (PyFloat tr) self s ;;
          s <- assign_quotient "ph" (PyInt hr) (PyFloat tr) self s ;;
          s <- assign_quotient "pc" (PyInt cr) (PyFloat tr) self s ;;
          assign_quotient "pk" (PyInt kr) (PyFloat tr) self s
        else Some s) ;;
  s <- (if py_ne0 (PyInt ar) then assign_quotient "la" (PyInt a) (PyInt ar) self s
        else Some s) ;;
  s <- (if py_ne0 (PyInt hr) then assign_quotient "lh" (PyInt h) (PyInt hr) self s
        else Some s) ;;
  s <- (if py_ne0 (PyInt cr) then assign_quotient "lc" (PyInt c) (PyInt cr) self s
        else Some s) ;;
  s <- (if py_ne0 (PyInt kr) then assign_quotient "lk" (PyInt k) (PyInt kr) self s
        else Some s) ;;
  s <- assign_quotient "cp" (PyInt n_tt) tk self s ;;
  assign_quotient "ls" (PyInt (a + h + c + k)) tk self s.

(** [Tateisi(txt)]: a new instance with an empty [__dict__] is created and
    initialized; the value is the store and the reference to the instance. *)
Definition Tateisi_new (s : store) (txt : list Z) : option (store * nat) :=
  let self := length (instances s) in
  s <- Tateisi___init__ (mk_store (class_dict s) (instances s ++ [[]])) self txt ;;
  Some (s, self).

(** One [Tateisi(t)] after the other for the texts of a list. *)
Fixpoint construct_all (s : store) (txts : list (list Z)) : option store :=
  match txts with
  | [] => Some s
  | t :: ts => r <- Tateisi_new s t ;; construct_all (fst r) ts
  end.

(** The ten attributes of an object, read as the two score methods read
    them. *)
Definition attributes (s : store) (obj : nat) : option Statistics :=
  v_pa <- getattr s obj "pa" ;; v_ph <- getattr s obj "ph" ;;
  v_pc <- getattr s obj "pc" ;; v_pk <- getattr s obj "pk" ;;
  v_la <- getattr s obj "la" ;; v_lh <- getattr s obj "lh" ;;
  v_lc <- getattr s obj "lc" ;; v_lk <- getattr s obj "lk" ;;
  v_ls <- getattr s obj "ls" ;; v_cp <- getattr s obj "cp" ;;
  Some (mk_stats v_pa v_ph v_pc v_pk v_la v_lh v_lc v_lk v_ls v_cp).

(** [x = Tateisi(txt)] and later [y = Tateisi(txt)] in a program that has
    constructed objects for the texts [earlier] before and constructs objects
    for the texts [others] in between.  The value is the attributes of [x]
    read when it has been constructed, and the attributes of [x] and of [y]
    read at the end. *)
Definition construct_twice (earlier : list (list Z)) (txt : list Z)
    (others : list (list Z)) : option (Statistics * Statistics * Statistics) :=
  s <- construct_all class_body earlier ;;
  x <- Tateisi_new s txt ;;
  sx <- attributes (fst x) (snd x) ;;
  s <- construct_all (fst x) others ;;
  y <- Tateisi_new s txt ;;
  sx' <- attributes (fst y) (snd x) ;;
  sy <- attributes (fst y) (snd y) ;;
  Some (sx, sx', sy).

(** The attributes as a [__dict__]. *)
Definition as_dict (st : Statistics) : pydict :=
  [("pa"%string, pa st); ("ph"%string, ph st); ("pc"%string, pc st);
   ("pk"%string, pk st);
   ("la"%string, la st); ("lh"%string, lh st); ("lc"%string, lc st);
   ("lk"%string, lk st);
   ("ls"%string, ls st);
   ("cp"%string, cp st)].

(** The object [obj] of the store reads as [st]. *)
Definition reads_as (s : store) (obj : nat) (st : Statistics) : Prop :=
  forall x : String.string, getattr s obj x = dict_get (as_dict st) x.

(** From [s] to [s'] nothing but the [__dict__] of [obj] has changed. *)
Definition only_changes (obj : nat) (s s' : store) : Prop :=
  class_dict s' = class_dict s /\
  length (instances s') = length (instances s) /\
  forall o : nat, o <> obj -> nth_error (instances s') o = nth_error (instances s) o.

(** From [s] to [s'] objects were added; the class and the objects of [s]
    are as they were. *)
Definition extends (s s' : store) : Prop :=
  class_dict s' = class_dict s /\
  (length (instances s) <= length (instances s'))%nat /\
  forall o : nat, (o < length (instances s))%nat ->
    nth_error (instances s') o = nth_error (instances s) o.

(** A setter of the record does what binding the name does. *)
Definition setter_of (x : String.string) (set : pynum -> Statistics -> Statistics) : Prop :=
  forall (v : pynum) (st : Statistics) (y : String.string),
    dict_get (as_dict (set v st)) y =
    if String.eqb y x then Some v else dict_get (as_dict st) y.

(** ** The formulas as the specification writes them *)

Definition scoreA (s : Statistics) : float :=
  let v (x : Statistics -> pynum) := to_float (x s) in
  (0.06 * v pa + 0.25 * v ph - 0.19 * v pc - 0.61 * v pk - 1.34 * v ls
   - 1.35 * v la + 7.52 * v lh - 22.1 * v lc - 5.3 * v lk - 3.87 * v cp
   - 109.1)%float.

Definition scoreB (s : Statistics) : float :=
  let v (x : Statistics -> pynum) := to_float (x s) in
  (- (0.12 * v ls) - 1.37 * v la + 7.4 * v lh - 23.18 * v lc - 5.4 * v lk
   - 4.67 * v cp + 115.79)%float.

(** ** Rounding to binary64

    [SpecFloat] defines the operations of the primitive floats on
    mantissa-exponent pairs.  The position of the leading bit of [m * 2 ^ e]
    is [Zdigits2 m + e]; the definitions below name what its rounding
    function computes and the bounds the statements use. *)

(** By how many bits [shr_fexp] shifts the mantissa [m] at exponent [e]. *)
Definition rnd_shift (m e : Z) : Z :=
  Z.max 0 (fexp prec emax (Zdigits2 m + e) - e).

(** The result of [binary_round_aux] from the mantissa [m2] it has after
    rounding to nearest, at exponent [e1]. *)
Definition rounded (s : bool) (m2 e1 : Z) : spec_float :=
  match m2 / 2 ^ rnd_shift m2 e1 with
  | Z0 => S754_zero s
  | Zpos m => if e1 + rnd_shift m2 e1 <=? emax - prec
              then S754_finite s m (e1 + rnd_shift m2 e1)
              else S754_infinity s
  | Zneg _ => S754_nan
  end.

(** [x] is an infinity of sign [s], or a valid finite number of sign [s]
    whose leading bit is at a position from [J] to [K]. *)
Definition SF_mag_or_inf (s : bool) (J K : Z) (x : spec_float) : Prop :=
  x = S754_infinity s \/
  exists m e, x = S754_finite s m e /\ valid_binary x = true /\
              J <= Zpos (digits2_pos m) + e <= K.

(** [x] is a zero or a finite number below [2 ^ K] in absolute value. *)
Definition SF_le_mag (K : Z) (x : spec_float) : Prop :=
  match x with
  | S754_zero _ => True
  | S754_finite _ m e => Zpos (digits2_pos m) + e <= K
  | _ => False
  end.

(** The exponent and the integer quotient [SFdiv_core_binary] computes for
    two finite numbers whose quotient is in the normal range. *)
Definition div_exp (mx : positive) (ex : Z) (my : positive) (ey : Z) : Z :=
  Z.min (Zpos (digits2_pos mx) + ex - (Zpos (digits2_pos my) + ey) - 53) (ex - ey).

Definition div_quot (mx : positive) (ex : Z) (my : positive) (ey : Z) : Z :=
  Zpos mx * 2 ^ (ex - ey - div_exp mx ex my ey) / Zpos my.

(** ** Bounds on primitive floats *)

(** [f] is finite and below [2 ^ K] in absolute value. *)
Definition finite_le (K : Z) (f : float) : Prop := SF_le_mag K (Prim2SF f).

(** [f] is finite and positive, in [[2 ^ (J - 1), 2 ^ K)]. *)
Definition pos_mag (J K : Z) (f : float) : Prop :=
  exists m e, Prim2SF f = S754_finite false m e /\
              J <= Zpos (digits2_pos m) + e <= K.

(** ** The value of a float *)

(** [2 ^ e] as a rational, also for a negative [e]. *)
Definition pow2 (e : Z) : Q := (2 ^ e)%Q.

(** The rational a finite number denotes, 0 for the others. *)
Definition SF2Q (x : spec_float) : Q :=
  match x with
  | S754_finite s m e =>
      ((if s then - inject_Z (Zpos m) else inject_Z (Zpos m)) * pow2 e)%Q
  | _ => 0%Q
  end.

Definition float_value (f : float) : Q := SF2Q (Prim2SF f).

(** The relative distance of two neighbours in binary64: [2 ^ -52]. *)
Definition eps : Q := 1 # 4503599627370496.

(** [f] is [+0] and [v] is 0, or [f] is positive, with its leading bit at a
    position from [J] to [K], and its value is between [a * v] and [b * v]. *)
Definition approx (J K : Z) (a b v : Q) (f : float) : Prop :=
  (Prim2SF f = S754_zero false /\ v == 0)%Q \/
  (pos_mag J K f /\ 0 < v /\ a * v <= float_value f <= b * v)%Q.

(** ** Invariants of the scan *)

(** Letters [n] and runs [r] of one class, [open] telling whether the current
    run is of that class. *)
Definition class_counts_ok (n r : Z) (open : bool) : Prop :=
  0 <= r <= n /\ (r = 0 -> n = 0) /\ (open = true -> 1 <= r).

(** The counters after [len] characters. *)
Definition counts_ok (len : Z) (st : scan_state) : Prop :=
  class_counts_ok (v_a st) (v_ar st) (run_tag_eqb (current_run st) run_a) /\
  class_counts_ok (v_h st) (v_hr st) (run_tag_eqb (current_run st) run_h) /\
  class_counts_ok (v_c st) (v_cr st) (run_tag_eqb (current_run st) run_c) /\
  class_counts_ok (v_k st) (v_kr st) (run_tag_eqb (current_run st) run_k) /\
  0 <= v_tt st /\ 0 <= v_tk st /\
  v_a st + v_h st + v_c st + v_k st + v_tt st + v_tk st <= len.

(** ** The statistics in closed form *)

(** [ar + hr + cr + kr], [tr], and the attributes [__init__] leaves. *)
Definition total_runs (st : scan_state) : Z := v_ar st + v_hr st + v_cr st + v_kr st.

Definition tr_of (st : scan_state) : float := (float_of_int (total_runs st) / 100.0)%float.

Definition percentage (st : scan_state) (r : Z) : pynum :=
  if (tr_of st =? 0)%float then PyInt 0 else PyFloat (float_of_int r / tr_of st).

Definition mean_length (n r : Z) : pynum :=
  if r =? 0 then PyInt 0 else PyFloat (int_truediv n r).

Definition stats_of (st : scan_state) : Statistics :=
  mk_stats (percentage st (v_ar st)) (percentage st (v_hr st))
           (percentage st (v_cr st)) (percentage st (v_kr st))
           (mean_length (v_a st) (v_ar st)) (mean_length (v_h st) (v_hr st))
           (mean_length (v_c st) (v_cr st)) (mean_length (v_k st) (v_kr st))
           (PyFloat (div_by_kuten (v_a st + v_h st + v_c st + v_k st) (v_tk st)))
           (PyFloat (div_by_kuten (v_tt st) (v_tk st))).

(** Every statistic is finite and below [2 ^ K]. *)
Definition stats_bounded (K : Z) (s : Statistics) : Prop :=
  finite_le K (to_float (pa s)) /\ finite_le K (to_float (ph s)) /\
  finite_le K (to_float (pc s)) /\ finite_le K (to_float (pk s)) /\
  finite_le K (to_float (la s)) /\ finite_le K (to_float (lh s)) /\
  finite_le K (to_float (lc s)) /\ finite_le K (to_float (lk s)) /\
  finite_le K (to_float (ls s)) /\ finite_le K (to_float (cp s)).

(** ** Mean run lengths *)

(** What the specification says of the mean run length [l] of a class with
    [runs] runs and [chars] letters. *)
Definition mean_run_ok (chars runs : Z) (l : pynum) : Prop :=
  (0 < runs ->
     1 <= runs <= chars /\
     exists f : float, l = PyFloat f /\ (1 <=? f)%float = true) /\
  (runs = 0 -> l = PyInt 0).

(** ** The run percentages *)

(** The sum [pa + ph + pc + pk] as Python evaluates it. *)
Definition percent_sum (s : Statistics) : float :=
  (to_float (pa s) + to_float (ph s) + to_float (pc s) + to_float (pk s))%float.

(** The text ["aあ亜アaあ"]: six runs, two of them Alphabet, two Hiragana. *)
Definition six_runs : list Z := [0x61; 0x3042; 0x4E9C; 0x30A2; 0x61; 0x3042].

(** The percentages in exact arithmetic: [r / (total / 100)]. *)
Definition exact_percentage (total r : Z) : Q := inject_Z r / (inject_Z total / 100).

(** ** Texts without letters *)

(** A character that counts for nothing but a sentence end: kuten or Other. *)
Definition kuten_or_other (x : Z) : bool :=
  match classify x with
  | KutenPunctuation | Other => true
  | _ => false
  end.

(** The attributes when every statistic is zero: eight untouched class
    values and the two quotients [0 / tk]. *)
Definition zero_statistics : Statistics :=
  mk_stats (PyInt 0) (PyInt 0) (PyInt 0) (PyInt 0)
           (PyInt 0) (PyInt 0) (PyInt 0) (PyInt 0)
           (PyFloat 0) (PyFloat 0).

(** The punctuation string of the unit test. *)
Definition ascii_punctuation : list Z :=
  [33; 34; 35; 36; 37; 38; 39; 40; 41; 42; 43; 44; 45; 46; 47;
   48; 49; 50; 51; 52; 53; 54; 55; 56; 57;
   58; 59; 60; 61; 62; 63; 64; 123; 124; 125].

(** [self.assertEqual(Tateisi(txt).calculate_rs_tateisi_b(), 115.79)] *)
Definition assert_score_b (txt : list Z) : bool :=
  match Tateisi txt with
  | Some t => (calculate_rs_tateisi_b t =? 115.79)%float
  | None => false
  end.

(** [TestScoring.test_near_empty_string]: the four assertions. *)
Definition test_near_empty_string : bool :=
  assert_score_b [] && assert_score_b [KUTEN] &&
  assert_score_b [0x20; 0x20; 0x20] && assert_score_b ascii_punctuation.

(** ** Counting by class and concatenation *)

Definition class_eqb (c d : CharacterClass) : bool :=
  match c, d with
  | Alphabet, Alphabet | Hiragana, Hiragana | Katakana, Katakana | Kanji, Kanji
  | KutenPunctuation, KutenPunctuation | TotenPunctuation, TotenPunctuation
  | Other, Other => true
  | _, _ => false
  end.

(** How many characters of [txt] are of class [cl]. *)
Definition count_of (cl : CharacterClass) (txt : list Z) : Z :=
  Z.of_nat (length (filter (fun x => class_eqb (classify x) cl) txt)).

(** A character one of the first six branches of the loop counts. *)
Definition recognised (x : Z) : bool := negb (class_eqb (classify x) Other).

(** The value [current_run] takes on a letter of class [cl]. *)
Definition tag_of (cl : CharacterClass) : run_tag :=
  match cl with
  | Alphabet => run_a
  | Hiragana => run_h
  | Katakana => run_k
  | Kanji => run_c
  | _ => run_none
  end.

(** The tag of the first letter of a text, [''] when it has no letter. *)
Fixpoint first_run (txt : list Z) : run_tag :=
  match txt with
  | [] => run_none
  | x :: t => if is_letter_class (classify x) then tag_of (classify x) else first_run t
  end.

(** 1 when a run of [tag] is open at the end of the first text and the second
    text starts with a letter of that run. *)
Definition joined (cur first tag : run_tag) : Z :=
  if run_tag_eqb cur tag && run_tag_eqb first tag then 1 else 0.

(** The state after a text that leaves [s1] followed by a text that, scanned
    alone, leaves [s2] and whose first letter has the tag [first]. *)
Definition combine (s1 s2 : scan_state) (first : run_tag) : scan_state :=
  mk_scan (v_a s1 + v_a s2) (v_h s1 + v_h s2) (v_c s1 + v_c s2) (v_k s1 + v_k s2)
          (v_ar s1 + v_ar s2 - joined (current_run s1) first run_a)
          (v_hr s1 + v_hr s2 - joined (current_run s1) first run_h)
          (v_cr s1 + v_cr s2 - joined (current_run s1) first run_c)
          (v_kr s1 + v_kr s2 - joined (current_run s1) first run_k)
          (v_tt s1 + v_tt s2) (v_tk s1 + v_tk s2)
          (match current_run s2 with run_none => current_run s1 | t => t end).

(** The ten counters, without [current_run]. *)
Definition counters (st : scan_state) : list Z :=
  [v_a st; v_h st; v_c st; v_k st; v_ar st; v_hr st; v_cr st; v_kr st; v_tt st; v_tk st].

(** 1 when the class of [x] is [cl], else 0. *)
Definition indicator (cl : CharacterClass) (x : Z) : Z :=
  if class_eqb (classify x) cl then 1 else 0.

(** A class has at most one run more than the three other classes together;
    [open] tells whether the current run is of that class. *)
Definition alternating (r others : Z) (open : bool) : Prop :=
  r <= others + (if open then 1 else 0).

Definition runs_alternate (st : scan_state) : Prop :=
  alternating (v_ar st) (v_hr st + v_cr st + v_kr st) (run_tag_eqb (current_run st) run_a) /\
  alternating (v_hr st) (v_ar st + v_cr st + v_kr st) (run_tag_eqb (current_run st) run_h) /\
  alternating (v_cr st) (v_ar st + v_hr st + v_kr st) (run_tag_eqb (current_run st) run_c) /\
  alternating (v_kr st) (v_ar st + v_hr st + v_cr st) (run_tag_eqb (current_run st) run_k).

(** ** Ranges of the statistics *)

(** [f] is [+0] or a positive finite number. *)
Definition nonneg_finite (f : float) : Prop :=
  Prim2SF f = S754_zero false \/ exists J K, pos_mag J K f.

(** [0 <= f <= 100] as Python evaluates it. *)
Definition in_0_100 (v : pynum) : bool :=
  (0 <=? to_float v)%float && (to_float v <=? 100)%float.

(** [f] is finite and [0 <= f]. *)
Definition finite_nonneg (v : pynum) : bool :=
  is_finite (to_float v) && (0 <=? to_float v)%float.

(** ** The kuten divisor, texts of one class, accuracy *)

(** The state with one more kuten counted. *)
Definition one_more_kuten (st : scan_state) : scan_state :=
  let '(mk_scan a h c k ar hr cr kr n_tt n_tk cur) := st in
  mk_scan a h c k ar hr cr kr n_tt (n_tk + 1) cur.

(** The statistics of a text of [n] letters, all of the class [cl]. *)
Definition one_class_statistics (cl : CharacterClass) (n : Z) : Statistics :=
  let p (c : CharacterClass) := PyFloat (if class_eqb cl c then 100 else 0)%float in
  let l (c : CharacterClass) :=
    if class_eqb cl c then PyFloat (float_of_int n) else PyInt 0 in
  mk_stats (p Alphabet) (p Hiragana) (p Kanji) (p Katakana)
           (l Alphabet) (l Hiragana) (l Kanji) (l Katakana)
           (PyFloat (float_of_int n)) (PyFloat 0).


(** * Properties of the scan *)

Lemma run_tag_eqb_eq (x y : run_tag) : run_tag_eqb x y = true <-> x = y.
Proof. destruct x, y; simpl; split; congruence. Qed.

Lemma run_tag_eqb_refl (x : run_tag) : run_tag_eqb x x = true.
Proof. now destruct x. Qed.

Ltac case_if :=
  match goal with
  | |- context [if ?b then _ else _] => destruct b eqn:?
  end.

(** The loop body is the classification followed by the counting step. *)
Lemma loop_body_classify (st : scan_state) (x : Z) :
  loop_body st x = count_class (classify x) st.
Proof.
  destruct st as [a h c k ar hr cr kr n_tt n_tk cur].
  unfold loop_body, classify, class_table, first_match, KUTEN, TOTEN.
  destruct (between 65 x 122 || between 65313 x 65370) eqn:Ea.
  { simpl. destruct (run_tag_eqb cur run_a) eqn:Er; simpl; [|reflexivity].
    apply run_tag_eqb_eq in Er. now subst. }
  destruct (between 12353 x 12438) eqn:Eh.
  { simpl. destruct (run_tag_eqb cur run_h) eqn:Er; simpl; [|reflexivity].
    apply run_tag_eqb_eq in Er. now subst. }
  destruct (between 12449 x 12538) eqn:Ek.
  { simpl. destruct (run_tag_eqb cur run_k) eqn:Er; simpl; [|reflexivity].
    apply run_tag_eqb_eq in Er. now subst. }
  destruct (between 19968 x 40895) eqn:Ec.
  { simpl. destruct (run_tag_eqb cur run_c) eqn:Er; simpl; [|reflexivity].
    apply run_tag_eqb_eq in Er. now subst. }
  destruct (x =? 12290) eqn:Eku; [reflexivity|].
  destruct (x =? 12289) eqn:Eto; [reflexivity|].
  simpl. repeat case_if; reflexivity.
Qed.

Lemma scan_from_app (st : scan_state) (t1 t2 : list Z) :
  scan_from st (t1 ++ t2) = scan_from (scan_from st t1) t2.
Proof. unfold scan_from. apply fold_left_app. Qed.

Lemma scan_from_cons (st : scan_state) (x : Z) (t : list Z) :
  scan_from st (x :: t) = scan_from (loop_body st x) t.
Proof. reflexivity. Qed.

(** A character outside the four letter classes leaves the run view alone. *)
Lemma count_class_non_letter (cl : CharacterClass) (st : scan_state) :
  is_letter_class cl = false -> run_view (count_class cl st) = run_view st.
Proof. destruct cl, st; simpl; intros H; congruence. Qed.

(** The run view of the next state depends on the run view only. *)
Lemma run_view_loop_body (st st' : scan_state) (x : Z) :
  run_view st = run_view st' ->
  run_view (loop_body st x) = run_view (loop_body st' x).
Proof.
  rewrite !loop_body_classify.
  destruct st, st'; simpl; intros H; injection H as -> -> -> -> -> -> -> -> ->.
  destruct (classify x); simpl; try reflexivity;
    match goal with |- context [run_tag_eqb ?c ?t] => destruct (run_tag_eqb c t) end;
    reflexivity.
Qed.

Lemma run_view_scan_from (t : list Z) : forall st st' : scan_state,
  run_view st = run_view st' ->
  run_view (scan_from st t) = run_view (scan_from st' t).
Proof.
  induction t as [|x t IH]; intros st st' H; [exact H|].
  rewrite !scan_from_cons. apply IH. now apply run_view_loop_body.
Qed.

(** ** Totality of the finalization *)

Lemma py_truediv_float (x : pynum) (f : float) :
  (f =? 0)%float = false -> py_truediv x (PyFloat f) = Some (to_float x / f)%float.
Proof. intros H. destruct x; simpl; now rewrite H. Qed.

Lemma py_truediv_int (m n : Z) :
  n <> 0 -> py_truediv (PyInt m) (PyInt n) = Some (int_truediv m n).
Proof. intros H. destruct n; simpl; congruence. Qed.

Lemma assign_if_ne0_int (set : pynum -> Statistics -> Statistics)
    (m n : Z) (self : Statistics) :
  assign_if_ne0 set (PyInt m) (PyInt n) self =
  Some (if n =? 0 then self
        else set (PyFloat (int_truediv m n)) self).
Proof.
  unfold assign_if_ne0, py_ne0, py_truthy.
  destruct (Z.eqb_spec n 0) as [->|Hn]; cbn [negb]; [reflexivity|].
  now rewrite py_truediv_int.
Qed.

Lemma py_truediv_tk (n n_tk : Z) :
  py_truediv (PyInt n) (py_or (PyInt n_tk) (PyFloat 1.0)) =
  Some (div_by_kuten n n_tk).
Proof.
  unfold py_or, py_truthy, div_by_kuten.
  destruct (Z.eqb_spec n_tk 0) as [->|Hn]; simpl negb; cbv iota.
  - now apply py_truediv_float.
  - now apply py_truediv_int.
Qed.

(** [finalize] never raises, and this is what it returns. *)
Lemma finalize_eq (self : Statistics) (st : scan_state) :
  finalize self st =
  Some (set_ls (PyFloat (div_by_kuten (v_a st + v_h st + v_c st + v_k st) (v_tk st)))
       (set_cp (PyFloat (div_by_kuten (v_tt st) (v_tk st)))
       (mean_run set_lk (v_k st) (v_kr st)
       (mean_run set_lc (v_c st) (v_cr st)
       (mean_run set_lh (v_h st) (v_hr st)
       (mean_run set_la (v_a st) (v_ar st)
       (percentages self (v_ar st) (v_hr st) (v_cr st) (v_kr st)))))))).
Proof.
  destruct st as [a h c k ar hr cr kr n_tt n_tk cur].
  unfold finalize. cbn [v_a v_h v_c v_k v_ar v_hr v_cr v_kr v_tt v_tk].
  rewrite py_truediv_float by reflexivity. cbn [bind to_float].
  set (tr := (float_of_int (ar + hr + cr + kr) / 100)%float).
  assert (Hp : (if py_ne0 (PyFloat tr)
                then q_pa <- py_truediv (PyInt ar) (PyFloat tr) ;;
                     q_ph <- py_truediv (PyInt hr) (PyFloat tr) ;;
                     q_pc <- py_truediv (PyInt cr) (PyFloat tr) ;;
                     q_pk <- py_truediv (PyInt kr) (PyFloat tr) ;;
                     Some (set_pk (PyFloat q_pk) (set_pc (PyFloat q_pc)
                            (set_ph (PyFloat q_ph) (set_pa (PyFloat q_pa) self))))
                else Some self) = Some (percentages self ar hr cr kr)).
  { unfold percentages, py_ne0, py_truthy. fold tr.
    destruct (tr =? 0)%float eqn:E; simpl negb; cbv iota; [reflexivity|].
    rewrite !py_truediv_float by exact E. reflexivity. }
  rewrite Hp. cbn [bind].
  repeat (rewrite assign_if_ne0_int; cbn [bind]).
  repeat (rewrite py_truediv_tk; cbn [bind to_float]).
  reflexivity.
Qed.

Lemma Tateisi_eq (txt : list Z) :
  Tateisi txt = finalize class_attributes (scan txt).
Proof. reflexivity. Qed.

(** ** Characters outside the letter classes *)

Lemma between_spec (lo x hi : Z) : between lo x hi = true <-> lo <= x <= hi.
Proof. unfold between. rewrite andb_true_iff, !Z.leb_le. tauto. Qed.

Lemma between_false (lo x hi : Z) : between lo x hi = false <-> x < lo \/ hi < x.
Proof.
  unfold between. rewrite andb_false_iff, !Z.leb_gt. tauto.
Qed.

Lemma listed_non_letter_class (d : Z) :
  listed_non_letter d = true -> is_letter_class (classify d) = false.
Proof.
  unfold listed_non_letter, KUTEN, TOTEN.
  rewrite !orb_true_iff, !between_spec, !Z.eqb_eq. intros H.
  unfold classify, class_table, first_match.
  destruct (between 65 d 122 || between 65313 d 65370) eqn:Ea.
  { apply orb_true_iff in Ea. rewrite !between_spec in Ea. lia. }
  destruct (between 12353 d 12438) eqn:Eh.
  { apply between_spec in Eh. lia. }
  destruct (between 12449 d 12538) eqn:Ek.
  { apply between_spec in Ek. lia. }
  destruct (between 19968 d 40895) eqn:Ec.
  { apply between_spec in Ec. lia. }
  destruct (d =? 12290); [reflexivity|].
  destruct (d =? 12289); reflexivity.
Qed.

Lemma run_view_skip (pre suf : list Z) (d : Z) :
  is_letter_class (classify d) = false ->
  run_view (scan (pre ++ d :: suf)) = run_view (scan (pre ++ suf)).
Proof.
  intros Hd. unfold scan. rewrite !scan_from_app, scan_from_cons.
  apply run_view_scan_from.
  rewrite loop_body_classify. now apply count_class_non_letter.
Qed.

(** C2. A character that is not of a letter class never changes what run
    tracking sees: ["aa1aa"] is one Alphabet run of four letters; digits, the
    listed ASCII punctuation, kuten and toten are such characters; and
    inserting one anywhere in a text (so also between two letters of one
    class) leaves every letter counter, every run counter and [current_run]
    as they are without it. *)
Theorem non_letters_invisible_to_run_tracking :
  scan [0x61; 0x61; 0x31; 0x61; 0x61] = mk_scan 4 0 0 0 1 0 0 0 0 0 run_a /\
  (forall d : Z, listed_non_letter d = true ->
     is_letter_class (classify d) = false) /\
  (forall (pre suf : list Z) (d : Z),
     is_letter_class (classify d) = false ->
     run_view (scan (pre ++ d :: suf)) = run_view (scan (pre ++ suf))) /\
  (forall (st : scan_state) (d : Z),
     is_letter_class (classify d) = false ->
     run_view (loop_body st d) = run_view st).
Proof.
  split; [reflexivity|]. split; [exact listed_non_letter_class|].
  split; [exact run_view_skip|].
  intros st d Hd. rewrite loop_body_classify. now apply count_class_non_letter.
Qed.

(** ** The Alphabet ranges *)

Lemma classify_ascii_range (x : Z) : 0x0041 <= x <= 0x007A -> classify x = Alphabet.
Proof.
  intros H. unfold classify, class_table, first_match.
  replace (between 65 x 122) with true; [reflexivity|].
  symmetry. apply between_spec. lia.
Qed.

Lemma classify_fullwidth_range (x : Z) : 0xFF21 <= x <= 0xFF5A -> classify x = Alphabet.
Proof.
  intros H. unfold classify, class_table, first_match.
  replace (between 65313 x 65370) with true; [now rewrite orb_true_r|].
  symmetry. apply between_spec. lia.
Qed.

Lemma alphabet_counted (st : scan_state) (x : Z) :
  classify x = Alphabet -> counted_as_alphabet st (loop_body st x).
Proof.
  intros H. rewrite loop_body_classify, H. destruct st. unfold counted_as_alphabet.
  simpl. destruct (run_tag_eqb current_run0 run_a); simpl; repeat split.
Qed.

(** C3. The loop classifies each code point by the first matching entry of
    the range table in the order Alphabet, Hiragana, Katakana, Kanji, Kuten,
    Toten, else Other; and the six code points U+005B to U+0060 fall in the
    Alphabet range, each counted as an Alphabet letter that starts or extends
    an Alphabet run. *)
Theorem classification_priority_order :
  (forall (st : scan_state) (x : Z),
     loop_body st x = count_class (first_match class_table x) st) /\
  map snd class_table =
    [Alphabet; Hiragana; Katakana; Kanji; KutenPunctuation; TotenPunctuation] /\
  (forall x : Z, 0x005B <= x <= 0x0060 ->
     classify x = Alphabet /\
     forall st : scan_state, counted_as_alphabet st (loop_body st x)).
Proof.
  split; [exact loop_body_classify|]. split; [reflexivity|].
  intros x Hx.
  assert (Hc : classify x = Alphabet) by (apply classify_ascii_range; lia).
  split; [exact Hc|]. intros st. now apply alphabet_counted.
Qed.

(** C10. A fullwidth code point from U+FF3B to U+FF40 is in the fullwidth
    Alphabet range: wherever it occurs in a text it is counted as an Alphabet
    letter and starts or extends an Alphabet run. *)
Theorem fullwidth_punctuation_is_alphabet (pre suf : list Z) (x : Z) :
  0xFF3B <= x <= 0xFF40 ->
  classify x = Alphabet /\
  counted_as_alphabet (scan pre) (scan (pre ++ [x])) /\
  scan (pre ++ x :: suf) = scan_from (begin_or_extend run_a (scan pre)) suf.
Proof.
  intros Hx.
  assert (Hc : classify x = Alphabet) by (apply classify_fullwidth_range; lia).
  split; [exact Hc|]. unfold scan. rewrite !scan_from_app, !scan_from_cons. split.
  - now apply alphabet_counted.
  - now rewrite loop_body_classify, Hc.
Qed.

Lemma fullwidth_punctuation_is_alphabet_witness :
  0xFF3B <= 0xFF3F <= 0xFF40 /\
  classify 0xFF3F = Alphabet /\
  counted_as_alphabet (scan [0x3042]) (scan ([0x3042] ++ [0xFF3F])) /\
  scan ([0x3042] ++ 0xFF3F :: [0x3042]) =
    scan_from (begin_or_extend run_a (scan [0x3042])) [0x3042].
Proof.
  split; [lia|]. apply (fullwidth_punctuation_is_alphabet [0x3042] [0x3042] 0xFF3F). lia.
Defined.

(** ** Totality and determinism *)

(** C7. The classifier never fails: a character the loop recognizes in no
    range changes nothing, the kuten divisor is 1.0 when no kuten was counted,
    a division is performed only on a divisor that is not zero, and so every
    text yields a Statistics value. *)
Theorem classifier_total :
  (forall txt : list Z, exists s : Statistics, Tateisi txt = Some s) /\
  Tateisi [] = Some zero_statistics /\
  (forall (st : scan_state) (x : Z), classify x = Other -> loop_body st x = st) /\
  py_or (PyInt 0) (PyFloat 1.0) = PyFloat 1.0 /\
  (forall x d : pynum, py_truthy d = true -> py_truediv x d <> None) /\
  (forall (set : pynum -> Statistics -> Statistics) (x d : pynum) (self : Statistics),
     py_truthy d = false -> assign_if_ne0 set x d self = Some self).
Proof.
  split; [|split; [|split; [|split; [|split]]]].
  - intros txt. rewrite Tateisi_eq, finalize_eq. eexists. reflexivity.
  - vm_compute. reflexivity.
  - intros st x H. now rewrite loop_body_classify, H.
  - reflexivity.
  - intros [m|g] [n|f]; simpl.
    + destruct n; simpl; congruence.
    + destruct (f =? 0)%float; simpl; congruence.
    + destruct n; simpl; congruence.
    + destruct (f =? 0)%float; simpl; congruence.
  - intros set x d self H. unfold assign_if_ne0, py_ne0. now rewrite H.
Qed.

Lemma dict_get_set (d : pydict) (x y : String.string) (v : pynum) :
  dict_get (dict_set d x v) y = if String.eqb y x then Some v else dict_get d y.
Proof.
  induction d as [|[z w] d IH]; cbn [dict_set dict_get].
  - reflexivity.
  - destruct (String.eqb_spec x z) as [->|Hxz]; cbn [dict_get].
    + destruct (String.eqb y z); reflexivity.
    + rewrite IH. destruct (String.eqb_spec y z) as [->|Hyz]; [|reflexivity].
      destruct (String.eqb_spec z x) as [->|_]; [congruence|reflexivity].
Qed.

Lemma list_set_length {A : Type} (l : list A) : forall (n : nat) (x : A),
  length (list_set l n x) = length l.
Proof.
  induction l as [|y l IH]; intros [|n] x; cbn [list_set length]; try reflexivity.
  now rewrite IH.
Qed.

Lemma nth_error_list_set_same {A : Type} (l : list A) : forall (n : nat) (x y : A),
  nth_error l n = Some y -> nth_error (list_set l n x) n = Some x.
Proof.
  induction l as [|z l IH]; intros [|n] x y H; cbn in *; try discriminate.
  - reflexivity.
  - now apply (IH n x y).
Qed.

Lemma nth_error_list_set_other {A : Type} (l : list A) : forall (n m : nat) (x : A),
  m <> n -> nth_error (list_set l n x) m = nth_error l m.
Proof.
  induction l as [|z l IH]; intros [|n] [|m] x H; cbn; try reflexivity.
  - congruence.
  - apply IH. congruence.
Qed.

(** What an assignment does to the store. *)
Lemma setattr_spec (s : store) (obj : nat) (d : pydict) (x : String.string) (v : pynum) :
  nth_error (instances s) obj = Some d ->
  exists s' : store,
    setattr s obj x v = Some s' /\
    only_changes obj s s' /\
    forall y, getattr s' obj y = if String.eqb y x then Some v else getattr s obj y.
Proof.
  intros H. unfold setattr. rewrite H. cbn [bind]. eexists. split; [reflexivity|].
  split.
  - split; [reflexivity|]. cbn [instances]. split; [apply list_set_length|].
    intros o Ho. now apply nth_error_list_set_other.
  - intros y. unfold getattr. cbn [instances class_dict].
    rewrite (nth_error_list_set_same _ _ _ d H), H. cbn [bind].
    rewrite dict_get_set. destruct (String.eqb y x); reflexivity.
Qed.

Lemma only_changes_refl (obj : nat) (s : store) : only_changes obj s s.
Proof. repeat split. Qed.

Lemma only_changes_trans (obj : nat) (s1 s2 s3 : store) :
  only_changes obj s1 s2 -> only_changes obj s2 s3 -> only_changes obj s1 s3.
Proof.
  intros (C1 & L1 & N1) (C2 & L2 & N2). split; [congruence|]. split; [congruence|].
  intros o Ho. now rewrite N2, N1.
Qed.

Lemma reads_as_instance (s : store) (obj : nat) (st : Statistics) :
  reads_as s obj st -> exists d, nth_error (instances s) obj = Some d.
Proof.
  intros H. specialize (H "pa"%string). unfold getattr in H.
  destruct (nth_error (instances s) obj) as [d|]; [now exists d|discriminate].
Qed.

Ltac setter_names :=
  intros v [] y; cbn;
  repeat match goal with
         | |- context [String.eqb y ?k] =>
             destruct (String.eqb_spec y k) as [->|?]; [reflexivity|]
         end;
  reflexivity.

Lemma setter_pa : setter_of "pa" set_pa. Proof. setter_names. Qed.
Lemma setter_ph : setter_of "ph" set_ph. Proof. setter_names. Qed.
Lemma setter_pc : setter_of "pc" set_pc. Proof. setter_names. Qed.
Lemma setter_pk : setter_of "pk" set_pk. Proof. setter_names. Qed.
Lemma setter_la : setter_of "la" set_la. Proof. setter_names. Qed.
Lemma setter_lh : setter_of "lh" set_lh. Proof. setter_names. Qed.
Lemma setter_lc : setter_of "lc" set_lc. Proof. setter_names. Qed.
Lemma setter_lk : setter_of "lk" set_lk. Proof. setter_names. Qed.
Lemma setter_ls : setter_of "ls" set_ls. Proof. setter_names. Qed.
Lemma setter_cp : setter_of "cp" set_cp. Proof. setter_names. Qed.

(** [self.x = (num / den)] binds [x] in the object and nothing else. *)
Lemma assign_quotient_spec (x : String.string)
    (set : pynum -> Statistics -> Statistics) (num den : pynum) (q : float)
    (self : nat) (s : store) (st : Statistics) :
  setter_of x set -> py_truediv num den = Some q -> reads_as s self st ->
  exists s' : store,
    assign_quotient x num den self s = Some s' /\
    only_changes self s s' /\ reads_as s' self (set (PyFloat q) st).
Proof.
  intros Hset Hq R. unfold assign_quotient. rewrite Hq. cbn [bind].
  destruct (reads_as_instance s self st R) as [d Hd].
  destruct (setattr_spec s self d x (PyFloat q) Hd) as (s' & E & OC & G).
  exists s'. split; [exact E|]. split; [exact OC|].
  intros y. now rewrite G, Hset, (R y).
Qed.

(** A guarded assignment of a mean run length. *)
Lemma guarded_assign_spec (x : String.string)
    (set : pynum -> Statistics -> Statistics) (n r : Z)
    (self : nat) (s : store) (st : Statistics) :
  setter_of x set -> reads_as s self st ->
  exists s' : store,
    (if py_ne0 (PyInt r) then assign_quotient x (PyInt n) (PyInt r) self s
     else Some s) = Some s' /\
    only_changes self s s' /\ reads_as s' self (mean_run set n r st).
Proof.
  intros Hset R. unfold mean_run, py_ne0, py_truthy.
  destruct (Z.eqb_spec r 0) as [->|Hr]; cbn [negb].
  - exists s. split; [reflexivity|]. split; [apply only_changes_refl|exact R].
  - apply assign_quotient_spec; [exact Hset| |exact R]. now apply py_truediv_int.
Qed.

Ltac next_statement H :=
  let s' := fresh "s" in
  let E := fresh "E" in
  let OC := fresh "OC" in
  let R := fresh "R" in
  destruct H as (s' & E & OC & R); rewrite E; cbn [bind].

(** The constructor body on the store does to the object what [__init__]
    does to the attributes, and changes nothing else. *)
Lemma Tateisi___init___spec (s : store) (self : nat) (txt : list Z) (st0 : Statistics) :
  reads_as s self st0 ->
  exists (s' : store) (st1 : Statistics),
    Tateisi___init__ s self txt = Some s' /\
    __init__ st0 txt = Some st1 /\
    only_changes self s s' /\ reads_as s' self st1.
Proof.
  intros R0. unfold __init__. rewrite finalize_eq. unfold Tateisi___init__.
  destruct (scan txt) as [a h c k ar hr cr kr n_tt n_tk cur].
  cbn [v_a v_h v_c v_k v_ar v_hr v_cr v_kr v_tt v_tk].
  rewrite py_truediv_float by reflexivity. cbn [bind to_float].
  assert (P : exists s1 : store,
             (if py_ne0 (PyFloat (float_of_int (ar + hr + cr + kr) / 100))
              then
                s1 <- assign_quotient "pa" (PyInt ar)
                        (PyFloat (float_of_int (ar + hr + cr + kr) / 100)) self s ;;
                s2 <- assign_quotient "ph" (PyInt hr)
                        (PyFloat (float_of_int (ar + hr + cr + kr) / 100)) self s1 ;;
                s3 <- assign_quotient "pc" (PyInt cr)
                        (PyFloat (float_of_int (ar + hr + cr + kr) / 100)) self s2 ;;
                assign_quotient "pk" (PyInt kr)
                  (PyFloat (float_of_int (ar + hr + cr + kr) / 100)) self s3
              else Some s) = Some s1 /\
             only_changes self s s1 /\
             reads_as s1 self (percentages st0 ar hr cr kr)).
  { unfold percentages, py_ne0, py_truthy.
    set (tr := (float_of_int (ar + hr + cr + kr) / 100)%float).
    destruct (tr =? 0)%float eqn:E; cbn [negb].
    - exists s. split; [reflexivity|]. split; [apply only_changes_refl|exact R0].
    - next_statement (assign_quotient_spec "pa" set_pa (PyInt ar) (PyFloat tr) _ self s st0
                        setter_pa (py_truediv_float _ _ E) R0).
      next_statement (assign_quotient_spec "ph" set_ph (PyInt hr) (PyFloat tr) _ self _ _
                        setter_ph (py_truediv_float _ _ E) R).
      next_statement (assign_quotient_spec "pc" set_pc (PyInt cr) (PyFloat tr) _ self _ _
                        setter_pc (py_truediv_float _ _ E) R1).
      destruct (assign_quotient_spec "pk" set_pk (PyInt kr) (PyFloat tr) _ self _ _
                  setter_pk (py_truediv_float _ _ E) R2) as (s4 & E4 & OC4 & R4).
      exists s4. split; [exact E4|]. split; [|exact R4].
      eauto using only_changes_trans. }
  next_statement P.
  next_statement (guarded_assign_spec "la" set_la a ar self _ _ setter_la R).
  next_statement (guarded_assign_spec "lh" set_lh h hr self _ _ setter_lh R1).
  next_statement (guarded_assign_spec "lc" set_lc c cr self _ _ setter_lc R2).
  next_statement (guarded_assign_spec "lk" set_lk k kr self _ _ setter_lk R3).
  next_statement (assign_quotient_spec "cp" set_cp _ _ _ self _ _
                    setter_cp (py_truediv_tk n_tt n_tk) R4).
  destruct (assign_quotient_spec "ls" set_ls _ _ _ self _ _
              setter_ls (py_truediv_tk (a + h + c + k) n_tk) R5) as (s7 & E7 & OC7 & R7).
  exists s7. eexists. split; [exact E7|]. split; [reflexivity|]. split; [|exact R7].
  eauto 10 using only_changes_trans.
Qed.

Lemma extends_refl (s : store) : extends s s.
Proof. repeat split. apply Nat.le_refl. Qed.

Lemma extends_trans (s1 s2 s3 : store) : extends s1 s2 -> extends s2 s3 -> extends s1 s3.
Proof.
  intros (C1 & L1 & N1) (C2 & L2 & N2). split; [congruence|]. split; [lia|].
  intros o Ho. rewrite N2 by lia. now apply N1.
Qed.

(** An object keeps its attributes while other objects are made. *)
Lemma reads_as_extends (s s' : store) (obj : nat) (st : Statistics) :
  reads_as s obj st -> extends s s' -> reads_as s' obj st.
Proof.
  intros R (C & L & N) x. rewrite <- (R x).
  destruct (reads_as_instance s obj st R) as [d Hd].
  assert (Ho : (obj < length (instances s))%nat).
  { apply nth_error_Some. congruence. }
  unfold getattr. now rewrite (N obj Ho), C.
Qed.

(** [Tateisi(txt)] makes one object, which reads as the statistics of the
    text, and leaves the class and the other objects as they are. *)
Lemma Tateisi_new_spec (s : store) (txt : list Z) :
  class_dict s = class_dict class_body ->
  exists (s' : store) (st : Statistics),
    Tateisi_new s txt = Some (s', length (instances s)) /\
    Tateisi txt = Some st /\
    reads_as s' (length (instances s)) st /\
    extends s s'.
Proof.
  intros HC. unfold Tateisi_new, Tateisi.
  set (self := length (instances s)).
  set (s0 := mk_store (class_dict s) (instances s ++ [[]])).
  assert (R0 : reads_as s0 self class_attributes).
  { intros x. unfold getattr, s0, self. cbn [instances class_dict].
    rewrite nth_error_app2, Nat.sub_diag by apply Nat.le_refl.
    cbn [nth_error bind dict_get]. now rewrite HC. }
  destruct (Tateisi___init___spec s0 self txt class_attributes R0)
    as (s' & st & E & Ep & (C & L & N) & R).
  exists s', st. rewrite E. cbn [bind]. split; [reflexivity|]. split; [exact Ep|].
  split; [exact R|].
  unfold s0 in C, L, N. cbn [instances class_dict] in C, L, N.
  rewrite length_app in L. cbn [length] in L.
  split; [exact C|]. split; [lia|].
  intros o Ho. rewrite N by (unfold self; lia). now apply nth_error_app1.
Qed.

Lemma construct_all_spec (txts : list (list Z)) : forall s : store,
  class_dict s = class_dict class_body ->
  exists s' : store, construct_all s txts = Some s' /\ extends s s'.
Proof.
  induction txts as [|t ts IH]; intros s HC; cbn [construct_all].
  - exists s. split; [reflexivity|apply extends_refl].
  - destruct (Tateisi_new_spec s t HC) as (s1 & st & E & _ & _ & X1).
    rewrite E. cbn [bind fst].
    destruct (IH s1) as (s2 & E2 & X2); [destruct X1 as [C _]; congruence|].
    exists s2. split; [exact E2|]. now apply (extends_trans s s1 s2).
Qed.

Lemma attributes_reads_as (s : store) (obj : nat) (st : Statistics) :
  reads_as s obj st -> attributes s obj = Some st.
Proof.
  intros R. unfold attributes. rewrite !R. destruct st. reflexivity.
Qed.

(** The class attributes are shared state of the model: were one rebound
    (as [Tateisi.la = 7] would), a new object whose [__init__] does not
    assign it would read the new value. *)
Example rebound_class_attribute_is_read :
  (r <- Tateisi_new (mk_store (dict_set (class_dict class_body) "la" (PyInt 7)) []) [] ;;
   getattr (fst r) (snd r) "la") = Some (PyInt 7).
Proof. vm_compute. reflexivity. Qed.

(** C9. Two invocations on the same text give Statistics that agree in every
    field, whatever objects the program has constructed before and constructs
    in between: the constructor binds attributes of the new object only, so
    the class attributes an object falls back on are the same at both
    invocations, and the first object still reads as it did when the second
    has been constructed. *)
Theorem classify_deterministic (earlier others : list (list Z)) (txt : list Z) :
  exists s : Statistics,
    construct_twice earlier txt others = Some (s, s, s) /\ Tateisi txt = Some s.
Proof.
  unfold construct_twice.
  destruct (construct_all_spec earlier class_body eq_refl) as (s1 & -> & X1).
  cbn [bind].
  assert (C1 : class_dict s1 = class_dict class_body) by apply X1.
  destruct (Tateisi_new_spec s1 txt C1) as (s2 & st & -> & ET & Rx & X2).
  cbn [bind fst snd]. rewrite (attributes_reads_as _ _ _ Rx). cbn [bind].
  assert (C2 : class_dict s2 = class_dict class_body)
    by (destruct X2 as [C _]; congruence).
  destruct (construct_all_spec others s2 C2) as (s3 & -> & X3).
  cbn [bind].
  assert (C3 : class_dict s3 = class_dict class_body)
    by (destruct X3 as [C _]; congruence).
  destruct (Tateisi_new_spec s3 txt C3) as (s4 & st' & -> & ET' & Ry & X4).
  cbn [bind fst snd].
  assert (st' = st) by congruence. subst st'.
  assert (Rx' : reads_as s4 (length (instances s1)) st).
  { apply (reads_as_extends s3); [|exact X4]. now apply (reads_as_extends s2). }
  rewrite (attributes_reads_as _ _ _ Rx'), (attributes_reads_as _ _ _ Ry).
  cbn [bind]. exists st. split; [reflexivity|exact ET].
Qed.

(** * Binary64 arithmetic *)

(** ** Signs *)

Lemma binary_round_aux_negb (s : bool) (m e : Z) (l : location) :
  binary_round_aux prec emax (negb s) m e l =
  SFopp (binary_round_aux prec emax s m e l).
Proof.
  unfold binary_round_aux.
  destruct (shr_fexp prec emax m e l) as [mrs' e'].
  destruct (shr_fexp prec emax _ e' loc_Exact) as [mrs'' e''].
  destruct (shr_m mrs''); try reflexivity.
  destruct (e'' <=? emax - prec); reflexivity.
Qed.

Lemma SFmul_opp_l (x y : spec_float) :
  SFmul prec emax (SFopp x) y = SFopp (SFmul prec emax x y).
Proof.
  destruct x as [sx|sx| |sx mx ex], y as [sy|sy| |sy my ey];
    try reflexivity; try (destruct sx, sy; reflexivity).
  cbn [SFmul SFopp].
  replace (xorb (negb sx) sy) with (negb (xorb sx sy)) by now destruct sx, sy.
  apply binary_round_aux_negb.
Qed.

Lemma SFadd_opp_r (x y : spec_float) :
  SFadd prec emax x (SFopp y) = SFsub prec emax x y.
Proof.
  destruct x as [sx|sx| |sx mx ex], y as [sy|sy| |sy my ey];
    try reflexivity; destruct sx, sy; reflexivity.
Qed.

Lemma float_mul_opp_l (c y : float) : (- c * y = - (c * y))%float.
Proof.
  apply Prim2SF_inj. rewrite opp_spec, !mul_spec, opp_spec. apply SFmul_opp_l.
Qed.

Lemma float_add_opp_r (x y : float) : (x + - y = x - y)%float.
Proof.
  apply Prim2SF_inj. rewrite add_spec, sub_spec, opp_spec. apply SFadd_opp_r.
Qed.

(** C1. On every Statistics value the two methods compute the two formulas
    of the specification, with these coefficients, in this order of terms,
    in binary64 arithmetic. *)
Theorem scores_are_the_formulas (s : Statistics) :
  calculate_rs_tateisi_a s = scoreA s /\ calculate_rs_tateisi_b s = scoreB s.
Proof.
  split; [reflexivity|].
  unfold calculate_rs_tateisi_b, scoreB, py_mul. cbv zeta.
  change (-1.37)%float with (PrimFloat.opp 1.37).
  change (-0.12)%float with (PrimFloat.opp 0.12).
  change (-23.18)%float with (PrimFloat.opp 23.18).
  change (-5.4)%float with (PrimFloat.opp 5.4).
  change (-4.67)%float with (PrimFloat.opp 4.67).
  now rewrite !float_mul_opp_l, !float_add_opp_r.
Qed.

(** ** Rounding: the position of the leading bit *)

Lemma fexp_eq (e : Z) : fexp prec emax e = Z.max (e - 53) (-1074).
Proof. reflexivity. Qed.

Lemma pow2_pred (d : Z) : 0 < d -> 2 ^ d = 2 * 2 ^ (d - 1).
Proof. intros H. rewrite <- Z.pow_succ_r by lia. f_equal. lia. Qed.

Lemma digits2_pos_bounds (p : positive) :
  2 ^ (Zpos (digits2_pos p) - 1) <= Zpos p < 2 ^ Zpos (digits2_pos p).
Proof.
  induction p as [p IH|p IH|]; cbn [digits2_pos].
  - rewrite Pos2Z.inj_succ. change (Zpos p~1) with (2 * Zpos p + 1).
    replace (Z.succ (Zpos (digits2_pos p)) - 1) with (Zpos (digits2_pos p)) by lia.
    rewrite Z.pow_succ_r by lia.
    rewrite (pow2_pred (Zpos (digits2_pos p))) in * by lia. lia.
  - rewrite Pos2Z.inj_succ. change (Zpos p~0) with (2 * Zpos p).
    replace (Z.succ (Zpos (digits2_pos p)) - 1) with (Zpos (digits2_pos p)) by lia.
    rewrite Z.pow_succ_r by lia.
    rewrite (pow2_pred (Zpos (digits2_pos p))) in * by lia. lia.
  - simpl. lia.
Qed.

Lemma Zdigits2_pos (m : Z) : 0 < m -> 0 < Zdigits2 m.
Proof. destruct m; simpl; lia. Qed.

Lemma Zdigits2_bounds (m : Z) :
  0 < m -> 2 ^ (Zdigits2 m - 1) <= m < 2 ^ Zdigits2 m.
Proof. destruct m as [|p|p]; try lia. intros _. apply digits2_pos_bounds. Qed.

Lemma Zdigits2_le (m k : Z) : 0 < m -> m < 2 ^ k -> Zdigits2 m <= k.
Proof.
  intros Hm Hk. destruct (Z_lt_le_dec k (Zdigits2 m)) as [H|H]; [|exact H].
  pose proof (Zdigits2_bounds m Hm) as [Hlo _].
  assert (0 <= k).
  { destruct (Z_lt_le_dec k 0) as [Hn|Hn]; [|exact Hn].
    rewrite Z.pow_neg_r in Hk by exact Hn. lia. }
  assert (2 ^ k <= 2 ^ (Zdigits2 m - 1)) by (apply Z.pow_le_mono_r; lia).
  lia.
Qed.

Lemma Zdigits2_ge (m k : Z) : 0 <= k -> 2 ^ k <= m -> k + 1 <= Zdigits2 m.
Proof.
  intros Hk Hm.
  assert (0 < m) by (pose proof (Z.pow_pos_nonneg 2 k); lia).
  destruct (Z_lt_le_dec (Zdigits2 m) (k + 1)) as [H'|H']; [|exact H'].
  pose proof (Zdigits2_bounds m H) as [_ Hhi].
  pose proof (Zdigits2_pos m H).
  assert (2 ^ Zdigits2 m <= 2 ^ k) by (apply Z.pow_le_mono_r; lia).
  lia.
Qed.

Lemma shr_m_shr_1 (mrs : shr_record) :
  0 <= shr_m mrs -> shr_m (shr_1 mrs) = shr_m mrs / 2.
Proof.
  destruct mrs as [m r s]. cbn [shr_m]. intros Hm.
  destruct m as [|p|p]; [reflexivity| |lia].
  destruct p as [p|p|]; cbn [shr_1 shr_m].
  - apply Z.div_unique with (r := 1); lia.
  - apply Z.div_unique with (r := 0); lia.
  - reflexivity.
Qed.

Lemma shr_m_iter (p : positive) : forall mrs : shr_record,
  0 <= shr_m mrs ->
  shr_m (iter_pos shr_1 p mrs) = shr_m mrs / 2 ^ Zpos p.
Proof.
  induction p as [p IH|p IH|]; intros mrs Hm; cbn [iter_pos].
  - assert (0 < 2 ^ Zpos p) by (apply Z.pow_pos_nonneg; lia).
    assert (H1 : 0 <= shr_m (shr_1 mrs)).
    { rewrite shr_m_shr_1 by exact Hm. apply Z.div_pos; lia. }
    assert (H2 : 0 <= shr_m (iter_pos shr_1 p (shr_1 mrs))).
    { rewrite IH by exact H1. apply Z.div_pos; lia. }
    rewrite IH, IH, shr_m_shr_1 by assumption.
    rewrite !Z.div_div by lia. f_equal.
    change (Zpos p~1) with (2 * Zpos p + 1).
    replace (2 * Zpos p + 1) with (1 + Zpos p + Zpos p) by lia.
    rewrite !Z.pow_add_r by lia. change (2 ^ 1) with 2. ring.
  - assert (0 < 2 ^ Zpos p) by (apply Z.pow_pos_nonneg; lia).
    assert (H2 : 0 <= shr_m (iter_pos shr_1 p mrs)).
    { rewrite IH by exact Hm. apply Z.div_pos; lia. }
    rewrite IH, IH by assumption.
    rewrite !Z.div_div by lia. f_equal.
    change (Zpos p~0) with (2 * Zpos p).
    replace (2 * Zpos p) with (Zpos p + Zpos p) by lia.
    rewrite !Z.pow_add_r by lia. change (2 ^ 1) with 2. ring.
  - rewrite shr_m_shr_1 by exact Hm. reflexivity.
Qed.

Lemma shr_record_of_loc_m (m : Z) (l : location) : shr_m (shr_record_of_loc m l) = m.
Proof. destruct l as [|[| |]]; reflexivity. Qed.

Lemma shr_fexp_spec (m e : Z) (l : location) :
  0 <= m ->
  exists mrs, shr_fexp prec emax m e l = (mrs, e + rnd_shift m e) /\
              shr_m mrs = m / 2 ^ rnd_shift m e.
Proof.
  intros Hm. unfold shr_fexp, rnd_shift, shr.
  destruct (fexp prec emax (Zdigits2 m + e) - e) as [|p|p].
  - exists (shr_record_of_loc m l). rewrite Z.add_0_r, shr_record_of_loc_m.
    split; [reflexivity|]. now rewrite Z.div_1_r.
  - exists (iter_pos shr_1 p (shr_record_of_loc m l)).
    replace (Z.max 0 (Zpos p)) with (Zpos p) by lia.
    split; [reflexivity|].
    rewrite shr_m_iter; rewrite shr_record_of_loc_m; [reflexivity|exact Hm].
  - exists (shr_record_of_loc m l). 
    replace (Z.max 0 (Zneg p)) with 0 by lia.
    rewrite Z.add_0_r, shr_record_of_loc_m.
    split; [reflexivity|]. now rewrite Z.div_1_r.
Qed.

Lemma round_nearest_even_bounds (m : Z) (l : location) :
  m <= round_nearest_even m l <= m + 1.
Proof.
  destruct l as [|[| |]]; simpl; try lia. destruct (Z.even m); lia.
Qed.

Lemma binary_round_aux_spec (s : bool) (mx ex : Z) (lx : location) :
  0 <= mx ->
  exists m2 : Z,
    mx / 2 ^ rnd_shift mx ex <= m2 <= mx / 2 ^ rnd_shift mx ex + 1 /\
    binary_round_aux prec emax s mx ex lx = rounded s m2 (ex + rnd_shift mx ex).
Proof.
  intros Hm. unfold binary_round_aux.
  destruct (shr_fexp_spec mx ex lx Hm) as (mrs1 & -> & Hm1).
  set (m2 := round_nearest_even (shr_m mrs1) (loc_of_shr_record mrs1)).
  assert (Hb : shr_m mrs1 <= m2 <= shr_m mrs1 + 1) by apply round_nearest_even_bounds.
  assert (0 <= shr_m mrs1).
  { rewrite Hm1. apply Z.div_pos; [exact Hm|]. apply Z.pow_pos_nonneg; unfold rnd_shift; lia. }
  destruct (shr_fexp_spec m2 (ex + rnd_shift mx ex) loc_Exact) as (mrs3 & -> & Hm3); [lia|].
  exists m2. rewrite <- Hm1. split; [exact Hb|].
  unfold rounded. rewrite Hm3. reflexivity.
Qed.

Lemma Zdigits2_unique (m d : Z) : 0 < d -> 2 ^ (d - 1) <= m < 2 ^ d -> Zdigits2 m = d.
Proof.
  intros Hd [Hlo Hhi].
  assert (0 < m) by (pose proof (Z.pow_pos_nonneg 2 (d - 1)); lia).
  pose proof (Zdigits2_le m d H Hhi).
  pose proof (Zdigits2_ge m (d - 1) ltac:(lia) Hlo). lia.
Qed.

Lemma Zdigits2_mono (a b : Z) : 0 < a <= b -> Zdigits2 a <= Zdigits2 b.
Proof.
  intros [Ha Hab]. apply Zdigits2_le; [exact Ha|].
  pose proof (Zdigits2_bounds b ltac:(lia)). lia.
Qed.

Lemma Zdigits2_shr (m n : Z) :
  0 < m -> 0 <= n < Zdigits2 m ->
  0 < m / 2 ^ n /\ Zdigits2 (m / 2 ^ n) = Zdigits2 m - n.
Proof.
  intros Hm Hn. pose proof (Zdigits2_bounds m Hm) as [Hlo Hhi].
  assert (Hp : 0 < 2 ^ n) by (apply Z.pow_pos_nonneg; lia).
  assert (H1 : 2 ^ (Zdigits2 m - n - 1) <= m / 2 ^ n).
  { apply Z.div_le_lower_bound; [exact Hp|].
    rewrite <- Z.pow_add_r by lia.
    replace (n + (Zdigits2 m - n - 1)) with (Zdigits2 m - 1) by lia. exact Hlo. }
  assert (H2 : m / 2 ^ n < 2 ^ (Zdigits2 m - n)).
  { apply Z.div_lt_upper_bound; [exact Hp|].
    rewrite <- Z.pow_add_r by lia.
    replace (n + (Zdigits2 m - n)) with (Zdigits2 m) by lia. exact Hhi. }
  split.
  - pose proof (Z.pow_pos_nonneg 2 (Zdigits2 m - n - 1)). lia.
  - apply Zdigits2_unique; [lia|]. split; [exact H1|exact H2].
Qed.

Lemma div_pow2_small (m n : Z) : 0 <= m -> Zdigits2 m <= n -> m / 2 ^ n = 0.
Proof.
  intros Hm Hn. destruct (Z.eq_dec m 0) as [->|Hne]; [apply Zdiv_0_l|].
  pose proof (Zdigits2_bounds m ltac:(lia)) as [_ Hhi].
  pose proof (Zdigits2_pos m ltac:(lia)).
  apply Z.div_small. split; [exact Hm|].
  assert (2 ^ Zdigits2 m <= 2 ^ n) by (apply Z.pow_le_mono_r; lia). lia.
Qed.

Lemma rnd_shift_eq (m e : Z) :
  rnd_shift m e = Z.max 0 (Z.max (Zdigits2 m + e - 53) (-1074) - e).
Proof. reflexivity. Qed.

Lemma rounded_upper (s : bool) (m2 e1 K : Z) :
  0 <= m2 -> Zdigits2 m2 + e1 <= K -> K <= 1024 -> e1 <= 971 ->
  SF_le_mag K (rounded s m2 e1).
Proof.
  intros Hm HD HK He. unfold rounded.
  pose proof (rnd_shift_eq m2 e1) as Hn.
  set (n3 := rnd_shift m2 e1) in *.
  assert (Hn0 : 0 <= n3) by lia.
  destruct (m2 / 2 ^ n3) as [|m|m] eqn:E.
  - exact I.
  - assert (Hm2 : 0 < m2).
    { destruct (Z.eq_dec m2 0) as [->|]; [|lia]. rewrite Zdiv_0_l in E. discriminate. }
    assert (Hlt : n3 < Zdigits2 m2).
    { destruct (Z_lt_le_dec n3 (Zdigits2 m2)) as [H|H]; [exact H|].
      rewrite div_pow2_small in E by lia. discriminate. }
    destruct (Zdigits2_shr m2 n3 Hm2 ltac:(lia)) as [_ Hd]. rewrite E in Hd.
    cbn [Zdigits2] in Hd.
    replace (e1 + n3 <=? emax - prec) with true.
    + cbn [SF_le_mag]. lia.
    + symmetry. apply Z.leb_le. change (emax - prec) with 971. lia.
  - pose proof (Z.div_pos m2 (2 ^ n3) Hm ltac:(apply Z.pow_pos_nonneg; lia)). lia.
Qed.

Lemma rounded_normal (s : bool) (m2 e1 : Z) :
  0 < m2 -> -1074 < Zdigits2 m2 + e1 <= 1024 -> e1 <= 971 ->
  exists m e, rounded s m2 e1 = S754_finite s m e /\
              Zpos (digits2_pos m) + e = Zdigits2 m2 + e1.
Proof.
  intros Hm HD He. unfold rounded.
  pose proof (rnd_shift_eq m2 e1) as Hn.
  set (n3 := rnd_shift m2 e1) in *.
  pose proof (Zdigits2_pos m2 Hm) as Hd0.
  assert (Hlt : 0 <= n3 < Zdigits2 m2) by lia.
  destruct (Zdigits2_shr m2 n3 Hm Hlt) as [Hq Hd].
  destruct (m2 / 2 ^ n3) as [|m|m]; try lia.
  cbn [Zdigits2] in Hd.
  replace (e1 + n3 <=? emax - prec) with true.
  - exists m, (e1 + n3). split; [reflexivity|lia].
  - symmetry. apply Z.leb_le. change (emax - prec) with 971. lia.
Qed.

Lemma binary_round_aux_upper (s : bool) (mx ex K : Z) (lx : location) :
  0 <= mx -> ex <= fexp prec emax (Zdigits2 mx + ex) ->
  Zdigits2 mx + ex <= K -> -1074 <= K -> K + 1 <= 1024 ->
  SF_le_mag (K + 1) (binary_round_aux prec emax s mx ex lx).
Proof.
  intros Hm Hpre HD HK1 HK2.
  destruct (binary_round_aux_spec s mx ex lx Hm) as (m2 & Hm2 & ->).
  rewrite fexp_eq in Hpre.
  pose proof (rnd_shift_eq mx ex) as Hn.
  set (n1 := rnd_shift mx ex) in *.
  assert (Hp : 0 < 2 ^ n1) by (apply Z.pow_pos_nonneg; lia).
  pose proof (Z.div_pos mx (2 ^ n1) Hm Hp) as Hm1.
  apply rounded_upper; try lia.
  destruct (Z.eq_dec m2 0) as [->|Hne]; [cbn [Zdigits2]; lia|].
  destruct (Z_lt_le_dec n1 (Zdigits2 mx)) as [Hlt|Hge].
  - assert (Hmx : 0 < mx) by (destruct mx; simpl in Hlt; lia).
    destruct (Zdigits2_shr mx n1 Hmx ltac:(lia)) as [Hq Hd].
    pose proof (Zdigits2_bounds _ Hq) as [_ Hhi].
    assert (Zdigits2 m2 <= Zdigits2 (mx / 2 ^ n1) + 1).
    { apply Zdigits2_le; [lia|].
      rewrite Z.pow_add_r by (pose proof (Zdigits2_pos _ Hq); lia).
      change (2 ^ 1) with 2. lia. }
    lia.
  - rewrite div_pow2_small in Hm2 by lia.
    assert (m2 = 1) by lia. subst m2. cbn [Zdigits2 digits2_pos]. lia.
Qed.

Lemma binary_round_aux_normal (s : bool) (mx ex : Z) (lx : location) :
  0 < mx -> ex <= fexp prec emax (Zdigits2 mx + ex) ->
  -1074 < Zdigits2 mx + ex -> Zdigits2 mx + ex + 1 <= 1024 ->
  exists m e, binary_round_aux prec emax s mx ex lx = S754_finite s m e /\
    Zdigits2 mx + ex <= Zpos (digits2_pos m) + e <= Zdigits2 mx + ex + 1.
Proof.
  intros Hm Hpre HD1 HD2.
  destruct (binary_round_aux_spec s mx ex lx ltac:(lia)) as (m2 & Hm2 & ->).
  rewrite fexp_eq in Hpre.
  pose proof (rnd_shift_eq mx ex) as Hn.
  set (n1 := rnd_shift mx ex) in *.
  pose proof (Zdigits2_pos mx Hm) as Hd0.
  destruct (Zdigits2_shr mx n1 Hm ltac:(lia)) as [Hq Hd].
  pose proof (Zdigits2_bounds _ Hq) as [_ Hhi].
  assert (Hup : Zdigits2 m2 <= Zdigits2 (mx / 2 ^ n1) + 1).
  { apply Zdigits2_le; [lia|].
    rewrite Z.pow_add_r by (pose proof (Zdigits2_pos _ Hq); lia).
    change (2 ^ 1) with 2. lia. }
  assert (Hlo : Zdigits2 (mx / 2 ^ n1) <= Zdigits2 m2) by (apply Zdigits2_mono; lia).
  destruct (rounded_normal s m2 (ex + n1)) as (m & e & -> & Hmag); try lia.
  exists m, e. split; [reflexivity|lia].
Qed.

Lemma Zdigits2_shl (m k : Z) : 0 < m -> 0 <= k -> Zdigits2 (m * 2 ^ k) = Zdigits2 m + k.
Proof.
  intros Hm Hk. pose proof (Zdigits2_bounds m Hm) as [Hlo Hhi].
  pose proof (Zdigits2_pos m Hm).
  assert (0 < 2 ^ k) by (apply Z.pow_pos_nonneg; lia).
  apply Zdigits2_unique; [lia|].
  replace (Zdigits2 m + k - 1) with (Zdigits2 m - 1 + k) by lia.
  rewrite !Z.pow_add_r by lia. split.
  - apply Z.mul_le_mono_nonneg_r; lia.
  - apply Z.mul_lt_mono_pos_r; lia.
Qed.

Lemma shl_align_spec (mx : positive) (ex ex' : Z) :
  exists mz : positive,
    shl_align mx ex ex' = (mz, Z.min ex ex') /\
    Zpos mz = Zpos mx * 2 ^ (ex - Z.min ex ex').
Proof.
  unfold shl_align. destruct (ex' - ex) as [|d|d] eqn:E.
  - exists mx. replace (Z.min ex ex') with ex by lia.
    rewrite Z.sub_diag. split; [reflexivity|]. simpl. lia.
  - exists mx. replace (Z.min ex ex') with ex by lia.
    rewrite Z.sub_diag. split; [reflexivity|]. simpl. lia.
  - exists (Pos.iter xO mx d). replace (Z.min ex ex') with ex' by lia.
    split; [reflexivity|].
    change (Pos.iter xO mx d) with (shift_pos d mx).
    rewrite shift_pos_correct, Z.pow_pos_fold.
    replace (ex - ex') with (Zpos d) by lia. ring.
Qed.

Lemma shl_align_digits (mx mz : positive) (ex ez : Z) :
  ez <= ex -> Zpos mz = Zpos mx * 2 ^ (ex - ez) ->
  Zpos (digits2_pos mz) + ez = Zpos (digits2_pos mx) + ex.
Proof.
  intros He Hz. change (Zpos (digits2_pos mz)) with (Zdigits2 (Zpos mz)).
  rewrite Hz, Zdigits2_shl by lia. cbn [Zdigits2]. lia.
Qed.

Lemma binary_round_upper (s : bool) (mx : positive) (ex K : Z) :
  Zpos (digits2_pos mx) + ex <= K -> -1074 <= K -> K + 1 <= 1024 ->
  SF_le_mag (K + 1) (binary_round prec emax s mx ex).
Proof.
  intros HD HK1 HK2. unfold binary_round.
  destruct (shl_align_spec mx ex (fexp prec emax (Zpos (digits2_pos mx) + ex)))
    as (mz & -> & Hz).
  pose proof (shl_align_digits mx mz ex _ (Z.le_min_l _ _) Hz) as Hd.
  apply binary_round_aux_upper; cbn [Zdigits2]; try lia.
  rewrite Hd. lia.
Qed.

Lemma binary_round_normal (s : bool) (mx : positive) (ex : Z) :
  -1074 < Zpos (digits2_pos mx) + ex -> Zpos (digits2_pos mx) + ex + 1 <= 1024 ->
  exists m e, binary_round prec emax s mx ex = S754_finite s m e /\
    Zpos (digits2_pos mx) + ex <= Zpos (digits2_pos m) + e
      <= Zpos (digits2_pos mx) + ex + 1.
Proof.
  intros HD1 HD2. unfold binary_round.
  destruct (shl_align_spec mx ex (fexp prec emax (Zpos (digits2_pos mx) + ex)))
    as (mz & -> & Hz).
  pose proof (shl_align_digits mx mz ex _ (Z.le_min_l _ _) Hz) as Hd.
  destruct (binary_round_aux_normal s (Zpos mz)
              (Z.min ex (fexp prec emax (Zpos (digits2_pos mx) + ex))) loc_Exact)
    as (m & e & -> & Hmag); cbn [Zdigits2]; try lia.
  - rewrite Hd. lia.
  - exists m, e. split; [reflexivity|]. cbn [Zdigits2] in Hmag. lia.
Qed.

(** ** Quotients *)

Lemma SFdiv_core_binary_eq (mx : positive) (ex : Z) (my : positive) (ey : Z) :
  -1021 <= Zpos (digits2_pos mx) + ex - (Zpos (digits2_pos my) + ey) ->
  exists l, SFdiv_core_binary prec emax (Zpos mx) ex (Zpos my) ey =
            (div_quot mx ex my ey, div_exp mx ex my ey, l).
Proof.
  intros HD. unfold SFdiv_core_binary, div_quot. cbn [Zdigits2]. rewrite fexp_eq.
  replace (Z.min (Z.max (Zpos (digits2_pos mx) + ex - (Zpos (digits2_pos my) + ey) - 53) (-1074)) (ex - ey))
    with (div_exp mx ex my ey) by (unfold div_exp; lia).
  assert (Hs : 0 <= ex - ey - div_exp mx ex my ey) by (unfold div_exp; lia).
  set (s := ex - ey - div_exp mx ex my ey) in *.
  assert (Hm : match s with Zpos _ => Z.shiftl (Zpos mx) s | Z0 => Zpos mx | Zneg _ => 0 end
               = Zpos mx * 2 ^ s).
  { destruct s as [|p|p]; [simpl; lia| |lia]. apply Z.shiftl_mul_pow2. lia. }
  rewrite Hm. unfold Z.div.
  destruct (Z.div_eucl (Zpos mx * 2 ^ s) (Zpos my)) as [q r].
  eexists. reflexivity.
Qed.

Lemma div_quot_bounds (mx : positive) (ex : Z) (my : positive) (ey : Z) :
  -1021 <= Zpos (digits2_pos mx) + ex - (Zpos (digits2_pos my) + ey) ->
  0 < div_quot mx ex my ey /\
  Zpos (digits2_pos mx) + ex - (Zpos (digits2_pos my) + ey)
    <= Zdigits2 (div_quot mx ex my ey) + div_exp mx ex my ey
    <= Zpos (digits2_pos mx) + ex - (Zpos (digits2_pos my) + ey) + 1.
Proof.
  intros HD. unfold div_quot.
  pose proof (digits2_pos_bounds mx) as [Hxl Hxh].
  pose proof (digits2_pos_bounds my) as [Hyl Hyh].
  set (dx := Zpos (digits2_pos mx)) in *. set (dy := Zpos (digits2_pos my)) in *.
  assert (Hdx : 0 < dx) by (unfold dx; lia). assert (Hdy : 0 < dy) by (unfold dy; lia).
  assert (He : div_exp mx ex my ey <= dx + ex - (dy + ey) - 53 /\
               div_exp mx ex my ey <= ex - ey) by (unfold div_exp; fold dx dy; lia).
  set (e' := div_exp mx ex my ey) in *. set (s := ex - ey - e').
  assert (Hs : 0 <= s) by (unfold s; lia).
  assert (Hps : 0 < 2 ^ s) by (apply Z.pow_pos_nonneg; lia).
  set (k := dx - 1 + s - dy).
  assert (Hk : 52 <= k) by (unfold k, s; lia).
  assert (Hlo : 2 ^ k <= Zpos mx * 2 ^ s / Zpos my).
  { apply Z.div_le_lower_bound; [lia|].
    apply Z.le_trans with (2 ^ dy * 2 ^ k).
    - apply Z.mul_le_mono_nonneg_r; [apply Z.pow_nonneg; lia|lia].
    - rewrite <- Z.pow_add_r by lia. replace (dy + k) with (dx - 1 + s) by (unfold k; lia).
      rewrite Z.pow_add_r by lia. apply Z.mul_le_mono_nonneg_r; lia. }
  assert (Hhi : Zpos mx * 2 ^ s / Zpos my < 2 ^ (k + 2)).
  { apply Z.div_lt_upper_bound; [lia|].
    apply Z.lt_le_trans with (2 ^ (dy - 1) * 2 ^ (k + 2)).
    - rewrite <- Z.pow_add_r by lia. replace (dy - 1 + (k + 2)) with (dx + s) by (unfold k; lia).
      rewrite Z.pow_add_r by lia. apply Z.mul_lt_mono_pos_r; lia.
    - apply Z.mul_le_mono_nonneg_r; [apply Z.pow_nonneg; lia|lia]. }
  assert (Hq : 0 < Zpos mx * 2 ^ s / Zpos my).
  { pose proof (Z.pow_pos_nonneg 2 k). lia. }
  split; [exact Hq|].
  pose proof (Zdigits2_ge _ k ltac:(lia) Hlo).
  pose proof (Zdigits2_le _ (k + 2) Hq Hhi).
  unfold k, s in *. lia.
Qed.

Lemma SFdiv_normal (sx : bool) (mx : positive) (ex : Z)
                   (sy : bool) (my : positive) (ey : Z) :
  -1021 <= Zpos (digits2_pos mx) + ex - (Zpos (digits2_pos my) + ey) ->
  Zpos (digits2_pos mx) + ex - (Zpos (digits2_pos my) + ey) + 2 <= 1024 ->
  exists m e,
    SFdiv prec emax (S754_finite sx mx ex) (S754_finite sy my ey) =
      S754_finite (xorb sx sy) m e /\
    Zdigits2 (div_quot mx ex my ey) + div_exp mx ex my ey
      <= Zpos (digits2_pos m) + e
      <= Zdigits2 (div_quot mx ex my ey) + div_exp mx ex my ey + 1.
Proof.
  intros HD1 HD2. cbn [SFdiv].
  destruct (SFdiv_core_binary_eq mx ex my ey HD1) as [l ->].
  destruct (div_quot_bounds mx ex my ey HD1) as [Hq Hb].
  assert (He : div_exp mx ex my ey <=
               Zpos (digits2_pos mx) + ex - (Zpos (digits2_pos my) + ey) - 53)
    by (unfold div_exp; lia).
  apply binary_round_aux_normal; try lia. rewrite fexp_eq. lia.
Qed.

Lemma rounded_pos (s : bool) (m2 e1 : Z) :
  0 < m2 -> -1074 < Zdigits2 m2 + e1 ->
  e1 <= fexp prec emax (Zdigits2 m2 + e1) ->
  SF_mag_or_inf s (Zdigits2 m2 + e1) (Zdigits2 m2 + e1) (rounded s m2 e1).
Proof.
  intros Hm HD Hpre. unfold rounded. rewrite fexp_eq in Hpre.
  pose proof (rnd_shift_eq m2 e1) as Hn.
  set (n3 := rnd_shift m2 e1) in *.
  pose proof (Zdigits2_pos m2 Hm) as Hd0.
  assert (Hlt : 0 <= n3 < Zdigits2 m2) by lia.
  destruct (Zdigits2_shr m2 n3 Hm Hlt) as [Hq Hd].
  destruct (m2 / 2 ^ n3) as [|m|m]; try lia.
  cbn [Zdigits2] in Hd.
  destruct (e1 + n3 <=? emax - prec) eqn:E; [|left; reflexivity].
  right. exists m, (e1 + n3). split; [reflexivity|]. split; [|lia].
  cbn [SpecFloat.valid_binary]. unfold bounded, canonical_mantissa.
  rewrite E, andb_true_r, fexp_eq. apply Z.eqb_eq. lia.
Qed.

Lemma binary_round_aux_pos (s : bool) (mx ex : Z) (lx : location) :
  0 < mx -> ex <= fexp prec emax (Zdigits2 mx + ex) ->
  -1074 < Zdigits2 mx + ex ->
  SF_mag_or_inf s (Zdigits2 mx + ex) (Zdigits2 mx + ex + 1)
    (binary_round_aux prec emax s mx ex lx).
Proof.
  intros Hm Hpre HD1.
  destruct (binary_round_aux_spec s mx ex lx ltac:(lia)) as (m2 & Hm2 & ->).
  rewrite fexp_eq in Hpre.
  pose proof (rnd_shift_eq mx ex) as Hn.
  set (n1 := rnd_shift mx ex) in *.
  pose proof (Zdigits2_pos mx Hm) as Hd0.
  assert (Hn1 : 0 <= n1 < Zdigits2 mx) by lia.
  destruct (Zdigits2_shr mx n1 Hm Hn1) as [Hq Hd].
  pose proof (Zdigits2_bounds _ Hq) as [_ Hhi].
  assert (Hup : Zdigits2 m2 <= Zdigits2 (mx / 2 ^ n1) + 1).
  { apply Zdigits2_le; [lia|].
    rewrite Z.pow_add_r by (pose proof (Zdigits2_pos _ Hq); lia).
    change (2 ^ 1) with 2. lia. }
  assert (Hlo : Zdigits2 (mx / 2 ^ n1) <= Zdigits2 m2) by (apply Zdigits2_mono; lia).
  destruct (rounded_pos s m2 (ex + n1)) as [E|(m & e & E & V & Hmag)];
    try lia.
  - rewrite fexp_eq. lia.
  - left. exact E.
  - right. exists m, e. rewrite E in *. split; [reflexivity|]. split; [exact V|lia].
Qed.

Lemma SFdiv_pos (sx : bool) (mx : positive) (ex : Z)
                (sy : bool) (my : positive) (ey : Z) :
  -1021 <= Zpos (digits2_pos mx) + ex - (Zpos (digits2_pos my) + ey) ->
  SF_mag_or_inf (xorb sx sy)
    (Zdigits2 (div_quot mx ex my ey) + div_exp mx ex my ey)
    (Zdigits2 (div_quot mx ex my ey) + div_exp mx ex my ey + 1)
    (SFdiv prec emax (S754_finite sx mx ex) (S754_finite sy my ey)).
Proof.
  intros HD1. cbn [SFdiv].
  destruct (SFdiv_core_binary_eq mx ex my ey HD1) as [l ->].
  destruct (div_quot_bounds mx ex my ey HD1) as [Hq Hb].
  assert (He : div_exp mx ex my ey <=
               Zpos (digits2_pos mx) + ex - (Zpos (digits2_pos my) + ey) - 53)
    by (unfold div_exp; lia).
  apply binary_round_aux_pos; try lia. rewrite fexp_eq. lia.
Qed.

(** ** Sums, differences and products *)

Lemma SF_le_mag_mono (K K' : Z) (x : spec_float) :
  K <= K' -> SF_le_mag K x -> SF_le_mag K' x.
Proof. destruct x; simpl; try tauto. lia. Qed.

Lemma SF_le_mag_opp (K : Z) (x : spec_float) :
  SF_le_mag K x -> SF_le_mag K (SFopp x).
Proof. destruct x; simpl; tauto. Qed.

Lemma binary_normalize_upper (z e K : Z) :
  Z.abs z < 2 ^ (K - e) -> -1074 <= K -> K + 1 <= 1024 ->
  SF_le_mag (K + 1) (binary_normalize prec emax z e false).
Proof.
  intros Hz HK1 HK2.
  assert (Hd : forall p, Zpos p = Z.abs z -> Zpos (digits2_pos p) + e <= K).
  { intros p Hp. rewrite <- Hp in Hz.
    pose proof (Zdigits2_le (Zpos p) (K - e) ltac:(lia) Hz) as H.
    cbn [Zdigits2] in H. lia. }
  destruct z as [|p|p]; cbn [binary_normalize].
  - exact I.
  - apply binary_round_upper; try lia. now apply Hd.
  - apply binary_round_upper; try lia. now apply Hd.
Qed.

Lemma SFadd_upper (K : Z) (x y : spec_float) :
  SF_le_mag K x -> SF_le_mag K y -> -1074 <= K -> K + 2 <= 1024 ->
  SF_le_mag (K + 2) (SFadd prec emax x y).
Proof.
  intros Hx Hy HK1 HK2.
  destruct x as [sx|sx| |sx mx ex], y as [sy|sy| |sy my ey];
    cbn [SF_le_mag] in Hx, Hy; try contradiction.
  - destruct sx, sy; exact I.
  - cbn [SFadd SF_le_mag]. lia.
  - cbn [SFadd SF_le_mag]. lia.
  - cbn [SFadd].
    destruct (shl_align_spec mx ex (Z.min ex ey)) as (mx' & -> & Hmx).
    destruct (shl_align_spec my ey (Z.min ex ey)) as (my' & -> & Hmy).
    cbn [fst].
    replace (Z.min ex (Z.min ex ey)) with (Z.min ex ey) in Hmx by lia.
    replace (Z.min ey (Z.min ex ey)) with (Z.min ex ey) in Hmy by lia.
    set (ez := Z.min ex ey) in *.
    pose proof (digits2_pos_bounds mx) as [_ Hxh].
    pose proof (digits2_pos_bounds my) as [_ Hyh].
    assert (Hbx : Zpos mx' < 2 ^ (K - ez)).
    { rewrite Hmx. apply Z.lt_le_trans with (2 ^ Zpos (digits2_pos mx) * 2 ^ (ex - ez)).
      - apply Z.mul_lt_mono_pos_r; [apply Z.pow_pos_nonneg; lia|exact Hxh].
      - rewrite <- Z.pow_add_r by lia. apply Z.pow_le_mono_r; lia. }
    assert (Hby : Zpos my' < 2 ^ (K - ez)).
    { rewrite Hmy. apply Z.lt_le_trans with (2 ^ Zpos (digits2_pos my) * 2 ^ (ey - ez)).
      - apply Z.mul_lt_mono_pos_r; [apply Z.pow_pos_nonneg; lia|exact Hyh].
      - rewrite <- Z.pow_add_r by lia. apply Z.pow_le_mono_r; lia. }
    replace (K + 2) with (K + 1 + 1) by lia.
    apply binary_normalize_upper; try lia.
    replace (K + 1 - ez) with (K - ez + 1) by lia.
    rewrite Z.pow_add_r by lia. change (2 ^ 1) with 2.
    destruct sx, sy; cbn [cond_Zopp]; lia.
Qed.

Lemma SFsub_upper (K : Z) (x y : spec_float) :
  SF_le_mag K x -> SF_le_mag K y -> -1074 <= K -> K + 2 <= 1024 ->
  SF_le_mag (K + 2) (SFsub prec emax x y).
Proof.
  intros Hx Hy HK1 HK2.
  assert (E : SFsub prec emax x y = SFadd prec emax x (SFopp y)).
  { destruct x as [sx|sx| |sx mx ex], y as [sy|sy| |sy my ey];
      try reflexivity; destruct sx, sy; reflexivity. }
  rewrite E. apply SFadd_upper; auto using SF_le_mag_opp.
Qed.

Lemma valid_binary_canonical (s : bool) (m : positive) (e : Z) :
  valid_binary (S754_finite s m e) = true ->
  e = Z.max (Zpos (digits2_pos m) + e - 53) (-1074) /\ e <= 971.
Proof.
  cbn [SpecFloat.valid_binary]. unfold bounded, canonical_mantissa.
  rewrite andb_true_iff, Z.eqb_eq, Z.leb_le, fexp_eq.
  change (emax - prec) with 971. lia.
Qed.

Lemma digits2_pos_mul (mx my : positive) :
  Zpos (digits2_pos mx) + Zpos (digits2_pos my) - 1
    <= Zpos (digits2_pos (mx * my))
    <= Zpos (digits2_pos mx) + Zpos (digits2_pos my).
Proof.
  pose proof (digits2_pos_bounds mx) as [Hxl Hxh].
  pose proof (digits2_pos_bounds my) as [Hyl Hyh].
  set (dx := Zpos (digits2_pos mx)) in *. set (dy := Zpos (digits2_pos my)) in *.
  assert (0 < dx) by (unfold dx; lia). assert (0 < dy) by (unfold dy; lia).
  change (Zpos (digits2_pos (mx * my))) with (Zdigits2 (Zpos mx * Zpos my)).
  split.
  - assert (2 ^ (dx - 1 + (dy - 1)) <= Zpos mx * Zpos my).
    { rewrite Z.pow_add_r by lia. apply Z.mul_le_mono_nonneg; try lia;
        apply Z.pow_nonneg; lia. }
    assert (0 <= dx - 1 + (dy - 1)) by lia.
    pose proof (Zdigits2_ge _ _ H2 H1). lia.
  - apply Zdigits2_le; [lia|]. rewrite Z.pow_add_r by lia.
    apply Z.mul_lt_mono_nonneg; lia.
Qed.

Lemma SFmul_upper (Kx Ky : Z) (x y : spec_float) :
  valid_binary x = true -> valid_binary y = true ->
  SF_le_mag Kx x -> SF_le_mag Ky y -> -1074 <= Kx + Ky -> Kx + Ky + 1 <= 1024 ->
  SF_le_mag (Kx + Ky + 1) (SFmul prec emax x y).
Proof.
  intros Vx Vy Hx Hy HK1 HK2.
  destruct x as [sx|sx| |sx mx ex], y as [sy|sy| |sy my ey];
    cbn [SF_le_mag] in Hx, Hy; try contradiction; try exact I.
  cbn [SFmul].
  apply valid_binary_canonical in Vx, Vy.
  pose proof (digits2_pos_mul mx my).
  assert (0 < Zpos (digits2_pos mx)) by lia. assert (0 < Zpos (digits2_pos my)) by lia.
  apply binary_round_aux_upper; cbn [Zdigits2]; try lia.
  rewrite fexp_eq. lia.
Qed.

(** ** Values: one unit in the last place *)

Lemma pow2_add (a b : Z) : (pow2 (a + b) == pow2 a * pow2 b)%Q.
Proof. unfold pow2. apply Qpower_plus. discriminate. Qed.

Lemma pow2_pos (e : Z) : (0 < pow2 e)%Q.
Proof. unfold pow2. apply Qpower_0_lt. reflexivity. Qed.

Lemma pow2_inject (n : Z) : 0 <= n -> (inject_Z (2 ^ n) == pow2 n)%Q.
Proof. intros H. unfold pow2. now rewrite Zpower_Qpower. Qed.

Lemma pow2_shift (m n e : Z) :
  0 <= n -> (inject_Z (m * 2 ^ n) * pow2 e == inject_Z m * pow2 (e + n))%Q.
Proof.
  intros H. rewrite inject_Z_mult, pow2_inject, pow2_add by exact H. ring.
Qed.

Lemma rounded_value (s : bool) (m2 e1 : Z) :
  2 ^ 52 <= m2 <= 2 ^ 53 -> -1074 <= e1 -> e1 + 1 <= 971 ->
  exists m e, rounded s m2 e1 = S754_finite s m e /\
              (inject_Z (Zpos m) * pow2 e == inject_Z m2 * pow2 e1)%Q.
Proof.
  intros Hm He1 He2. unfold rounded.
  pose proof (rnd_shift_eq m2 e1) as Hn.
  destruct (Z.eq_dec m2 (2 ^ 53)) as [E|NE].
  - subst m2. change (Zdigits2 (2 ^ 53)) with 54 in Hn.
    replace (rnd_shift (2 ^ 53) e1) with 1 by lia.
    change (2 ^ 53 / 2 ^ 1) with (2 ^ 52).
    change (2 ^ 52) with (Zpos 4503599627370496) at 1.
    cbv iota.
    replace (e1 + 1 <=? emax - prec) with true
      by (symmetry; apply Z.leb_le; change (emax - prec) with 971; lia).
    eexists _, _. split; [reflexivity|].
    change (Zpos 4503599627370496) with (2 ^ 52).
    change (2 ^ 53) with (2 ^ 52 * 2 ^ 1).
    rewrite pow2_shift by lia. reflexivity.
  - assert (Hd : Zdigits2 m2 = 53) by (apply Zdigits2_unique; lia).
    rewrite Hd in Hn. replace (rnd_shift m2 e1) with 0 by lia.
    rewrite Z.pow_0_r, Z.div_1_r, Z.add_0_r.
    destruct m2 as [|m|m]; try lia.
    replace (e1 <=? emax - prec) with true
      by (symmetry; apply Z.leb_le; change (emax - prec) with 971; lia).
    eexists _, _. split; reflexivity.
Qed.

Lemma binary_round_aux_value (s : bool) (mx ex : Z) (lx : location) :
  0 < mx -> 53 <= Zdigits2 mx ->
  -1074 <= Zdigits2 mx + ex - 53 -> Zdigits2 mx + ex <= 1023 ->
  exists (m : positive) (e : Z) (A u : Q),
    binary_round_aux prec emax s mx ex lx = S754_finite s m e /\
    (0 < u /\ u * 4503599627370496 <= A /\
     A <= inject_Z mx * pow2 ex /\ inject_Z (mx + 1) * pow2 ex <= A + u /\
     A <= inject_Z (Zpos m) * pow2 e <= A + u)%Q.
Proof.
  intros Hm Hd HD1 HD2.
  destruct (binary_round_aux_spec s mx ex lx ltac:(lia)) as (m2 & Hm2 & ->).
  pose proof (rnd_shift_eq mx ex) as Hn.
  set (n1 := rnd_shift mx ex) in *.
  assert (En : n1 = Zdigits2 mx - 53) by lia.
  destruct (Zdigits2_shr mx n1 Hm ltac:(lia)) as [Hq Hdq].
  pose proof (Zdigits2_bounds _ Hq) as [Hlo Hhi].
  rewrite Hdq in Hlo, Hhi.
  replace (Zdigits2 mx - n1 - 1) with 52 in Hlo by lia.
  replace (Zdigits2 mx - n1) with 53 in Hhi by lia.
  set (m1 := mx / 2 ^ n1) in *.
  destruct (rounded_value s m2 (ex + n1)) as (m & e & -> & Hv); try lia.
  assert (Hp : 0 < 2 ^ n1) by (apply Z.pow_pos_nonneg; lia).
  assert (Hdiv : m1 * 2 ^ n1 <= mx /\ mx + 1 <= (m1 + 1) * 2 ^ n1).
  { pose proof (Z.div_mod mx (2 ^ n1) ltac:(lia)) as Hdm.
    pose proof (Z.mod_pos_bound mx (2 ^ n1) Hp) as Hr. fold m1 in Hdm. nia. }
  exists m, e, (inject_Z m1 * pow2 (ex + n1))%Q, (pow2 (ex + n1)).
  split; [reflexivity|].
  pose proof (pow2_pos (ex + n1)) as Hu. pose proof (pow2_pos ex) as Hx.
  split; [exact Hu|]. split; [|split; [|split; [|split]]].
  - assert (H : (4503599627370496 <= inject_Z m1)%Q).
    { change 4503599627370496%Q with (inject_Z (2 ^ 52)). rewrite <- Zle_Qle. lia. }
    rewrite Qmult_comm. apply Qmult_le_compat_r; [exact H|]. now apply Qlt_le_weak.
  - rewrite <- pow2_shift by lia. apply Qmult_le_compat_r; [|now apply Qlt_le_weak].
    rewrite <- Zle_Qle. lia.
  - assert (E : (inject_Z m1 * pow2 (ex + n1) + pow2 (ex + n1)
                 == inject_Z ((m1 + 1) * 2 ^ n1) * pow2 ex)%Q).
    { rewrite pow2_shift by lia. rewrite inject_Z_plus. ring. }
    rewrite E. apply Qmult_le_compat_r; [|now apply Qlt_le_weak].
    rewrite <- Zle_Qle. lia.
  - rewrite Hv. apply Qmult_le_compat_r; [|now apply Qlt_le_weak].
    rewrite <- Zle_Qle. lia.
  - rewrite Hv.
    assert (E : (inject_Z m1 * pow2 (ex + n1) + pow2 (ex + n1)
                 == inject_Z (m1 + 1) * pow2 (ex + n1))%Q).
    { rewrite inject_Z_plus. ring. }
    rewrite E. apply Qmult_le_compat_r; [|now apply Qlt_le_weak].
    rewrite <- Zle_Qle. lia.
Qed.

(** Within one unit in the last place: a relative error of [2 ^ -52]. *)
Lemma one_ulp_relative (A u v V : Q) :
  (0 < u -> u * 4503599627370496 <= A -> A <= v -> v <= A + u -> A <= V <= A + u ->
   (1 - eps) * v <= V <= (1 + eps) * v)%Q.
Proof. unfold eps. intros. lra. Qed.

Lemma pow2_le (a b : Z) : a <= b -> (pow2 a <= pow2 b)%Q.
Proof. intros H. unfold pow2. apply Qpower_le_compat_l; [exact H|discriminate]. Qed.

Lemma value_digits (m : positive) (e : Z) :
  (pow2 (Zpos (digits2_pos m) + e - 1) <= inject_Z (Zpos m) * pow2 e
     < pow2 (Zpos (digits2_pos m) + e))%Q.
Proof.
  pose proof (digits2_pos_bounds m) as [Hlo Hhi].
  pose proof (pow2_pos e) as Hp.
  set (d := Zpos (digits2_pos m)) in *. assert (Hd : 0 < d) by (unfold d; lia).
  split.
  - replace (d + e - 1) with (d - 1 + e) by lia.
    rewrite pow2_add. rewrite <- (pow2_inject (d - 1)) by lia.
    apply Qmult_le_compat_r; [|now apply Qlt_le_weak]. rewrite <- Zle_Qle. exact Hlo.
  - rewrite pow2_add. rewrite <- (pow2_inject d) by lia.
    apply Qmult_lt_compat_r; [exact Hp|]. rewrite <- Zlt_Qlt. exact Hhi.
Qed.

Lemma binary_round_value (s : bool) (mx : positive) (ex : Z) :
  -1021 <= Zpos (digits2_pos mx) + ex -> Zpos (digits2_pos mx) + ex <= 1023 ->
  exists (m : positive) (e : Z),
    binary_round prec emax s mx ex = S754_finite s m e /\
    ((1 - eps) * (inject_Z (Zpos mx) * pow2 ex) <= inject_Z (Zpos m) * pow2 e
       <= (1 + eps) * (inject_Z (Zpos mx) * pow2 ex))%Q.
Proof.
  intros HD1 HD2. unfold binary_round.
  destruct (shl_align_spec mx ex (fexp prec emax (Zpos (digits2_pos mx) + ex)))
    as (mz & -> & Hz).
  pose proof (shl_align_digits mx mz ex _ (Z.le_min_l _ _) Hz) as Hd.
  rewrite fexp_eq in *.
  set (ez := Z.min ex (Z.max (Zpos (digits2_pos mx) + ex - 53) (-1074))) in *.
  destruct (binary_round_aux_value s (Zpos mz) ez loc_Exact)
    as (m & e & A & u & -> & Hu & HA & Hlo & Hhi & HV); cbn [Zdigits2]; try lia.
  exists m, e. split; [reflexivity|].
  assert (E : (inject_Z (Zpos mz) * pow2 ez == inject_Z (Zpos mx) * pow2 ex)%Q).
  { rewrite Hz, pow2_shift by lia. replace (ez + (ex - ez)) with ex by lia. reflexivity. }
  rewrite <- E.
  apply (one_ulp_relative A u); auto.
  pose proof (pow2_pos ez) as Hp.
  assert (E1 : (inject_Z (Zpos mz + 1) * pow2 ez
                == inject_Z (Zpos mz) * pow2 ez + pow2 ez)%Q).
  { rewrite inject_Z_plus. change (inject_Z 1) with 1%Q. ring. }
  rewrite E1 in Hhi. lra.
Qed.

Lemma SFdiv_value (sx : bool) (mx : positive) (ex : Z)
                  (sy : bool) (my : positive) (ey : Z) :
  -1021 <= Zpos (digits2_pos mx) + ex - (Zpos (digits2_pos my) + ey) ->
  Zpos (digits2_pos mx) + ex - (Zpos (digits2_pos my) + ey) + 1 <= 1023 ->
  exists (m : positive) (e : Z),
    SFdiv prec emax (S754_finite sx mx ex) (S754_finite sy my ey) =
      S754_finite (xorb sx sy) m e /\
    ((1 - eps) * (inject_Z (Zpos mx) * pow2 ex / (inject_Z (Zpos my) * pow2 ey))
       <= inject_Z (Zpos m) * pow2 e
       <= (1 + eps) * (inject_Z (Zpos mx) * pow2 ex / (inject_Z (Zpos my) * pow2 ey)))%Q.
Proof.
  intros HD1 HD2. cbn [SFdiv].
  destruct (SFdiv_core_binary_eq mx ex my ey HD1) as [l ->].
  destruct (div_quot_bounds mx ex my ey HD1) as [Hq Hb].
  assert (He : div_exp mx ex my ey <=
               Zpos (digits2_pos mx) + ex - (Zpos (digits2_pos my) + ey) - 53 /\
               div_exp mx ex my ey <= ex - ey)
    by (unfold div_exp; lia).
  destruct (binary_round_aux_value (xorb sx sy) (div_quot mx ex my ey)
              (div_exp mx ex my ey) l)
    as (m & e & A & u & -> & Hu & HA & Hlo & Hhi & HV); try lia.
  exists m, e. split; [reflexivity|].
  set (q := div_quot mx ex my ey) in *. set (e' := div_exp mx ex my ey) in *.
  set (s := ex - ey - e').
  assert (Hs : 0 <= s) by (unfold s; lia).
  assert (Hqr : q * Zpos my <= Zpos mx * 2 ^ s /\ Zpos mx * 2 ^ s + 1 <= (q + 1) * Zpos my).
  { unfold q, div_quot. fold e'. fold s.
    pose proof (Z.div_mod (Zpos mx * 2 ^ s) (Zpos my) ltac:(lia)) as Hdm.
    pose proof (Z.mod_pos_bound (Zpos mx * 2 ^ s) (Zpos my) ltac:(lia)) as Hr.
    nia. }
  destruct Hqr as [Hq1 Hq2].
  set (vy := (inject_Z (Zpos my) * pow2 ey)%Q).
  assert (Hvy : (0 < vy)%Q).
  { unfold vy. apply Qmult_lt_0_compat; [|apply pow2_pos].
    change 0%Q with (inject_Z 0). rewrite <- Zlt_Qlt. lia. }
  assert (Ex : (inject_Z (Zpos mx) * pow2 ex == inject_Z (Zpos mx * 2 ^ s) * pow2 (e' + ey))%Q).
  { rewrite pow2_shift by lia. replace (e' + ey + s) with ex by (unfold s; lia). reflexivity. }
  assert (Eq1 : forall k : Z, (inject_Z k * pow2 e' * vy == inject_Z (k * Zpos my) * pow2 (e' + ey))%Q).
  { intros k. unfold vy. rewrite inject_Z_mult, pow2_add. ring. }
  pose proof (pow2_pos (e' + ey)) as Hp.
  apply (one_ulp_relative A u); auto.
  - apply Qle_trans with (inject_Z q * pow2 e')%Q; [exact Hlo|].
    apply Qle_shift_div_l; [exact Hvy|]. rewrite Eq1, Ex.
    apply Qmult_le_compat_r; [|now apply Qlt_le_weak]. rewrite <- Zle_Qle. lia.
  - apply Qle_trans with (inject_Z (q + 1) * pow2 e')%Q; [|exact Hhi].
    apply Qle_shift_div_r; [exact Hvy|]. rewrite Eq1, Ex.
    apply Qmult_le_compat_r; [|now apply Qlt_le_weak]. rewrite <- Zle_Qle. lia.
Qed.

Lemma SFadd_value (mx : positive) (ex : Z) (my : positive) (ey K : Z) :
  -1021 <= Zpos (digits2_pos mx) + ex ->
  Zpos (digits2_pos mx) + ex <= K -> Zpos (digits2_pos my) + ey <= K -> K + 1 <= 1023 ->
  exists (m : positive) (e : Z),
    SFadd prec emax (S754_finite false mx ex) (S754_finite false my ey) =
      S754_finite false m e /\
    Zpos (digits2_pos mx) + ex <= Zpos (digits2_pos m) + e <= K + 2 /\
    ((1 - eps) * (inject_Z (Zpos mx) * pow2 ex + inject_Z (Zpos my) * pow2 ey)
       <= inject_Z (Zpos m) * pow2 e
       <= (1 + eps) * (inject_Z (Zpos mx) * pow2 ex + inject_Z (Zpos my) * pow2 ey))%Q.
Proof.
  intros HJ Hx Hy HK. cbn [SFadd].
  destruct (shl_align_spec mx ex (Z.min ex ey)) as (mx' & -> & Hmx).
  destruct (shl_align_spec my ey (Z.min ex ey)) as (my' & -> & Hmy).
  cbn [fst cond_Zopp].
  replace (Z.min ex (Z.min ex ey)) with (Z.min ex ey) in Hmx by lia.
  replace (Z.min ey (Z.min ex ey)) with (Z.min ex ey) in Hmy by lia.
  set (ez := Z.min ex ey) in *.
  pose proof (shl_align_digits mx mx' ex ez ltac:(lia) Hmx) as Hdx.
  pose proof (shl_align_digits my my' ey ez ltac:(lia) Hmy) as Hdy.
  pose proof (digits2_pos_bounds mx') as [_ Hxh].
  pose proof (digits2_pos_bounds my') as [_ Hyh].
  change (Zpos mx' + Zpos my') with (Zpos (mx' + my')).
  cbn [binary_normalize].
  assert (Hlo : Zpos (digits2_pos mx') <= Zpos (digits2_pos (mx' + my'))).
  { change (Zdigits2 (Zpos mx') <= Zdigits2 (Zpos (mx' + my'))).
    apply Zdigits2_mono. lia. }
  assert (Hhi : Zpos (digits2_pos (mx' + my')) + ez <= K + 1).
  { assert (Zpos (mx' + my') < 2 ^ (K + 1 - ez)).
    { replace (K + 1 - ez) with (K - ez + 1) by lia.
      rewrite Z.pow_add_r by lia. change (2 ^ 1) with 2.
      assert (2 ^ Zpos (digits2_pos mx') <= 2 ^ (K - ez)) by (apply Z.pow_le_mono_r; lia).
      assert (2 ^ Zpos (digits2_pos my') <= 2 ^ (K - ez)) by (apply Z.pow_le_mono_r; lia).
      lia. }
    pose proof (Zdigits2_le (Zpos (mx' + my')) (K + 1 - ez) ltac:(lia) H) as H'.
    cbn [Zdigits2] in H'. lia. }
  destruct (binary_round_value false (mx' + my') ez) as (m & e & E & HV); try lia.
  destruct (binary_round_normal false (mx' + my') ez) as (m' & e' & E' & Hmag); try lia.
  rewrite E in E'. injection E' as <- <-.
  rewrite E. exists m, e. split; [reflexivity|]. split; [lia|].
  assert (Ev : (inject_Z (Zpos (mx' + my')) * pow2 ez
                == inject_Z (Zpos mx) * pow2 ex + inject_Z (Zpos my) * pow2 ey)%Q).
  { change (Zpos (mx' + my')) with (Zpos mx' + Zpos my').
    rewrite inject_Z_plus, Hmx, Hmy, Qmult_plus_distr_l, !pow2_shift by lia.
    replace (ez + (ex - ez)) with ex by lia. replace (ez + (ey - ez)) with ey by lia.
    reflexivity. }
  rewrite <- Ev. exact HV.
Qed.

(** ** Primitive floats: conversions, quotients and bounds *)

Lemma float_of_int_spec (n : Z) :
  0 <= n < 2 ^ 63 ->
  Prim2SF (float_of_int n) = binary_normalize prec emax n 0 false.
Proof.
  intros Hn. unfold float_of_int.
  rewrite of_uint63_spec. f_equal.
  change (Uint63Axioms.to_Z (Uint63.of_Z n)) with (Uint63.to_Z (Uint63.of_Z n)).
  rewrite Uint63.of_Z_spec. apply Z.mod_small. exact Hn.
Qed.

Lemma float_of_int_0 : Prim2SF (float_of_int 0) = S754_zero false.
Proof. reflexivity. Qed.

Lemma float_of_int_pos (n : Z) :
  1 <= n < 2 ^ 63 -> pos_mag 1 64 (float_of_int n).
Proof.
  intros Hn. unfold pos_mag. rewrite float_of_int_spec by lia.
  destruct n as [|p|p]; try lia. cbn [binary_normalize].
  assert (Hd : 1 <= Zpos (digits2_pos p) <= 63).
  { split; [lia|]. change (Zpos (digits2_pos p)) with (Zdigits2 (Zpos p)).
    apply Zdigits2_le; lia. }
  destruct (binary_round_normal false p 0) as (m & e & -> & Hm); try lia.
  exists m, e. split; [reflexivity|lia].
Qed.

Lemma pos_mag_weaken (J K J' K' : Z) (f : float) :
  J' <= J -> K <= K' -> pos_mag J K f -> pos_mag J' K' f.
Proof.
  intros HJ HK (m & e & E & H). exists m, e. split; [exact E|lia].
Qed.

Lemma pos_mag_finite_le (J K : Z) (f : float) : pos_mag J K f -> finite_le K f.
Proof. intros (m & e & E & H). unfold finite_le. rewrite E. cbn [SF_le_mag]. lia. Qed.

Lemma pos_mag_ne0 (J K : Z) (f : float) : pos_mag J K f -> (f =? 0)%float = false.
Proof. intros (m & e & E & H). rewrite eqb_spec, E. reflexivity. Qed.

Lemma div_pos_mag (Jx Kx Jy Ky : Z) (x y : float) :
  pos_mag Jx Kx x -> pos_mag Jy Ky y ->
  -1021 <= Jx - Ky -> Kx - Jy + 2 <= 1024 ->
  pos_mag (Jx - Ky) (Kx - Jy + 2) (x / y).
Proof.
  intros (mx & ex & Ex & Hx) (my & ey & Ey & Hy) H1 H2.
  unfold pos_mag. rewrite div_spec, Ex, Ey. unfold SF64div.
  destruct (SFdiv_normal false mx ex false my ey) as (m & e & -> & Hm); try lia.
  pose proof (div_quot_bounds mx ex my ey ltac:(lia)) as [_ Hq].
  exists m, e. split; [reflexivity|lia].
Qed.

Lemma div_zero_pos_mag (J K : Z) (x y : float) :
  Prim2SF x = S754_zero false -> pos_mag J K y -> (x / y)%float = 0%float.
Proof.
  intros Ex (my & ey & Ey & _). apply Prim2SF_inj.
  rewrite div_spec, Ex, Ey. reflexivity.
Qed.

Lemma finite_le_mono (K K' : Z) (f : float) :
  K <= K' -> finite_le K f -> finite_le K' f.
Proof. apply SF_le_mag_mono. Qed.

Lemma finite_le_zero (K : Z) : finite_le K 0%float.
Proof. exact I. Qed.

Lemma finite_le_add (K : Z) (x y : float) :
  finite_le (K - 2) x -> finite_le (K - 2) y -> -1072 <= K <= 1024 ->
  finite_le K (x + y).
Proof.
  unfold finite_le. intros Hx Hy HK. rewrite add_spec.
  replace K with (K - 2 + 2) by lia. apply SFadd_upper; auto; lia.
Qed.

Lemma finite_le_sub (K : Z) (x y : float) :
  finite_le (K - 2) x -> finite_le (K - 2) y -> -1072 <= K <= 1024 ->
  finite_le K (x - y).
Proof.
  unfold finite_le. intros Hx Hy HK. rewrite sub_spec.
  replace K with (K - 2 + 2) by lia. apply SFsub_upper; auto; lia.
Qed.

Lemma finite_le_mul (Kx Ky : Z) (x y : float) :
  finite_le Kx x -> finite_le Ky y -> -1074 <= Kx + Ky -> Kx + Ky + 1 <= 1024 ->
  finite_le (Kx + Ky + 1) (x * y).
Proof.
  unfold finite_le. intros Hx Hy H1 H2. rewrite mul_spec.
  apply SFmul_upper; auto using Prim2SF_valid.
Qed.

Lemma SFcompare_finite_refl (s : bool) (m : positive) (e : Z) :
  SFcompare (S754_finite s m e) (S754_finite s m e) = Some Eq.
Proof.
  cbn [SFcompare]. rewrite Z.compare_refl.
  change (Pos.compare_cont Eq m m) with (Pos.compare m m).
  rewrite Pos.compare_refl. now destruct s.
Qed.

Lemma finite_le_is_finite (K : Z) (f : float) :
  finite_le K f -> is_finite f = true.
Proof.
  unfold finite_le, is_finite, is_nan, is_infinity.
  rewrite !eqb_spec, abs_spec. intros H.
  destruct (Prim2SF f) as [s|s| |s m e] eqn:E; cbn [SF_le_mag] in H; try contradiction.
  - now destruct s.
  - unfold SFeqb at 1. rewrite SFcompare_finite_refl. reflexivity.
Qed.

(** ** The values of primitive floats *)

Lemma pos_mag_value_pos (J K : Z) (f : float) : pos_mag J K f -> (0 < float_value f)%Q.
Proof.
  intros (m & e & E & _). unfold float_value. rewrite E. cbn [SF2Q].
  apply Qmult_lt_0_compat; [reflexivity|apply pow2_pos].
Qed.

Lemma float_of_int_value (n : Z) :
  1 <= n < 2 ^ 63 ->
  ((1 - eps) * inject_Z n <= float_value (float_of_int n) <= (1 + eps) * inject_Z n)%Q.
Proof.
  intros Hn. unfold float_value. rewrite float_of_int_spec by lia.
  destruct n as [|p|p]; try lia. cbn [binary_normalize].
  assert (Hd : 1 <= Zpos (digits2_pos p) <= 63).
  { split; [lia|]. change (Zpos (digits2_pos p)) with (Zdigits2 (Zpos p)).
    apply Zdigits2_le; lia. }
  destruct (binary_round_value false p 0) as (m & e & -> & Hv); try lia.
  cbn [SF2Q].
  assert (E : (inject_Z (Zpos p) * pow2 0 == inject_Z (Zpos p))%Q).
  { change (pow2 0) with 1%Q. ring. }
  rewrite E in Hv. exact Hv.
Qed.

Lemma div_value (Jx Kx Jy Ky : Z) (x y : float) :
  pos_mag Jx Kx x -> pos_mag Jy Ky y ->
  -1021 <= Jx - Ky -> Kx - Jy + 1 <= 1023 ->
  ((1 - eps) * (float_value x / float_value y) <= float_value (x / y)
     <= (1 + eps) * (float_value x / float_value y))%Q.
Proof.
  intros (mx & ex & Ex & Hx) (my & ey & Ey & Hy) H1 H2.
  unfold float_value. rewrite div_spec, Ex, Ey. unfold SF64div.
  destruct (SFdiv_value false mx ex false my ey) as (m & e & -> & Hv); try lia.
  exact Hv.
Qed.

Lemma add_value (J J' K : Z) (x y : float) :
  pos_mag J K x -> pos_mag J' K y -> -1021 <= J -> K + 1 <= 1023 ->
  pos_mag J (K + 2) (x + y) /\
  ((1 - eps) * (float_value x + float_value y) <= float_value (x + y)
     <= (1 + eps) * (float_value x + float_value y))%Q.
Proof.
  intros (mx & ex & Ex & Hx) (my & ey & Ey & Hy) H1 H2.
  unfold float_value, pos_mag. rewrite add_spec, Ex, Ey. unfold SF64add.
  destruct (SFadd_value mx ex my ey K) as (m & e & -> & Hmag & Hv); try lia.
  split; [|exact Hv]. exists m, e. split; [reflexivity|lia].
Qed.

Lemma add_zero_r (x y : float) (J K : Z) :
  pos_mag J K x -> Prim2SF y = S754_zero false -> (x + y)%float = x.
Proof.
  intros (m & e & E & _) Ey. apply Prim2SF_inj. rewrite add_spec, E, Ey. reflexivity.
Qed.

Lemma add_zero_l (x y : float) (J K : Z) :
  Prim2SF x = S754_zero false -> pos_mag J K y -> (x + y)%float = y.
Proof.
  intros Ex (m & e & E & _). apply Prim2SF_inj. rewrite add_spec, E, Ex. reflexivity.
Qed.

Lemma approx_add (J K : Z) (a b vx vy : Q) (x y : float) :
  (0 <= a)%Q -> (0 <= b)%Q -> -1021 <= J -> K + 1 <= 1023 ->
  approx J K a b vx x -> approx J K a b vy y ->
  approx J (K + 2) ((1 - eps) * a) ((1 + eps) * b) (vx + vy) (x + y).
Proof.
  intros Ha Hb HJ HK [[Ex Hvx]|(Px & Hvx & Hx1 & Hx2)] [[Ey Hvy]|(Py & Hvy & Hy1 & Hy2)].
  - left. split; [rewrite add_spec, Ex, Ey; reflexivity|]. rewrite Hvx, Hvy. reflexivity.
  - right. rewrite (add_zero_l x y J K Ex Py).
    split; [apply pos_mag_weaken with J K; [lia|lia|exact Py]|].
    pose proof (Qmult_le_0_compat _ _ Ha (Qlt_le_weak _ _ Hvy)) as Hav.
    pose proof (Qmult_le_0_compat _ _ Hb (Qlt_le_weak _ _ Hvy)) as Hbv.
    rewrite Hvx, Qplus_0_l.
    unfold eps. split; [lra|]. split; lra.
  - right. rewrite (add_zero_r x y J K Px Ey).
    split; [apply pos_mag_weaken with J K; [lia|lia|exact Px]|].
    pose proof (Qmult_le_0_compat _ _ Ha (Qlt_le_weak _ _ Hvx)) as Hav.
    pose proof (Qmult_le_0_compat _ _ Hb (Qlt_le_weak _ _ Hvx)) as Hbv.
    rewrite Hvy, Qplus_0_r.
    unfold eps. split; [lra|]. split; lra.
  - right. destruct (add_value J J K x y Px Py HJ HK) as [P [H1 H2]].
    split; [exact P|]. split; [lra|].
    unfold eps in *. split; lra.
Qed.

(** A float whose value is between 64 and 128 has exponent -46. *)
Lemma exponent_of_64_128 (f : float) (m : positive) (e : Z) :
  Prim2SF f = S754_finite false m e ->
  (64 <= float_value f < 128)%Q -> e = -46.
Proof.
  intros E [H1 H2]. unfold float_value in *. rewrite E in *. cbn [SF2Q] in *.
  pose proof (Prim2SF_valid f) as V. rewrite E in V.
  apply valid_binary_canonical in V. destruct V as [V _].
  pose proof (value_digits m e) as [Hlo Hhi].
  set (d := Zpos (digits2_pos m)) in *.
  assert (d + e = 7); [|lia].
  destruct (Z_lt_le_dec (d + e) 7) as [L|L].
  - pose proof (pow2_le (d + e) 6 ltac:(lia)) as H.
    change (pow2 6) with 64%Q in H. lra.
  - destruct (Z_lt_le_dec 7 (d + e)) as [G|G]; [|lia].
    pose proof (pow2_le 7 (d + e - 1) ltac:(lia)) as H.
    change (pow2 7) with 128%Q in H. lra.
Qed.

(** * The counts and the statistics *)

(** ** Invariants of the scan *)

Lemma counts_ok_init : counts_ok 0 scan_init.
Proof. unfold counts_ok, class_counts_ok; simpl. repeat split; try lia; discriminate. Qed.

Lemma counts_ok_loop_body (len : Z) (st : scan_state) (x : Z) :
  counts_ok len st -> counts_ok (len + 1) (loop_body st x).
Proof.
  rewrite loop_body_classify.
  destruct st as [a h c k ar hr cr kr n_tt n_tk cur].
  unfold counts_ok, class_counts_ok. cbn [v_a v_h v_c v_k v_ar v_hr v_cr v_kr v_tt v_tk current_run].
  intros H.
  destruct (classify x), cur; simpl in *;
    repeat split; try lia; try discriminate; intros; lia.
Qed.

Lemma counts_ok_scan_from (txt : list Z) : forall (len : Z) (st : scan_state),
  counts_ok len st -> counts_ok (len + Z.of_nat (length txt)) (scan_from st txt).
Proof.
  induction txt as [|x txt IH]; intros len st H.
  - simpl. now rewrite Z.add_0_r.
  - rewrite scan_from_cons.
    replace (len + Z.of_nat (length (x :: txt))) with (len + 1 + Z.of_nat (length txt))
      by (cbn [length]; lia).
    apply IH. now apply counts_ok_loop_body.
Qed.

Lemma counts_ok_scan (txt : list Z) : counts_ok (Z.of_nat (length txt)) (scan txt).
Proof. apply (counts_ok_scan_from txt 0 scan_init counts_ok_init). Qed.

(** ** The statistics in closed form *)

Lemma finalize_stats_of (st : scan_state) :
  finalize class_attributes st = Some (stats_of st).
Proof.
  rewrite finalize_eq. f_equal.
  unfold stats_of, percentage, mean_length, tr_of, total_runs, percentages, mean_run.
  destruct st as [a h c k ar hr cr kr n_tt n_tk cur].
  cbn [v_a v_h v_c v_k v_ar v_hr v_cr v_kr v_tt v_tk].
  destruct (float_of_int (ar + hr + cr + kr) / 100 =? 0)%float;
    destruct (ar =? 0), (hr =? 0), (cr =? 0), (kr =? 0); reflexivity.
Qed.

Lemma Tateisi_stats_of (txt : list Z) : Tateisi txt = Some (stats_of (scan txt)).
Proof. apply finalize_stats_of. Qed.

(** ** Comparison with one *)

Lemma Prim2SF_one : Prim2SF 1 = S754_finite false 4503599627370496 (-52).
Proof. vm_compute. reflexivity. Qed.

Lemma SFleb_one (m : positive) (e : Z) :
  valid_binary (S754_finite false m e) = true ->
  1 <= Zpos (digits2_pos m) + e ->
  SFleb (Prim2SF 1) (S754_finite false m e) = true.
Proof.
  intros V Hmag. apply valid_binary_canonical in V.
  rewrite Prim2SF_one.
  unfold SFleb. cbn [SFcompare].
  destruct (Z.compare_spec (-52) e) as [He|He|He]; try reflexivity; [|lia].
  change (Pos.compare_cont Eq 4503599627370496 m) with (Pos.compare 4503599627370496 m).
  pose proof (digits2_pos_bounds m) as [Hlo _].
  assert (Hd : Zpos (digits2_pos m) = 53) by lia.
  rewrite Hd in Hlo. change (2 ^ (53 - 1)) with 4503599627370496 in Hlo.
  change (4503599627370496 ?= m)%positive with (4503599627370496 ?= Zpos m).
  destruct (Z.compare_spec 4503599627370496 (Zpos m)) as [Hc|Hc|Hc];
    try reflexivity.
  clear - Hlo Hc. lia.
Qed.

(** ** The quotient of two counts *)

Lemma int_truediv_0 (b : Z) : 0 < b -> int_truediv 0 b = 0%float.
Proof. intros H. destruct b; try lia. reflexivity. Qed.

Lemma Prim2SF_int_truediv (a b : Z) :
  0 < a -> 0 < b -> -1021 <= Zdigits2 a - Zdigits2 b ->
  Prim2SF (int_truediv a b) = SFdiv prec emax (int_mantissa a) (int_mantissa b) /\
  SF_mag_or_inf false (Zdigits2 a - Zdigits2 b) (Zdigits2 a - Zdigits2 b + 2)
    (Prim2SF (int_truediv a b)).
Proof.
  intros Ha Hb HD. destruct a as [|p|p], b as [|q|q]; try lia.
  cbn [Zdigits2] in HD. unfold int_truediv. cbn [int_mantissa].
  pose proof (SFdiv_pos false p 0 false q 0 ltac:(lia)) as H.
  pose proof (div_quot_bounds p 0 q 0 ltac:(lia)) as [_ Hq].
  cbn [xorb] in H.
  assert (V : valid_binary (SFdiv prec emax (S754_finite false p 0) (S754_finite false q 0)) = true).
  { destruct H as [->|(m & e & -> & V & _)]; [reflexivity|exact V]. }
  rewrite (Prim2SF_SF2Prim _ V). split; [reflexivity|].
  cbn [Zdigits2].
  destruct H as [E|(m & e & E & V' & Hm)]; [left; exact E|].
  right. exists m, e. rewrite E in *. split; [reflexivity|]. split; [exact V'|lia].
Qed.

Lemma int_truediv_pos_mag (a b : Z) :
  0 < a < 2 ^ 63 -> 0 < b < 2 ^ 63 -> pos_mag (-62) 65 (int_truediv a b).
Proof.
  intros Ha Hb.
  assert (Da : 1 <= Zdigits2 a <= 63).
  { split; [pose proof (Zdigits2_pos a); lia|apply Zdigits2_le; lia]. }
  assert (Db : 1 <= Zdigits2 b <= 63).
  { split; [pose proof (Zdigits2_pos b); lia|apply Zdigits2_le; lia]. }
  destruct (Prim2SF_int_truediv a b) as [E [Hi|(m & e & E' & V & Hm)]]; try lia.
  - exfalso. rewrite E in Hi. destruct a as [|p|p], b as [|q|q]; try lia.
    cbn [int_mantissa Zdigits2] in *.
    destruct (SFdiv_normal false p 0 false q 0) as (m & e & E' & _); try lia.
    rewrite E' in Hi. discriminate.
  - exists m, e. split; [exact E'|lia].
Qed.

Lemma int_truediv_ge_1 (a b : Z) :
  1 <= b <= a -> (1 <=? int_truediv a b)%float = true.
Proof.
  intros H.
  assert (Hd : Zdigits2 b <= Zdigits2 a) by (apply Zdigits2_mono; lia).
  destruct (Prim2SF_int_truediv a b) as [E Hm]; try lia.
  rewrite leb_spec, Prim2SF_one.
  destruct a as [|p|p], b as [|q|q]; try lia.
  cbn [int_mantissa Zdigits2] in *.
  (* the integer quotient has a bit at or above the unit *)
  pose proof (SFdiv_pos false p 0 false q 0 ltac:(lia)) as H1.
  rewrite <- E in H1. cbn [xorb] in H1.
  assert (He : div_exp p 0 q 0 <= 0) by (unfold div_exp; lia).
  assert (Hq : 2 ^ (- div_exp p 0 q 0) <= div_quot p 0 q 0).
  { unfold div_quot.
    replace (0 - 0 - div_exp p 0 q 0) with (- div_exp p 0 q 0) by lia.
    apply Z.div_le_lower_bound; [lia|].
    assert (0 < 2 ^ (- div_exp p 0 q 0)) by (apply Z.pow_pos_nonneg; lia).
    apply Z.mul_le_mono_nonneg_r; lia. }
  assert (He0 : 0 <= - div_exp p 0 q 0) by lia.
  pose proof (Zdigits2_ge _ _ He0 Hq) as Hdq.
  destruct H1 as [->|(m & e & -> & V & Hmag)]; [reflexivity|].
  fold (Prim2SF 1). rewrite <- Prim2SF_one. apply SFleb_one; [exact V|lia].
Qed.

(** ** Bounds on the statistics *)

Lemma pos_mag_100 : pos_mag 7 7 100.0.
Proof. exists 7036874417766400%positive, (-46). split; vm_compute; [reflexivity|split; discriminate]. Qed.

Lemma pos_mag_1 : pos_mag 1 1 1.0.
Proof. exists 4503599627370496%positive, (-52). split; vm_compute; [reflexivity|split; discriminate]. Qed.

Lemma tr_of_pos_mag (st : scan_state) :
  1 <= total_runs st < 2 ^ 63 -> pos_mag (-6) 59 (tr_of st).
Proof.
  intros H. unfold tr_of.
  apply (div_pos_mag 1 64 7 7); [now apply float_of_int_pos|exact pos_mag_100|lia|lia].
Qed.

Lemma tr_of_zero (st : scan_state) : total_runs st = 0 -> (tr_of st =? 0)%float = true.
Proof. intros H. unfold tr_of. rewrite H. vm_compute. reflexivity. Qed.

Lemma count_quotient (n J K : Z) (d : float) :
  0 <= n < 2 ^ 63 -> pos_mag J K d -> -6 <= J -> K <= 64 ->
  (n = 0 /\ (float_of_int n / d)%float = 0%float) \/
  (1 <= n /\ pos_mag (1 - K) (66 - J) (float_of_int n / d)).
Proof.
  intros Hn Hd HJ HK. destruct (Z.eq_dec n 0) as [->|Hne].
  - left. split; [reflexivity|]. now apply (div_zero_pos_mag J K).
  - right. split; [lia|].
    replace (66 - J) with (64 - J + 2) by lia.
    apply (div_pos_mag 1 64 J K); [apply float_of_int_pos; lia|exact Hd|lia|lia].
Qed.

Lemma count_quotient_finite (n J K : Z) (d : float) :
  0 <= n < 2 ^ 63 -> pos_mag J K d -> -6 <= J -> K <= 64 ->
  finite_le 72 (float_of_int n / d).
Proof.
  intros Hn Hd HJ HK.
  destruct (count_quotient n J K d Hn Hd HJ HK) as [[_ ->]|[_ H]].
  - apply finite_le_zero.
  - apply pos_mag_finite_le in H. apply finite_le_mono with (66 - J); [lia|exact H].
Qed.

Lemma percentage_finite (st : scan_state) (r : Z) :
  0 <= total_runs st < 2 ^ 63 -> 0 <= r < 2 ^ 63 ->
  finite_le 72 (to_float (percentage st r)).
Proof.
  intros HT Hr. unfold percentage.
  destruct (tr_of st =? 0)%float eqn:E; cbn [to_float]; [apply finite_le_zero|].
  assert (HT1 : 1 <= total_runs st).
  { destruct (Z.eq_dec (total_runs st) 0) as [H0|H0]; [|lia].
    rewrite tr_of_zero in E by exact H0. discriminate. }
  apply (count_quotient_finite r (-6) 59); [exact Hr| |lia|lia].
  apply tr_of_pos_mag. lia.
Qed.

Lemma int_truediv_finite (n r : Z) :
  0 <= n < 2 ^ 63 -> 0 < r < 2 ^ 63 -> finite_le 72 (int_truediv n r).
Proof.
  intros Hn Hr. destruct (Z.eq_dec n 0) as [->|Hne].
  - rewrite int_truediv_0 by lia. apply finite_le_zero.
  - apply (finite_le_mono 65); [lia|].
    apply (pos_mag_finite_le (-62)). apply int_truediv_pos_mag; lia.
Qed.

Lemma mean_length_finite (n r : Z) :
  0 <= n < 2 ^ 63 -> 0 <= r < 2 ^ 63 ->
  finite_le 72 (to_float (mean_length n r)).
Proof.
  intros Hn Hr. unfold mean_length.
  destruct (Z.eqb_spec r 0) as [->|Hne]; cbn [to_float]; [apply finite_le_zero|].
  apply int_truediv_finite; lia.
Qed.

Lemma div_by_kuten_finite (n n_tk : Z) :
  0 <= n < 2 ^ 63 -> 0 <= n_tk < 2 ^ 63 -> finite_le 72 (div_by_kuten n n_tk).
Proof.
  intros Hn Hk. unfold div_by_kuten.
  destruct (Z.eqb_spec n_tk 0) as [->|Hne].
  - apply (count_quotient_finite n 1 1); [exact Hn|exact pos_mag_1|lia|lia].
  - apply int_truediv_finite; lia.
Qed.

Lemma div_by_kuten_0 (n_tk : Z) : 0 <= n_tk -> div_by_kuten 0 n_tk = 0%float.
Proof.
  intros Hk. unfold div_by_kuten. destruct (Z.eqb_spec n_tk 0) as [->|Hne].
  - vm_compute. reflexivity.
  - apply int_truediv_0. lia.
Qed.

Lemma stats_of_bounded (len : Z) (st : scan_state) :
  counts_ok len st -> len < 2 ^ 63 -> stats_bounded 72 (stats_of st).
Proof.
  intros H Hlen.
  destruct st as [a h c k ar hr cr kr n_tt n_tk cur].
  unfold counts_ok, class_counts_ok in H.
  cbn [v_a v_h v_c v_k v_ar v_hr v_cr v_kr v_tt v_tk current_run] in H.
  assert (HT : 0 <= total_runs (mk_scan a h c k ar hr cr kr n_tt n_tk cur) < 2 ^ 63)
    by (unfold total_runs; cbn; lia).
  unfold stats_bounded, stats_of. cbn [pa ph pc pk la lh lc lk ls cp].
  cbn [v_a v_h v_c v_k v_ar v_hr v_cr v_kr v_tt v_tk].
  repeat split;
    first [ apply percentage_finite; [exact HT|lia]
          | apply mean_length_finite; lia
          | cbn [to_float]; apply div_by_kuten_finite; lia ].
Qed.

(** ** Finite scores *)

Ltac const_bound := unfold finite_le; vm_compute; first [exact I | discriminate].

Ltac term_bound Hs :=
  first
    [ unfold py_mul;
      apply (finite_le_mono 78); [lia|];
      apply (finite_le_mul 5 72); [const_bound|Hs|lia|lia]
    | apply (finite_le_mono 7); [lia|const_bound] ].

Ltac sum_bound Hs :=
  repeat first [ apply finite_le_add; [| |lia] | apply finite_le_sub; [| |lia] ];
  term_bound Hs.

Lemma scores_bounded (s : Statistics) :
  stats_bounded 72 s ->
  finite_le 98 (calculate_rs_tateisi_a s) /\ finite_le 98 (calculate_rs_tateisi_b s).
Proof.
  intros (Hpa & Hph & Hpc & Hpk & Hla & Hlh & Hlc & Hlk & Hls & Hcp).
  split.
  - unfold calculate_rs_tateisi_a.
    sum_bound ltac:(first [exact Hpa|exact Hph|exact Hpc|exact Hpk|exact Hla
                          |exact Hlh|exact Hlc|exact Hlk|exact Hls|exact Hcp]).
  - unfold calculate_rs_tateisi_b. apply (finite_le_mono 90); [lia|].
    sum_bound ltac:(first [exact Hpa|exact Hph|exact Hpc|exact Hpk|exact Hla
                          |exact Hlh|exact Hlc|exact Hlk|exact Hls|exact Hcp]).
Qed.

(** C8. On every text (of a length a [str] can have) both scores are finite
    binary64 numbers: neither NaN nor an infinity. *)
Theorem scores_finite (txt : list Z) :
  Z.of_nat (length txt) < 2 ^ 63 ->
  exists s : Statistics,
    Tateisi txt = Some s /\
    is_finite (calculate_rs_tateisi_a s) = true /\
    is_finite (calculate_rs_tateisi_b s) = true.
Proof.
  intros Hlen. exists (stats_of (scan txt)). split; [apply Tateisi_stats_of|].
  pose proof (stats_of_bounded _ _ (counts_ok_scan txt) Hlen) as Hb.
  destruct (scores_bounded _ Hb) as [Ha Hb'].
  split; eapply finite_le_is_finite; eassumption.
Qed.

Lemma scores_finite_witness :
  Z.of_nat (length [0x50E5; 0x306F; 0x9C3B; 0x3060; 0xFF01]) < 2 ^ 63 /\
  exists s : Statistics,
    Tateisi [0x50E5; 0x306F; 0x9C3B; 0x3060; 0xFF01] = Some s /\
    is_finite (calculate_rs_tateisi_a s) = true /\
    is_finite (calculate_rs_tateisi_b s) = true.
Proof.
  split; [reflexivity|].
  apply (scores_finite [0x50E5; 0x306F; 0x9C3B; 0x3060; 0xFF01]). reflexivity.
Defined.

(** ** Mean run lengths *)

Lemma mean_length_ok (n r : Z) (open : bool) :
  class_counts_ok n r open -> mean_run_ok n r (mean_length n r).
Proof.
  intros (Hr & H0 & _). unfold mean_run_ok, mean_length. split.
  - intros Hpos. split; [lia|].
    destruct (Z.eqb_spec r 0) as [->|_]; [lia|].
    eexists. split; [reflexivity|]. apply int_truediv_ge_1; lia.
  - intros ->. reflexivity.
Qed.

(** C6. For each letter class the mean run length is at least 1 when the
    class has a run (and then it has at least as many letters as runs), and
    it is the integer 0 when the class has no run. *)
Theorem mean_run_length_bounds (txt : list Z) :
  exists s : Statistics,
    Tateisi txt = Some s /\
    mean_run_ok (v_a (scan txt)) (v_ar (scan txt)) (la s) /\
    mean_run_ok (v_h (scan txt)) (v_hr (scan txt)) (lh s) /\
    mean_run_ok (v_c (scan txt)) (v_cr (scan txt)) (lc s) /\
    mean_run_ok (v_k (scan txt)) (v_kr (scan txt)) (lk s).
Proof.
  exists (stats_of (scan txt)). split; [apply Tateisi_stats_of|].
  pose proof (counts_ok_scan txt) as H.
  unfold counts_ok in H. destruct H as (Ha & Hh & Hc & Hk & _).
  unfold stats_of. cbn [la lh lc lk].
  split; [|split; [|split]]; eapply mean_length_ok; eassumption.
Qed.

(** ** The run percentages *)

(** The sum is not always exactly 100.0: six runs. *)
Lemma percent_sum_not_exactly_100 :
  exists s : Statistics,
    Tateisi six_runs = Some s /\
    0 < total_runs (scan six_runs) /\
    (percent_sum s =? 100.0)%float = false /\
    percent_sum s = 100.00000000000001%float.
Proof.
  eexists. split; [apply Tateisi_stats_of|].
  split; [reflexivity|]. split; vm_compute; reflexivity.
Qed.

Lemma exact_percentages_sum (ar hr cr kr : Z) :
  0 < ar + hr + cr + kr ->
  (exact_percentage (ar + hr + cr + kr) ar + exact_percentage (ar + hr + cr + kr) hr
   + exact_percentage (ar + hr + cr + kr) cr + exact_percentage (ar + hr + cr + kr) kr
   == 100)%Q.
Proof.
  intros H. unfold exact_percentage.
  set (T := ar + hr + cr + kr) in *.
  assert (HT : ~ (inject_Z T == 0)%Q).
  { unfold Qeq. simpl. lia. }
  assert (E : (inject_Z ar + inject_Z hr + inject_Z cr + inject_Z kr == inject_Z T)%Q).
  { subst T. rewrite !inject_Z_plus. reflexivity. }
  transitivity ((inject_Z ar + inject_Z hr + inject_Z cr + inject_Z kr) * 100 / inject_Z T)%Q.
  - field. exact HT.
  - rewrite E. field. exact HT.
Qed.

Lemma float_value_100 : (float_value 100 == 100)%Q.
Proof. vm_compute. reflexivity. Qed.

Lemma approx_weaken (J K K' : Z) (a b a' b' v : Q) (f : float) :
  K <= K' -> (a' <= a)%Q -> (b <= b')%Q ->
  approx J K a b v f -> approx J K' a' b' v f.
Proof.
  intros HK Ha Hb [H|(P & Hv & H1 & H2)]; [left; exact H|right].
  split; [apply pos_mag_weaken with J K; [lia|lia|exact P]|]. split; [exact Hv|].
  pose proof (Qmult_le_compat_r _ _ v Ha (Qlt_le_weak _ _ Hv)).
  pose proof (Qmult_le_compat_r _ _ v Hb (Qlt_le_weak _ _ Hv)).
  split; lra.
Qed.

Lemma approx_value (J K : Z) (a b v : Q) (f : float) :
  (0 < v)%Q -> approx J K a b v f ->
  pos_mag J K f /\ (a * v <= float_value f <= b * v)%Q.
Proof.
  intros Hv [[_ H]|(P & _ & H)]; [rewrite H in Hv; discriminate|].
  split; [exact P|exact H].
Qed.

Lemma approx_eq (J K : Z) (a b v v' : Q) (f : float) :
  (v == v')%Q -> approx J K a b v f -> approx J K a b v' f.
Proof.
  intros E [[H1 H2]|(P & Hv & H)]; [left|right].
  - split; [exact H1|]. now rewrite <- E.
  - rewrite <- E. auto.
Qed.

Lemma percentage_approx (st : scan_state) (r : Z) :
  1 <= total_runs st < 2 ^ 63 -> 0 <= r < 2 ^ 63 ->
  approx (-58) 72 (1 - 5 * eps) (1 + 5 * eps)
    (exact_percentage (total_runs st) r) (to_float (percentage st r)).
Proof.
  intros HT Hr. unfold percentage.
  pose proof (tr_of_pos_mag st HT) as Ptr.
  rewrite (pos_mag_ne0 _ _ _ Ptr). cbn [to_float].
  destruct (count_quotient r (-6) 59 (tr_of st) Hr Ptr ltac:(lia) ltac:(lia))
    as [[-> E]|[Hr1 P]].
  - left. rewrite E. split; [reflexivity|]. unfold exact_percentage, Qdiv.
    change (inject_Z 0) with 0%Q. ring.
  - right. split; [exact P|].
    pose proof (float_of_int_value (total_runs st) HT) as HG.
    pose proof (float_of_int_value r ltac:(lia)) as HF.
    pose proof (float_of_int_pos (total_runs st) HT) as PG.
    pose proof (float_of_int_pos r ltac:(lia)) as PF.
    pose proof (div_value 1 64 7 7 _ _ PG pos_mag_100 ltac:(lia) ltac:(lia)) as HW.
    fold (tr_of st) in HW. rewrite float_value_100 in HW.
    pose proof (div_value 1 64 (-6) 59 _ _ PF Ptr ltac:(lia) ltac:(lia)) as HP.
    pose proof (pos_mag_value_pos _ _ _ Ptr) as HW0.
    unfold exact_percentage.
    set (R := inject_Z r) in *. set (T := inject_Z (total_runs st)) in *.
    set (F := float_value (float_of_int r)) in *.
    set (G := float_value (float_of_int (total_runs st))) in *.
    set (W := float_value (tr_of st)) in *.
    set (P' := float_value (float_of_int r / tr_of st)) in *.
    assert (HR : (1 <= R)%Q) by (unfold R; change 1%Q with (inject_Z 1); rewrite <- Zle_Qle; lia).
    assert (HT1 : (1 <= T)%Q) by (unfold T; change 1%Q with (inject_Z 1); rewrite <- Zle_Qle; lia).
    assert (HT100 : (0 < T / 100)%Q) by (apply Qlt_shift_div_l; [reflexivity|lra]).
    set (X := (R / (T / 100))%Q) in *.
    assert (HX : (0 < X)%Q) by (unfold X; apply Qlt_shift_div_l; [exact HT100|lra]).
    assert (HXT : (X * T == 100 * R)%Q) by (unfold X; field; lra).
    assert (EG : (G / 100 == G * (1 # 100))%Q) by (field; discriminate).
    rewrite EG in HW.
    assert (HW1 : ((1 - eps) * (1 - eps) * (1 # 100) * T <= W)%Q)
      by (unfold eps in *; lra).
    assert (HW2 : (W <= (1 + eps) * (1 + eps) * (1 # 100) * T)%Q)
      by (unfold eps in *; lra).
    pose proof (proj2 (Qmult_le_l _ _ X HX) HW1) as HXW1.
    pose proof (proj2 (Qmult_le_l _ _ X HX) HW2) as HXW2.
    split; [exact HX|]. split.
    + apply Qle_trans with ((1 - eps) * (F / W))%Q; [|apply HP].
      assert (E : ((1 - eps) * (F / W) == (1 - eps) * F / W)%Q) by (field; lra).
      rewrite E. apply Qle_shift_div_l; [exact HW0|].
      unfold eps in *. lra.
    + apply Qle_trans with ((1 + eps) * (F / W))%Q; [apply HP|].
      assert (E : ((1 + eps) * (F / W) == (1 + eps) * F / W)%Q) by (field; lra).
      rewrite E. apply Qle_shift_div_r; [exact HW0|].
      unfold eps in *. lra.
Qed.

Lemma percent_sum_approx (st : scan_state) :
  1 <= total_runs st < 2 ^ 63 ->
  0 <= v_ar st -> 0 <= v_hr st -> 0 <= v_cr st -> 0 <= v_kr st ->
  pos_mag (-58) 78 (percent_sum (stats_of st)) /\
  ((1 - eps) * (1 - eps) * (1 - eps) * (1 - 5 * eps) * 100
     <= float_value (percent_sum (stats_of st))
     <= (1 + eps) * (1 + eps) * (1 + eps) * (1 + 5 * eps) * 100)%Q.
Proof.
  intros HT Ha Hh Hc Hk.
  assert (Hr : forall r, 0 <= r <= total_runs st -> 0 <= r < 2 ^ 63) by (intros; lia).
  unfold total_runs in Hr.
  pose proof (percentage_approx st (v_ar st) HT ltac:(apply Hr; lia)) as A.
  pose proof (percentage_approx st (v_hr st) HT ltac:(apply Hr; lia)) as B.
  pose proof (percentage_approx st (v_cr st) HT ltac:(apply Hr; lia)) as C.
  pose proof (percentage_approx st (v_kr st) HT ltac:(apply Hr; lia)) as D.
  unfold percent_sum, stats_of. cbn [pa ph pc pk].
  assert (AB := approx_add (-58) 72 (1 - 5 * eps) (1 + 5 * eps) _ _ _ _
                  ltac:(unfold eps; lra) ltac:(unfold eps; lra) ltac:(lia) ltac:(lia) A B).
  apply (approx_weaken _ _ (72 + 2) _ _ ((1 - eps) * (1 - 5 * eps))%Q
           ((1 + eps) * (1 + 5 * eps))%Q) in C;
    [|lia|unfold eps; lra|unfold eps; lra].
  assert (ABC := approx_add (-58) (72 + 2) ((1 - eps) * (1 - 5 * eps))
                   ((1 + eps) * (1 + 5 * eps)) _ _ _ _
                   ltac:(unfold eps; lra) ltac:(unfold eps; lra) ltac:(lia) ltac:(lia) AB C).
  apply (approx_weaken _ _ (72 + 2 + 2) _ _ ((1 - eps) * ((1 - eps) * (1 - 5 * eps)))%Q
           ((1 + eps) * ((1 + eps) * (1 + 5 * eps)))%Q) in D;
    [|lia|unfold eps; lra|unfold eps; lra].
  assert (S := approx_add (-58) (72 + 2 + 2) ((1 - eps) * ((1 - eps) * (1 - 5 * eps)))
                 ((1 + eps) * ((1 + eps) * (1 + 5 * eps))) _ _ _ _
                 ltac:(unfold eps; lra) ltac:(unfold eps; lra) ltac:(lia) ltac:(lia) ABC D).
  apply (approx_eq _ _ _ _ _ 100%Q) in S.
  - apply approx_value in S; [|reflexivity].
    destruct S as [P [H1 H2]]. split; [exact P|]. split; lra.
  - unfold total_runs. apply exact_percentages_sum. unfold total_runs in HT. lia.
Qed.

Lemma percent_sum_close (st : scan_state) :
  1 <= total_runs st < 2 ^ 63 ->
  0 <= v_ar st -> 0 <= v_hr st -> 0 <= v_cr st -> 0 <= v_kr st ->
  (Qabs (float_value (percent_sum (stats_of st)) - 100) <= 2 # 10000000000000)%Q.
Proof.
  intros HT Ha Hh Hc Hk.
  destruct (percent_sum_approx st HT Ha Hh Hc Hk) as [_ [H1 H2]].
  apply Qabs_Qle_condition. unfold eps in *. split; lra.
Qed.

Lemma percent_sum_ulp (st : scan_state) :
  1 <= total_runs st < 2 ^ 63 ->
  0 <= v_ar st -> 0 <= v_hr st -> 0 <= v_cr st -> 0 <= v_kr st ->
  exists m : positive,
    Prim2SF (percent_sum (stats_of st)) = S754_finite false m (-46) /\
    7036874417766400 - 12 <= Zpos m <= 7036874417766400 + 12.
Proof.
  intros HT Ha Hh Hc Hk.
  destruct (percent_sum_approx st HT Ha Hh Hc Hk) as [(m & e & E & _) [H1 H2]].
  assert (He : e = -46).
  { apply (exponent_of_64_128 _ m e E). unfold eps in *. split; lra. }
  subst e. exists m. split; [exact E|].
  unfold float_value in *. rewrite E in *. cbn [SF2Q] in *.
  change (pow2 (-46)) with (1 # 70368744177664)%Q in *.
  split.
  - destruct (Z_lt_le_dec (Zpos m) (7036874417766400 - 12)) as [L|G]; [|exact G].
    assert (H : (inject_Z (Zpos m) <= inject_Z (7036874417766400 - 13))%Q)
      by (rewrite <- Zle_Qle; lia).
    change (inject_Z (7036874417766400 - 13)) with 7036874417766387%Q in H.
    unfold eps in *. lra.
  - destruct (Z_lt_le_dec (7036874417766400 + 12) (Zpos m)) as [L|G]; [|exact G].
    assert (H : (inject_Z (7036874417766400 + 13) <= inject_Z (Zpos m))%Q)
      by (rewrite <- Zle_Qle; lia).
    change (inject_Z (7036874417766400 + 13)) with 7036874417766413%Q in H.
    unfold eps in *. lra.
Qed.

(** C4, as the code has it. With no run the four percentages keep the class
    value 0 and their sum is 0.  With a run, the guard [tr != 0] passes and
    each percentage is the binary64 quotient of its run count by
    [tr = total / 100.0].  The exact quotients sum to 100; the sum of the
    rounded ones is within [2 / 10 ^ 13] of 100, at most 12 units in the last
    place away from [100.0]. *)
Theorem run_percentages (txt : list Z) :
  Z.of_nat (length txt) < 2 ^ 63 ->
  exists s : Statistics,
    Tateisi txt = Some s /\
    (total_runs (scan txt) = 0 ->
       pa s = PyInt 0 /\ ph s = PyInt 0 /\ pc s = PyInt 0 /\ pk s = PyInt 0 /\
       percent_sum s = 0%float) /\
    (0 < total_runs (scan txt) ->
       (tr_of (scan txt) =? 0)%float = false /\
       pa s = PyFloat (float_of_int (v_ar (scan txt)) / tr_of (scan txt)) /\
       ph s = PyFloat (float_of_int (v_hr (scan txt)) / tr_of (scan txt)) /\
       pc s = PyFloat (float_of_int (v_cr (scan txt)) / tr_of (scan txt)) /\
       pk s = PyFloat (float_of_int (v_kr (scan txt)) / tr_of (scan txt)) /\
       (exact_percentage (total_runs (scan txt)) (v_ar (scan txt))
        + exact_percentage (total_runs (scan txt)) (v_hr (scan txt))
        + exact_percentage (total_runs (scan txt)) (v_cr (scan txt))
        + exact_percentage (total_runs (scan txt)) (v_kr (scan txt)) == 100)%Q /\
       (Qabs (float_value (percent_sum s) - 100) <= 2 # 10000000000000)%Q /\
       exists m : positive,
         Prim2SF (percent_sum s) = S754_finite false m (-46) /\
         Prim2SF 100 = S754_finite false 7036874417766400 (-46) /\
         7036874417766400 - 12 <= Zpos m <= 7036874417766400 + 12).
Proof.
  intros Hlen. exists (stats_of (scan txt)). split; [apply Tateisi_stats_of|].
  pose proof (counts_ok_scan txt) as H.
  unfold counts_ok, class_counts_ok in H.
  set (st := scan txt) in *.
  split.
  - intros H0. unfold stats_of, percent_sum. cbn [pa ph pc pk]. unfold percentage.
    rewrite (tr_of_zero st H0). repeat split.
  - intros Hpos.
    assert (HT : 1 <= total_runs st < 2 ^ 63) by (unfold total_runs in *; lia).
    assert (E : (tr_of st =? 0)%float = false).
    { apply (pos_mag_ne0 (-6) 59). now apply tr_of_pos_mag. }
    split; [exact E|].
    unfold stats_of at 1 2 3 4. cbn [pa ph pc pk]. unfold percentage. rewrite E.
    do 4 (split; [reflexivity|]).
    split; [unfold total_runs in *; now apply exact_percentages_sum|].
    split.
    + apply percent_sum_close; [exact HT|lia..].
    + destruct (percent_sum_ulp st HT) as (m & Em & Hm); [lia..|].
      exists m. split; [exact Em|]. split; [reflexivity|exact Hm].
Qed.

Lemma run_percentages_witness :
  Z.of_nat (length six_runs) < 2 ^ 63 /\
  exists s : Statistics,
    Tateisi six_runs = Some s /\
    (total_runs (scan six_runs) = 0 ->
       pa s = PyInt 0 /\ ph s = PyInt 0 /\ pc s = PyInt 0 /\ pk s = PyInt 0 /\
       percent_sum s = 0%float) /\
    (0 < total_runs (scan six_runs) ->
       (tr_of (scan six_runs) =? 0)%float = false /\
       pa s = PyFloat (float_of_int (v_ar (scan six_runs)) / tr_of (scan six_runs)) /\
       ph s = PyFloat (float_of_int (v_hr (scan six_runs)) / tr_of (scan six_runs)) /\
       pc s = PyFloat (float_of_int (v_cr (scan six_runs)) / tr_of (scan six_runs)) /\
       pk s = PyFloat (float_of_int (v_kr (scan six_runs)) / tr_of (scan six_runs)) /\
       (exact_percentage (total_runs (scan six_runs)) (v_ar (scan six_runs))
        + exact_percentage (total_runs (scan six_runs)) (v_hr (scan six_runs))
        + exact_percentage (total_runs (scan six_runs)) (v_cr (scan six_runs))
        + exact_percentage (total_runs (scan six_runs)) (v_kr (scan six_runs)) == 100)%Q /\
       (Qabs (float_value (percent_sum s) - 100) <= 2 # 10000000000000)%Q /\
       exists m : positive,
         Prim2SF (percent_sum s) = S754_finite false m (-46) /\
         Prim2SF 100 = S754_finite false 7036874417766400 (-46) /\
         7036874417766400 - 12 <= Zpos m <= 7036874417766400 + 12).
Proof.
  split; [reflexivity|]. apply (run_percentages six_runs). reflexivity.
Defined.

(** ** Texts without letters *)

Lemma scan_from_kuten_or_other (txt : list Z) : forall st : scan_state,
  forallb kuten_or_other txt = true ->
  run_view (scan_from st txt) = run_view st /\ v_tt (scan_from st txt) = v_tt st.
Proof.
  induction txt as [|x txt IH]; intros st H; [split; reflexivity|].
  cbn [forallb] in H. apply andb_true_iff in H as [Hx Htxt].
  rewrite scan_from_cons. destruct (IH (loop_body st x) Htxt) as [-> ->].
  rewrite loop_body_classify. unfold kuten_or_other in Hx.
  destruct (classify x), st; try discriminate; split; reflexivity.
Qed.

(** A lone toten has no letter and no kuten, and neither score is the constant. *)
Lemma toten_counterexample :
  forallb (fun x => negb (is_letter_class (classify x)) && negb (x =? KUTEN)) [TOTEN] = true /\
  exists s : Statistics,
    Tateisi [TOTEN] = Some s /\
    cp s = PyFloat 1 /\
    (calculate_rs_tateisi_b s =? 115.79)%float = false /\
    (calculate_rs_tateisi_a s =? -109.1)%float = false.
Proof.
  split; [reflexivity|]. eexists. split; [apply Tateisi_stats_of|].
  split; [|split]; vm_compute; reflexivity.
Qed.

(** C5, as the code has it. A text with no letter and no toten (kuten may
    occur, as in the lone ["。"]) has every statistic zero, score B exactly
    115.79 and score A exactly -109.1. *)
Theorem no_letter_no_toten_scores (txt : list Z) :
  Z.of_nat (length txt) < 2 ^ 63 ->
  forallb kuten_or_other txt = true ->
  Tateisi txt = Some zero_statistics /\
  calculate_rs_tateisi_b zero_statistics = 115.79%float /\
  calculate_rs_tateisi_a zero_statistics = (-109.1)%float.
Proof.
  intros Hlen Htxt. split; [|split; vm_compute; reflexivity].
  rewrite Tateisi_stats_of. f_equal.
  destruct (scan_from_kuten_or_other txt scan_init Htxt) as [Hv Htt].
  pose proof (counts_ok_scan txt) as H. fold (scan txt) in Hv, Htt.
  unfold counts_ok in H. destruct H as (_ & _ & _ & _ & _ & Htk & Hsum).
  destruct (scan txt) as [a h c k ar hr cr kr n_tt n_tk cur] eqn:E.
  cbn [run_view scan_init] in Hv. injection Hv as -> -> -> -> -> -> -> -> ->.
  cbn [v_tt scan_init] in Htt. subst n_tt.
  cbn [v_a v_h v_c v_k v_tt v_tk] in Hsum, Htk.
  unfold stats_of, zero_statistics, percentage, mean_length.
  cbn [v_a v_h v_c v_k v_ar v_hr v_cr v_kr v_tt v_tk].
  rewrite tr_of_zero by reflexivity. cbn [Z.eqb Z.add].
  rewrite (div_by_kuten_0 n_tk Htk). reflexivity.
Qed.

(** The unit test of the repository passes. *)
Lemma test_near_empty_string_passes : test_near_empty_string = true.
Proof. vm_compute. reflexivity. Qed.

Lemma no_letter_no_toten_scores_witness :
  (Z.of_nat (length (KUTEN :: ascii_punctuation)) < 2 ^ 63 /\
   forallb kuten_or_other (KUTEN :: ascii_punctuation) = true) /\
  Tateisi (KUTEN :: ascii_punctuation) = Some zero_statistics /\
  calculate_rs_tateisi_b zero_statistics = 115.79%float /\
  calculate_rs_tateisi_a zero_statistics = (-109.1)%float.
Proof.
  split; [split; reflexivity|].
  apply (no_letter_no_toten_scores (KUTEN :: ascii_punctuation)); reflexivity.
Defined.

(** * Further properties of the scan *)

(** ** Concatenation *)

Lemma scan_cons (x : Z) (t : list Z) : scan (x :: t) = scan_from (loop_body scan_init x) t.
Proof. reflexivity. Qed.

Lemma combine_loop_body (st S : scan_state) (x : Z) (f : run_tag) :
  combine (loop_body st x) S f =
  combine st (combine (loop_body scan_init x) S f)
             (if is_letter_class (classify x) then tag_of (classify x) else f).
Proof.
  rewrite !loop_body_classify.
  destruct S as [a' h' c' k' ar' hr' cr' kr' n_tt' n_tk' cur'].
  destruct st as [a h c k ar hr cr kr n_tt n_tk cur].
  unfold combine, joined.
  destruct (classify x), cur;
    cbn [is_letter_class tag_of count_class begin_or_extend scan_init
         v_a v_h v_c v_k v_ar v_hr v_cr v_kr v_tt v_tk current_run
         run_tag_eqb negb andb];
    f_equal; try ring; destruct cur'; reflexivity.
Qed.

Lemma scan_from_combine (t : list Z) : forall st : scan_state,
  scan_from st t = combine st (scan t) (first_run t).
Proof.
  induction t as [|x t IH]; intros st.
  - destruct st. unfold combine, joined. cbn -[Z.add Z.sub].
    rewrite !andb_false_r. f_equal; lia.
  - rewrite scan_from_cons, scan_cons, IH, (IH (loop_body scan_init x)).
    cbn [first_run]. apply combine_loop_body.
Qed.

(** X1. The scan of a concatenation is determined by the scans of the two
    parts and the class of the first letter of the second part: the letter
    and punctuation counters add up, and so do the run counters, less one for
    the class whose run is open at the end of the first part when the first
    letter of the second part continues it. *)
Theorem scan_app_combine (t1 t2 : list Z) :
  scan (t1 ++ t2) = combine (scan t1) (scan t2) (first_run t2).
Proof. unfold scan at 1. rewrite scan_from_app. apply scan_from_combine. Qed.

(** ** Counting, deletion, reversal *)

Lemma class_eqb_eq (c d : CharacterClass) : class_eqb c d = true <-> c = d.
Proof. destruct c, d; simpl; split; congruence. Qed.

Lemma count_of_cons (cl : CharacterClass) (x : Z) (t : list Z) :
  count_of cl (x :: t) = indicator cl x + count_of cl t.
Proof.
  unfold count_of, indicator. cbn [filter].
  destruct (class_eqb (classify x) cl); cbn [length]; lia.
Qed.

Lemma scan_cons_combine (x : Z) (t : list Z) :
  scan (x :: t) = combine (loop_body scan_init x) (scan t) (first_run t).
Proof. rewrite scan_cons. apply scan_from_combine. Qed.

(** X2. After the loop [a], [h], [k], [c], [tk] and [tt] are the numbers of
    characters of the text in the Alphabet, Hiragana, Katakana and Kanji
    ranges and of kuten and toten marks; with the characters in none of the
    ranges they account for every character of the text. *)
Theorem counters_count_characters (txt : list Z) :
  v_a (scan txt) = count_of Alphabet txt /\
  v_h (scan txt) = count_of Hiragana txt /\
  v_k (scan txt) = count_of Katakana txt /\
  v_c (scan txt) = count_of Kanji txt /\
  v_tk (scan txt) = count_of KutenPunctuation txt /\
  v_tt (scan txt) = count_of TotenPunctuation txt /\
  v_a (scan txt) + v_h (scan txt) + v_k (scan txt) + v_c (scan txt)
    + v_tk (scan txt) + v_tt (scan txt) + count_of Other txt
  = Z.of_nat (length txt).
Proof.
  induction txt as [|x t IH]; [repeat split|].
  rewrite scan_cons_combine, loop_body_classify, !count_of_cons.
  destruct IH as (Ha & Hh & Hk & Hc & Hku & Hto & Hlen).
  unfold combine. cbn [v_a v_h v_c v_k v_tt v_tk].
  rewrite Ha, Hh, Hk, Hc, Hku, Hto in *.
  unfold indicator.
  destruct (classify x); cbn [count_class begin_or_extend scan_init class_eqb
    v_a v_h v_c v_k v_tt v_tk run_tag_eqb negb length];
    repeat split; lia.
Qed.

Lemma loop_body_other (st : scan_state) (x : Z) :
  recognised x = false -> loop_body st x = st.
Proof.
  unfold recognised. intros H. rewrite loop_body_classify.
  destruct (classify x); try discriminate. reflexivity.
Qed.

Lemma scan_from_filter (txt : list Z) : forall st : scan_state,
  scan_from st (filter recognised txt) = scan_from st txt.
Proof.
  induction txt as [|x t IH]; intros st; [reflexivity|].
  cbn [filter]. destruct (recognised x) eqn:E.
  - rewrite !scan_from_cons. apply IH.
  - rewrite scan_from_cons, loop_body_other by exact E. apply IH.
Qed.

(** X3. Deleting from a text every character that is in none of the four
    letter ranges and is neither kuten nor toten changes neither the state
    the loop ends in nor the statistics. *)
Theorem unrecognised_characters_ignored (txt : list Z) :
  scan (filter recognised txt) = scan txt /\
  Tateisi (filter recognised txt) = Tateisi txt.
Proof.
  assert (H : scan (filter recognised txt) = scan txt) by apply scan_from_filter.
  split; [exact H|]. unfold Tateisi, __init__. now rewrite H.
Qed.

Lemma scan_from_classes (t1 : list Z) : forall (t2 : list Z) (st : scan_state),
  map classify t1 = map classify t2 -> scan_from st t1 = scan_from st t2.
Proof.
  induction t1 as [|x t1 IH]; intros [|y t2] st H; try discriminate; [reflexivity|].
  cbn [map] in H. injection H as Hx Ht.
  rewrite !scan_from_cons, !loop_body_classify, Hx. now apply IH.
Qed.

(** X4. Two texts whose characters have, position by position, the same
    classes end the loop in the same state and have the same statistics: a
    fullwidth letter counts as an ASCII one, any kanji as any other. *)
Theorem statistics_depend_on_classes (t1 t2 : list Z) :
  map classify t1 = map classify t2 ->
  scan t1 = scan t2 /\ Tateisi t1 = Tateisi t2.
Proof.
  intros H. assert (E : scan t1 = scan t2) by now apply scan_from_classes.
  split; [exact E|]. unfold Tateisi, __init__. now rewrite E.
Qed.

Lemma statistics_depend_on_classes_witness :
  map classify [0x41; 0x62; 0x3042; 0x4E9C] = map classify [0xFF5A; 0x5F; 0x3093; 0x5B57] /\
  scan [0x41; 0x62; 0x3042; 0x4E9C] = scan [0xFF5A; 0x5F; 0x3093; 0x5B57] /\
  Tateisi [0x41; 0x62; 0x3042; 0x4E9C] = Tateisi [0xFF5A; 0x5F; 0x3093; 0x5B57].
Proof.
  split; [reflexivity|].
  apply (statistics_depend_on_classes [0x41; 0x62; 0x3042; 0x4E9C]
           [0xFF5A; 0x5F; 0x3093; 0x5B57]). reflexivity.
Defined.

Lemma runs_alternate_loop_body (st : scan_state) (x : Z) :
  runs_alternate st -> runs_alternate (loop_body st x).
Proof.
  rewrite loop_body_classify.
  destruct st as [a h c k ar hr cr kr n_tt n_tk cur].
  unfold runs_alternate, alternating.
  cbn [v_ar v_hr v_cr v_kr current_run].
  destruct (classify x), cur;
    cbn [count_class begin_or_extend v_ar v_hr v_cr v_kr current_run run_tag_eqb negb];
    lia.
Qed.

Lemma runs_alternate_scan_from (txt : list Z) : forall st : scan_state,
  runs_alternate st -> runs_alternate (scan_from st txt).
Proof.
  induction txt as [|x t IH]; intros st H; [exact H|].
  rewrite scan_from_cons. apply IH. now apply runs_alternate_loop_body.
Qed.

Lemma runs_alternate_scan (txt : list Z) : runs_alternate (scan txt).
Proof.
  apply runs_alternate_scan_from. unfold runs_alternate, alternating. simpl. lia.
Qed.

(** X5. Two runs of one class are separated by a run of another class, so
    after the loop each run counter is at most the sum of the three others
    plus one. *)
Theorem runs_of_a_class_alternate (txt : list Z) :
  v_ar (scan txt) <= v_hr (scan txt) + v_cr (scan txt) + v_kr (scan txt) + 1 /\
  v_hr (scan txt) <= v_ar (scan txt) + v_cr (scan txt) + v_kr (scan txt) + 1 /\
  v_cr (scan txt) <= v_ar (scan txt) + v_hr (scan txt) + v_kr (scan txt) + 1 /\
  v_kr (scan txt) <= v_ar (scan txt) + v_hr (scan txt) + v_cr (scan txt) + 1.
Proof.
  pose proof (runs_alternate_scan txt) as H.
  unfold runs_alternate, alternating in H.
  destruct H as (Ha & Hh & Hc & Hk).
  repeat split;
    [destruct (run_tag_eqb (current_run (scan txt)) run_a)
    |destruct (run_tag_eqb (current_run (scan txt)) run_h)
    |destruct (run_tag_eqb (current_run (scan txt)) run_c)
    |destruct (run_tag_eqb (current_run (scan txt)) run_k)]; lia.
Qed.

Lemma loop_body_mono (st : scan_state) (x : Z) :
  Forall2 Z.le (counters st) (counters (loop_body st x)).
Proof.
  rewrite loop_body_classify.
  destruct st as [a h c k ar hr cr kr n_tt n_tk cur]. unfold counters.
  destruct (classify x), cur;
    cbn [count_class begin_or_extend v_a v_h v_c v_k v_ar v_hr v_cr v_kr v_tt v_tk
         run_tag_eqb negb];
    repeat constructor; lia.
Qed.

Lemma Forall2_le_trans (l1 l2 l3 : list Z) :
  Forall2 Z.le l1 l2 -> Forall2 Z.le l2 l3 -> Forall2 Z.le l1 l3.
Proof.
  intros H. revert l3. induction H as [|x y l1 l2 Hxy H IH]; intros l3 H3.
  - inversion H3. constructor.
  - inversion H3 as [|y' z l2' l3' Hyz H3']; subst. constructor; [lia|now apply IH].
Qed.

Lemma Forall2_le_refl (l : list Z) : Forall2 Z.le l l.
Proof. induction l; constructor; [lia|assumption]. Qed.

Lemma scan_from_mono (t : list Z) : forall st : scan_state,
  Forall2 Z.le (counters st) (counters (scan_from st t)).
Proof.
  induction t as [|x t IH]; intros st; [apply Forall2_le_refl|].
  rewrite scan_from_cons.
  eapply Forall2_le_trans; [apply loop_body_mono|apply IH].
Qed.

(** X6. No counter ever decreases: each of the ten counters after a prefix
    of a text is at most its value after the whole text. *)
Theorem counters_grow_along_the_text (t1 t2 : list Z) :
  Forall2 Z.le (counters (scan t1)) (counters (scan (t1 ++ t2))).
Proof. unfold scan at 2. rewrite scan_from_app. apply scan_from_mono. Qed.

Lemma finalize_counters (self : Statistics) (st st' : scan_state) :
  counters st = counters st' -> finalize self st = finalize self st'.
Proof.
  destruct st as [a h c k ar hr cr kr n_tt n_tk cur].
  destruct st' as [a' h' c' k' ar' hr' cr' kr' n_tt' n_tk' cur'].
  unfold counters. cbn [v_a v_h v_c v_k v_ar v_hr v_cr v_kr v_tt v_tk].
  intros H. injection H as -> -> -> -> -> -> -> -> -> ->. reflexivity.
Qed.

Lemma joined_comm (x y tag : run_tag) : joined x y tag = joined y x tag.
Proof. unfold joined. now rewrite andb_comm. Qed.

Lemma current_run_count_class (cl : CharacterClass) (st : scan_state) :
  current_run (count_class cl st) =
  if is_letter_class cl then tag_of cl else current_run st.
Proof. destruct st, cl; reflexivity. Qed.

Lemma scan_singleton (x : Z) :
  current_run (scan [x]) = first_run [x].
Proof.
  unfold scan. cbn [scan_from fold_left first_run].
  rewrite loop_body_classify, current_run_count_class.
  destruct (is_letter_class (classify x)); reflexivity.
Qed.

Lemma scan_rev (txt : list Z) :
  counters (scan (rev txt)) = counters (scan txt) /\
  current_run (scan (rev txt)) = first_run txt.
Proof.
  induction txt as [|x t [IHc IHr]]; [split; reflexivity|].
  cbn [rev]. change (scan (rev t ++ [x])) with (scan_from scan_init (rev t ++ [x])).
  rewrite scan_from_app, scan_from_combine.
  change (scan_from scan_init (rev t)) with (scan (rev t)).
  rewrite (scan_cons_combine x t).
  change (loop_body scan_init x) with (scan [x]).
  pose proof (scan_singleton x) as HX.
  assert (Hf : first_run ([x] ++ t) =
               match first_run [x] with run_none => first_run t | r => r end).
  { cbn [app first_run]. destruct (classify x); reflexivity. }
  change (first_run (x :: t)) with (first_run ([x] ++ t)). rewrite Hf. clear Hf.
  set (R := scan (rev t)) in *. set (S := scan t) in *. set (X := scan [x]) in *.
  set (fx := first_run [x]) in *. set (ft := first_run t) in *.
  clearbody R S X fx ft.
  destruct R as [a h c k ar hr cr kr n_tt n_tk cur].
  destruct S as [a' h' c' k' ar' hr' cr' kr' n_tt' n_tk' cur'].
  destruct X as [a2 h2 c2 k2 ar2 hr2 cr2 kr2 n_tt2 n_tk2 cur2].
  unfold counters, combine in *.
  cbn [v_a v_h v_c v_k v_ar v_hr v_cr v_kr v_tt v_tk current_run] in *.
  injection IHc as -> -> -> -> -> -> -> -> -> ->. subst cur cur2.
  split.
  - rewrite !(joined_comm ft). repeat (apply f_equal2; [ring|]). reflexivity.
  - reflexivity.
Qed.

(** X7. A text read backwards gives the same ten counters, so the same
    statistics; the loop ends it in the run of the first letter of the
    text. *)
Theorem reversed_text_same_statistics (txt : list Z) :
  counters (scan (rev txt)) = counters (scan txt) /\
  current_run (scan (rev txt)) = first_run txt /\
  Tateisi (rev txt) = Tateisi txt.
Proof.
  destruct (scan_rev txt) as [Hc Hr]. split; [exact Hc|]. split; [exact Hr|].
  unfold Tateisi, __init__. now apply finalize_counters.
Qed.

Lemma count_class_changes (cl : CharacterClass) (st : scan_state) :
  cl <> Other -> count_class cl st <> st.
Proof.
  intros Hcl E. apply (f_equal counters) in E.
  destruct st as [a h c k ar hr cr kr n_tt n_tk cur].
  destruct cl; try (now apply Hcl);
    unfold counters in E;
    cbn [count_class begin_or_extend v_a v_h v_c v_k v_ar v_hr v_cr v_kr v_tt v_tk] in E;
    injection E; intros; lia.
Qed.

Lemma classify_other_iff (x : Z) :
  classify x = Other <->
  ~ (0x41 <= x <= 0x7A \/ 0xFF21 <= x <= 0xFF5A \/ 0x3041 <= x <= 0x3096 \/
     0x30A1 <= x <= 0x30FA \/ 0x4E00 <= x <= 0x9FBF \/ x = 0x3002 \/ x = 0x3001).
Proof.
  unfold classify, class_table, first_match, between.
  repeat match goal with
         | |- context [?a <=? ?b] => destruct (Z.leb_spec a b)
         | |- context [?a =? ?b] => destruct (Z.eqb_spec a b)
         end; cbn [andb orb]; split; intros HH; try discriminate; try lia;
    try reflexivity; try (exfalso; apply HH; lia).
Qed.

(** X8. One pass of the loop body leaves the state as it is exactly on the
    characters outside U+0041..U+007A, U+FF21..U+FF5A, U+3041..U+3096,
    U+30A1..U+30FA and U+4E00..U+9FBF that are neither U+3002 nor U+3001;
    every other character changes the state. *)
Theorem state_unchanged_iff_unrecognised (st : scan_state) (x : Z) :
  loop_body st x = st <->
  ~ (0x41 <= x <= 0x7A \/ 0xFF21 <= x <= 0xFF5A \/ 0x3041 <= x <= 0x3096 \/
     0x30A1 <= x <= 0x30FA \/ 0x4E00 <= x <= 0x9FBF \/ x = 0x3002 \/ x = 0x3001).
Proof.
  rewrite <- classify_other_iff, loop_body_classify. split.
  - intros E. destruct (classify x) eqn:Ec; try reflexivity;
      exfalso; revert E; apply count_class_changes; discriminate.
  - intros ->. reflexivity.
Qed.

Lemma first_match_cases (tbl : list ((Z -> bool) * CharacterClass)) (x : Z) :
  (exists p c, In (p, c) tbl /\ p x = true /\ first_match tbl x = c) \/
  ((forall p c, In (p, c) tbl -> p x = false) /\ first_match tbl x = Other).
Proof.
  induction tbl as [|[p c] tbl IH]; cbn [first_match].
  - right. split; [intros p c []|reflexivity].
  - destruct (p x) eqn:E.
    + left. exists p, c. split; [now left|]. split; [exact E|reflexivity].
    + destruct IH as [(q & d & Hin & Hq & Hd)|[Hno Ho]].
      * left. exists q, d. split; [now right|]. split; assumption.
      * right. split; [|exact Ho]. intros q d [Hqd|Hin].
        -- injection Hqd as <- <-. exact E.
        -- now apply (Hno q d).
Qed.

Ltac range_facts :=
  unfold between in *;
  rewrite ?orb_true_iff, ?andb_true_iff, ?Z.leb_le, ?Z.eqb_eq in *.

Lemma class_table_exclusive (x : Z) (p q : Z -> bool) (c d : CharacterClass) :
  In (p, c) class_table -> In (q, d) class_table ->
  p x = true -> q x = true -> c = d.
Proof.
  unfold class_table. cbn [In]. intros Hp Hq Hpx Hqx.
  repeat match goal with
         | H : _ \/ _ |- _ => destruct H as [H|H]
         | H : False |- _ => destruct H
         | H : (_, _) = (_, _) |- _ => injection H as <- <-
         end;
    try reflexivity; exfalso; range_facts; lia.
Qed.

(** X9. The ranges the chain of tests compares with are pairwise disjoint,
    so the order of the tests does not matter: the loop body does on a
    character what the first matching test of any reordering of the chain
    selects. *)
Theorem order_of_the_tests_is_irrelevant
    (tbl : list ((Z -> bool) * CharacterClass)) (st : scan_state) (x : Z) :
  Permutation tbl class_table ->
  loop_body st x = count_class (first_match tbl x) st.
Proof.
  intros HP. rewrite loop_body_classify. f_equal. unfold classify.
  destruct (first_match_cases tbl x) as [(p & c & Hin & Hp & ->)|[Hno ->]];
    destruct (first_match_cases class_table x) as [(q & d & Hin' & Hq & ->)|[Hno' ->]].
  - symmetry. apply (class_table_exclusive x p q); auto.
    now apply (Permutation_in _ HP).
  - rewrite (Hno' p c) in Hp; [discriminate|]. now apply (Permutation_in _ HP).
  - rewrite (Hno q d) in Hq; [discriminate|].
    now apply (Permutation_in _ (Permutation_sym HP)).
  - reflexivity.
Qed.

Lemma order_of_the_tests_is_irrelevant_witness :
  Permutation (rev class_table) class_table /\
  loop_body scan_init 0x30AB = count_class (first_match (rev class_table) 0x30AB) scan_init.
Proof.
  split; [apply Permutation_sym, Permutation_rev|].
  apply (order_of_the_tests_is_irrelevant (rev class_table) scan_init 0x30AB).
  apply Permutation_sym, Permutation_rev.
Defined.

(** * Further properties of the statistics *)

(** ** Ranges *)

Lemma SFleb_of_value (mx : positive) (ex : Z) (my : positive) (ey : Z) :
  valid_binary (S754_finite false mx ex) = true ->
  valid_binary (S754_finite false my ey) = true ->
  (inject_Z (Zpos mx) * pow2 ex <= inject_Z (Zpos my) * pow2 ey)%Q ->
  SFleb (S754_finite false mx ex) (S754_finite false my ey) = true.
Proof.
  intros Vx Vy H. unfold SFleb. cbn [SFcompare].
  apply valid_binary_canonical in Vx, Vy.
  destruct Vx as [Cx _], Vy as [Cy _].
  destruct (Z.compare_spec ex ey) as [E|L|G]; [|reflexivity|exfalso].
  - subst ey.
    change (Pos.compare_cont Eq mx my) with (Pos.compare mx my).
    destruct (Pos.compare_spec mx my) as [E'|L'|G']; try reflexivity. exfalso.
    pose proof (pow2_pos ex) as Hp.
    apply Qmult_le_r in H; [|exact Hp].
    rewrite <- Zle_Qle in H. lia.
  - pose proof (value_digits mx ex) as [Hx _].
    pose proof (value_digits my ey) as [_ Hy].
    pose proof (pow2_le (Zpos (digits2_pos my) + ey) (Zpos (digits2_pos mx) + ex - 1)
                  ltac:(lia)) as Hle.
    lra.
Qed.

Lemma leb_of_value (J K J' K' : Z) (f g : float) :
  pos_mag J K f -> pos_mag J' K' g -> (float_value f <= float_value g)%Q ->
  (f <=? g)%float = true.
Proof.
  intros (m & e & E & _) (m' & e' & E' & _) H.
  pose proof (Prim2SF_valid f) as V. pose proof (Prim2SF_valid g) as V'.
  unfold float_value in H. rewrite leb_spec. rewrite E in *. rewrite E' in *.
  cbn [SF2Q] in H. now apply SFleb_of_value.
Qed.

Lemma nonneg_finite_leb (f : float) : nonneg_finite f -> (0 <=? f)%float = true.
Proof.
  intros [E|(J & K & m & e & E & _)]; rewrite leb_spec, E; reflexivity.
Qed.

Lemma nonneg_finite_is_finite (f : float) : nonneg_finite f -> is_finite f = true.
Proof.
  intros [E|(J & K & P)].
  - apply (finite_le_is_finite 0). unfold finite_le. rewrite E. exact I.
  - apply (finite_le_is_finite K). now apply (pos_mag_finite_le J).
Qed.

Lemma approx_nonneg_finite (J K : Z) (a b v : Q) (f : float) :
  approx J K a b v f -> nonneg_finite f.
Proof. intros [[E _]|(P & _)]; [left; exact E|right; eauto]. Qed.

Lemma percentage_nonneg_finite (st : scan_state) (r : Z) :
  0 <= total_runs st < 2 ^ 63 -> 0 <= r < 2 ^ 63 ->
  nonneg_finite (to_float (percentage st r)).
Proof.
  intros HT Hr. destruct (Z.eq_dec (total_runs st) 0) as [H0|H0].
  - unfold percentage. rewrite (tr_of_zero st H0). left. reflexivity.
  - eapply approx_nonneg_finite. apply percentage_approx; [lia|exact Hr].
Qed.

Lemma mean_length_nonneg_finite (n r : Z) :
  0 <= n < 2 ^ 63 -> 0 <= r < 2 ^ 63 -> nonneg_finite (to_float (mean_length n r)).
Proof.
  intros Hn Hr. unfold mean_length. destruct (Z.eqb_spec r 0) as [->|Hr0]; cbn [to_float].
  - left. reflexivity.
  - destruct (Z.eq_dec n 0) as [->|Hn0].
    + rewrite int_truediv_0 by lia. left. reflexivity.
    + right. exists (-62), 65. apply int_truediv_pos_mag; lia.
Qed.

Lemma div_by_kuten_nonneg_finite (n n_tk : Z) :
  0 <= n < 2 ^ 63 -> 0 <= n_tk < 2 ^ 63 -> nonneg_finite (div_by_kuten n n_tk).
Proof.
  intros Hn Hk. destruct (Z.eq_dec n 0) as [->|Hn0].
  - rewrite div_by_kuten_0 by lia. left. reflexivity.
  - unfold div_by_kuten. destruct (Z.eqb_spec n_tk 0) as [->|Hk0].
    + destruct (count_quotient n 1 1 1%float Hn pos_mag_1 ltac:(lia) ltac:(lia))
        as [[-> _]|[_ P]]; [lia|]. right. eauto.
    + right. exists (-62), 65. apply int_truediv_pos_mag; lia.
Qed.

(** X10. On every text (of a length a [str] can have) each of the ten
    statistics is a finite number and is not negative: none is NaN, an
    infinity or below zero. *)
Theorem statistics_finite_not_negative (txt : list Z) :
  Z.of_nat (length txt) < 2 ^ 63 ->
  exists s : Statistics,
    Tateisi txt = Some s /\
    forallb finite_nonneg
      [pa s; ph s; pc s; pk s; la s; lh s; lc s; lk s; ls s; cp s] = true.
Proof.
  intros Hlen. exists (stats_of (scan txt)). split; [apply Tateisi_stats_of|].
  pose proof (counts_ok_scan txt) as H.
  unfold counts_ok, class_counts_ok in H.
  set (st := scan txt) in *.
  assert (HT : 0 <= total_runs st < 2 ^ 63) by (unfold total_runs; lia).
  assert (F : forall v, nonneg_finite (to_float v) -> finite_nonneg v = true).
  { intros v Hv. unfold finite_nonneg.
    now rewrite nonneg_finite_is_finite, nonneg_finite_leb. }
  unfold stats_of. cbn [forallb pa ph pc pk la lh lc lk ls cp].
  rewrite !F; try reflexivity;
    first [apply percentage_nonneg_finite | apply mean_length_nonneg_finite
          | apply div_by_kuten_nonneg_finite]; lia.
Qed.

Lemma statistics_finite_not_negative_witness :
  Z.of_nat (length six_runs) < 2 ^ 63 /\
  exists s : Statistics,
    Tateisi six_runs = Some s /\
    forallb finite_nonneg
      [pa s; ph s; pc s; pk s; la s; lh s; lc s; lk s; ls s; cp s] = true.
Proof.
  split; [reflexivity|]. apply (statistics_finite_not_negative six_runs). reflexivity.
Defined.

Lemma percentage_in_range (st : scan_state) (r : Z) :
  0 <= total_runs st < 2 ^ 63 -> 0 <= r -> 2 * r <= total_runs st + 1 ->
  in_0_100 (percentage st r) = true.
Proof.
  intros HT Hr Halt. unfold in_0_100.
  rewrite nonneg_finite_leb by (apply percentage_nonneg_finite; lia).
  cbn [andb].
  destruct (Z.eq_dec (total_runs st) 0) as [H0|H0].
  { unfold percentage. rewrite (tr_of_zero st H0). reflexivity. }
  destruct (Z.eq_dec (total_runs st) 1) as [H1|H1].
  { assert (Hr01 : r = 0 \/ r = 1) by lia.
    unfold percentage, tr_of. rewrite H1.
    destruct Hr01 as [-> | ->]; vm_compute; reflexivity. }
  destruct (percentage_approx st r ltac:(lia) ltac:(lia)) as [[E _]|(P & Hv & _ & Hhi)].
  - rewrite leb_spec, E. reflexivity.
  - apply (leb_of_value _ _ _ _ _ _ P pos_mag_100). rewrite float_value_100.
    assert (Hx : (exact_percentage (total_runs st) r <= 75)%Q).
    { unfold exact_percentage.
      assert (HTq : (2 <= inject_Z (total_runs st))%Q).
      { change 2%Q with (inject_Z 2). rewrite <- Zle_Qle. lia. }
      assert (Hrq : (2 * inject_Z r <= inject_Z (total_runs st) + 1)%Q).
      { change 2%Q with (inject_Z 2). change 1%Q with (inject_Z 1).
        rewrite <- inject_Z_mult, <- inject_Z_plus, <- Zle_Qle. lia. }
      apply Qle_shift_div_r.
      - apply Qlt_shift_div_l; [reflexivity|lra].
      - set (T := inject_Z (total_runs st)) in *. set (R := inject_Z r) in *.
        assert (E : (75 * (T / 100) == (3 # 4) * T)%Q) by (field; discriminate).
        rewrite E. lra. }
    unfold eps in *. lra.
Qed.

(** X11. On every text (of a length a [str] can have) each of the four run
    percentages is between 0 and 100, as Python compares floats: rounding
    never carries one above 100. *)
Theorem percentages_between_0_and_100 (txt : list Z) :
  Z.of_nat (length txt) < 2 ^ 63 ->
  exists s : Statistics,
    Tateisi txt = Some s /\
    forallb in_0_100 [pa s; ph s; pc s; pk s] = true.
Proof.
  intros Hlen. exists (stats_of (scan txt)). split; [apply Tateisi_stats_of|].
  pose proof (counts_ok_scan txt) as H.
  pose proof (runs_alternate_scan txt) as A.
  unfold counts_ok, class_counts_ok in H.
  unfold runs_alternate, alternating in A.
  set (st := scan txt) in *.
  assert (HT : 0 <= total_runs st < 2 ^ 63) by (unfold total_runs; lia).
  destruct A as (Aa & Ah & Ac & Ak).
  unfold stats_of. cbn [forallb pa ph pc pk].
  rewrite !percentage_in_range; try reflexivity; try exact HT; try lia; unfold total_runs.
  - destruct (run_tag_eqb (current_run st) run_k); lia.
  - destruct (run_tag_eqb (current_run st) run_c); lia.
  - destruct (run_tag_eqb (current_run st) run_h); lia.
  - destruct (run_tag_eqb (current_run st) run_a); lia.
Qed.

Lemma percentages_between_0_and_100_witness :
  Z.of_nat (length six_runs) < 2 ^ 63 /\
  exists s : Statistics,
    Tateisi six_runs = Some s /\
    forallb in_0_100 [pa s; ph s; pc s; pk s] = true.
Proof.
  split; [reflexivity|]. apply (percentages_between_0_and_100 six_runs). reflexivity.
Defined.

(** ** Exact quotients *)

(** Rounding a number that is already in canonical form returns it. *)
Lemma binary_round_aux_canonical (s : bool) (m : positive) (e : Z) :
  valid_binary (S754_finite s m e) = true ->
  binary_round_aux prec emax s (Zpos m) e loc_Exact = S754_finite s m e.
Proof.
  intros V. apply valid_binary_canonical in V. destruct V as [C B].
  unfold binary_round_aux, shr_fexp. rewrite !fexp_eq. cbn [Zdigits2].
  replace (Z.max (Zpos (digits2_pos m) + e - 53) (-1074) - e) with 0 by lia.
  cbn [shr shr_record_of_loc shr_m loc_of_shr_record round_nearest_even Zdigits2].
  rewrite fexp_eq.
  replace (Z.max (Zpos (digits2_pos m) + e - 53) (-1074) - e) with 0 by lia.
  cbn [shr shr_record_of_loc shr_m].
  replace (e <=? emax - prec) with true; [reflexivity|].
  symmetry. apply Z.leb_le. change (emax - prec) with 971. lia.
Qed.

(** The same with one more bit, which is zero. *)
Lemma binary_round_aux_canonical_twice (s : bool) (m : positive) (e : Z) :
  valid_binary (S754_finite s m e) = true ->
  Zpos (digits2_pos m) = 53 ->
  binary_round_aux prec emax s (Zpos m~0) (e - 1) loc_Exact = S754_finite s m e.
Proof.
  intros V D. pose proof V as V'.
  apply valid_binary_canonical in V. destruct V as [C B].
  unfold binary_round_aux, shr_fexp. rewrite fexp_eq.
  change (Zdigits2 (Zpos m~0)) with (Zpos (Pos.succ (digits2_pos m))).
  rewrite Pos2Z.inj_succ, D.
  replace (Z.max (Z.succ 53 + (e - 1) - 53) (-1074) - (e - 1)) with 1 by lia.
  cbn [shr shr_record_of_loc iter_pos shr_1 shr_m shr_r shr_s orb
       loc_of_shr_record round_nearest_even].
  replace (e - 1 + 1) with e by lia.
  rewrite fexp_eq. cbn [Zdigits2].
  replace (Z.max (Zpos (digits2_pos m) + e - 53) (-1074) - e) with 0 by lia.
  cbn [shr shr_m].
  replace (e <=? emax - prec) with true; [reflexivity|].
  symmetry. apply Z.leb_le. change (emax - prec) with 971. lia.
Qed.

Lemma SFdiv_core_binary_exact (mx : positive) (ex : Z) (my : positive) (ey q : Z) :
  -1021 <= Zpos (digits2_pos mx) + ex - (Zpos (digits2_pos my) + ey) ->
  Zpos mx * 2 ^ (ex - ey - div_exp mx ex my ey) = q * Zpos my ->
  SFdiv_core_binary prec emax (Zpos mx) ex (Zpos my) ey =
    (q, div_exp mx ex my ey, loc_Exact).
Proof.
  intros HD Hq. unfold SFdiv_core_binary. cbn [Zdigits2]. rewrite fexp_eq.
  replace (Z.min (Z.max (Zpos (digits2_pos mx) + ex - (Zpos (digits2_pos my) + ey) - 53) (-1074)) (ex - ey))
    with (div_exp mx ex my ey) by (unfold div_exp; lia).
  assert (Hs : 0 <= ex - ey - div_exp mx ex my ey) by (unfold div_exp; lia).
  set (s := ex - ey - div_exp mx ex my ey) in *.
  assert (Hm : match s with Zpos _ => Z.shiftl (Zpos mx) s | Z0 => Zpos mx | Zneg _ => 0 end
               = Zpos mx * 2 ^ s).
  { destruct s as [|p|p]; [simpl; lia| |lia]. apply Z.shiftl_mul_pow2. lia. }
  rewrite Hm, Hq.
  pose proof (Z.div_mul q (Zpos my) ltac:(lia)) as Hdiv.
  pose proof (Z.mod_mul q (Zpos my) ltac:(lia)) as Hmod.
  unfold Z.div in Hdiv. unfold Z.modulo in Hmod.
  destruct (Z.div_eucl (q * Zpos my) (Zpos my)) as [q' r].
  subst q' r.
  unfold new_location, new_location_even, new_location_odd.
  destruct (Z.even (Zpos my)); reflexivity.
Qed.

(** Dividing a normal number by one returns it. *)
Lemma SFdiv_one (s : bool) (m : positive) (e : Z) :
  valid_binary (S754_finite s m e) = true ->
  Zpos (digits2_pos m) = 53 -> -1073 <= e ->
  SFdiv prec emax (S754_finite s m e) (S754_finite false 4503599627370496 (-52)) =
    S754_finite s m e.
Proof.
  intros V D He. cbn [SFdiv].
  assert (Ee : div_exp m e 4503599627370496 (-52) = e - 1).
  { unfold div_exp. rewrite D. change (Zpos (digits2_pos 4503599627370496)) with 53. lia. }
  rewrite (SFdiv_core_binary_exact m e 4503599627370496 (-52) (Zpos m~0)).
  - rewrite Ee, xorb_false_r. now apply binary_round_aux_canonical_twice.
  - rewrite D. change (Zpos (digits2_pos 4503599627370496)) with 53. lia.
  - rewrite Ee. replace (e - -52 - (e - 1)) with 53 by lia.
    change (Zpos m~0) with (2 * Zpos m).
    change (2 ^ 53) with (2 * 4503599627370496). lia.
Qed.

Lemma float_of_int_canonical (n : Z) :
  1 <= n < 2 ^ 63 ->
  exists (m : positive) (e : Z),
    Prim2SF (float_of_int n) = S754_finite false m e /\
    Zpos (digits2_pos m) = 53 /\ -52 <= e <= 11.
Proof.
  intros Hn. destruct (float_of_int_pos n Hn) as (m & e & E & Hmag).
  pose proof (Prim2SF_valid (float_of_int n)) as V. rewrite E in V.
  apply valid_binary_canonical in V. destruct V as [C _].
  exists m, e. split; [exact E|]. lia.
Qed.

Lemma div_one (n : Z) :
  0 <= n < 2 ^ 63 -> (float_of_int n / 1)%float = float_of_int n.
Proof.
  intros Hn. destruct (Z.eq_dec n 0) as [->|Hn0]; [reflexivity|].
  destruct (float_of_int_canonical n ltac:(lia)) as (m & e & E & D & He).
  apply Prim2SF_inj. rewrite div_spec, Prim2SF_one, E. unfold SF64div.
  apply SFdiv_one; [|exact D|lia].
  rewrite <- E. apply Prim2SF_valid.
Qed.

(** An [int] divided by 1 is the [int] converted. *)
Lemma int_truediv_one (n : Z) :
  0 <= n < 2 ^ 63 -> int_truediv n 1 = float_of_int n.
Proof.
  intros Hn. destruct (Z.eq_dec n 0) as [->|Hn0]; [reflexivity|].
  destruct n as [|p|p]; try lia. clear Hn0.
  apply Prim2SF_inj.
  destruct (Prim2SF_int_truediv (Zpos p) 1 ltac:(lia) ltac:(lia)) as [-> _].
  { cbn [Zdigits2]. change (Zpos (digits2_pos 1)) with 1. lia. }
  rewrite float_of_int_spec by lia.
  cbn [int_mantissa binary_normalize SFdiv].
  assert (Hd : 1 <= Zpos (digits2_pos p) <= 63).
  { split; [lia|]. change (Zpos (digits2_pos p)) with (Zdigits2 (Zpos p)).
    apply Zdigits2_le; lia. }
  assert (Ee : div_exp p 0 1 0 = Z.min (Zpos (digits2_pos p) - 54) 0).
  { unfold div_exp. change (Zpos (digits2_pos 1)) with 1. lia. }
  rewrite (SFdiv_core_binary_exact p 0 1 0 (Zpos p * 2 ^ (- div_exp p 0 1 0))).
  2:{ change (Zpos (digits2_pos 1)) with 1. lia. }
  2:{ replace (0 - 0 - div_exp p 0 1 0) with (- div_exp p 0 1 0) by lia. lia. }
  cbn [xorb]. rewrite Ee.
  unfold binary_round.
  destruct (shl_align_spec p 0 (fexp prec emax (Zpos (digits2_pos p) + 0)))
    as (mz & -> & Hz).
  rewrite fexp_eq in *. rewrite Z.add_0_r in *.
  destruct (Z_le_gt_dec 54 (Zpos (digits2_pos p))) as [Hbig|Hsmall].
  - replace (Z.min (Zpos (digits2_pos p) - 54) 0) with 0 by lia.
    replace (Z.min 0 (Z.max (Zpos (digits2_pos p) - 53) (-1074))) with 0 in * by lia.
    rewrite Z.sub_0_r in Hz. cbn [Z.opp Z.pow] in *.
    rewrite Z.mul_1_r in *. rewrite Hz. reflexivity.
  - replace (Z.min (Zpos (digits2_pos p) - 54) 0) with (Zpos (digits2_pos p) - 54) by lia.
    replace (Z.min 0 (Z.max (Zpos (digits2_pos p) - 53) (-1074)))
      with (Zpos (digits2_pos p) - 53) in * by lia.
    set (e := Zpos (digits2_pos p) - 53) in *.
    assert (Hdz : Zpos (digits2_pos mz) = 53).
    { pose proof (shl_align_digits p mz 0 e ltac:(lia) Hz). lia. }
    assert (V : valid_binary (S754_finite false mz e) = true).
    { cbn [valid_binary]. unfold bounded, canonical_mantissa.
      rewrite fexp_eq, Hdz. apply andb_true_iff. split.
      - apply Z.eqb_eq. lia.
      - apply Z.leb_le. change (emax - prec) with 971. lia. }
    rewrite (binary_round_aux_canonical false mz e V).
    replace (Zpos (digits2_pos p) - 54) with (e - 1) by lia.
    replace (Zpos p * 2 ^ (- (e - 1))) with (Zpos mz~0).
    + now apply binary_round_aux_canonical_twice.
    + change (Zpos mz~0) with (2 * Zpos mz). rewrite Hz.
      replace (- (e - 1)) with (0 - e + 1) by lia.
      rewrite Z.pow_add_r by lia. change (2 ^ 1) with 2. ring.
Qed.

Lemma div_by_kuten_first (n : Z) :
  0 <= n < 2 ^ 63 -> div_by_kuten n 1 = div_by_kuten n 0.
Proof.
  intros Hn. unfold div_by_kuten. cbn [Z.eqb].
  now rewrite int_truediv_one, div_one.
Qed.

(** ** The first kuten and texts of one class *)

Lemma loop_body_one_more_kuten (st : scan_state) (x : Z) :
  loop_body (one_more_kuten st) x = one_more_kuten (loop_body st x).
Proof.
  rewrite !loop_body_classify.
  destruct st as [a h c k ar hr cr kr n_tt n_tk cur].
  destruct (classify x), cur; reflexivity.
Qed.

Lemma scan_from_one_more_kuten (t : list Z) : forall st : scan_state,
  scan_from (one_more_kuten st) t = one_more_kuten (scan_from st t).
Proof.
  induction t as [|x t IH]; intros st; [reflexivity|].
  now rewrite !scan_from_cons, loop_body_one_more_kuten, IH.
Qed.

Lemma loop_body_kuten (st : scan_state) : loop_body st KUTEN = one_more_kuten st.
Proof. rewrite loop_body_classify. destruct st. reflexivity. Qed.

Lemma scan_insert_kuten (pre suf : list Z) :
  scan (pre ++ KUTEN :: suf) = one_more_kuten (scan (pre ++ suf)).
Proof.
  unfold scan. rewrite !scan_from_app, scan_from_cons, loop_body_kuten.
  apply scan_from_one_more_kuten.
Qed.

Lemma classify_kuten (x : Z) : classify x = KutenPunctuation -> x = KUTEN.
Proof.
  unfold classify, class_table, first_match, KUTEN.
  repeat match goal with
         | |- context [if ?b then _ else _] => destruct b eqn:?
         end; try discriminate.
  intros _. now apply Z.eqb_eq.
Qed.

Lemma no_kuten_scan_from (t : list Z) : forall st : scan_state,
  ~ In KUTEN t -> v_tk (scan_from st t) = v_tk st.
Proof.
  induction t as [|x t IH]; intros st H; [reflexivity|].
  rewrite scan_from_cons, IH by (intros Hin; apply H; now right).
  rewrite loop_body_classify.
  destruct (classify x) eqn:E; destruct st as [a h c k ar hr cr kr n_tt n_tk []];
    try reflexivity.
  all: exfalso; apply H; left; now apply classify_kuten.
Qed.

Lemma stats_of_first_kuten (len : Z) (st : scan_state) :
  counts_ok len st -> len < 2 ^ 63 -> v_tk st = 0 ->
  stats_of (one_more_kuten st) = stats_of st.
Proof.
  intros H Hlen Htk. unfold counts_ok, class_counts_ok in H.
  destruct st as [a h c k ar hr cr kr n_tt n_tk cur].
  cbn [v_a v_h v_c v_k v_ar v_hr v_cr v_kr v_tt v_tk current_run] in *.
  subst n_tk. unfold stats_of, one_more_kuten, percentage, tr_of, total_runs.
  cbn [v_a v_h v_c v_k v_ar v_hr v_cr v_kr v_tt v_tk current_run Z.add].
  rewrite !div_by_kuten_first by lia. reflexivity.
Qed.

(** X12. The first kuten is the one the code assumes: inserting a kuten
    anywhere in a text that has none leaves all ten statistics as they are
    (the divisor is then the [int] 1 instead of the float 1.0). *)
Theorem first_kuten_is_implicit (pre suf : list Z) :
  Z.of_nat (length (pre ++ suf)) < 2 ^ 63 ->
  ~ In KUTEN (pre ++ suf) ->
  Tateisi (pre ++ KUTEN :: suf) = Tateisi (pre ++ suf).
Proof.
  intros Hlen Hno. rewrite !Tateisi_stats_of, scan_insert_kuten. f_equal.
  apply (stats_of_first_kuten (Z.of_nat (length (pre ++ suf)))).
  - apply counts_ok_scan.
  - exact Hlen.
  - unfold scan. now rewrite no_kuten_scan_from.
Qed.

Lemma first_kuten_is_implicit_witness :
  Z.of_nat (length ([0x50D5; 0x306F] ++ [0x9C3B; 0x3060])) < 2 ^ 63 /\
  ~ In KUTEN ([0x50D5; 0x306F] ++ [0x9C3B; 0x3060]) /\
  Tateisi ([0x50D5; 0x306F] ++ KUTEN :: [0x9C3B; 0x3060]) =
  Tateisi ([0x50D5; 0x306F] ++ [0x9C3B; 0x3060]).
Proof.
  assert (H : ~ In KUTEN ([0x50D5; 0x306F] ++ [0x9C3B; 0x3060])).
  { cbn [app In]. intros [H|[H|[H|[H|[]]]]]; discriminate. }
  split; [reflexivity|]. split; [exact H|].
  apply (first_kuten_is_implicit [0x50D5; 0x306F] [0x9C3B; 0x3060]); [reflexivity|exact H].
Defined.

Lemma one_class_letters (cl : CharacterClass) (t : list Z) :
  is_letter_class cl = true -> Forall (fun x => classify x = cl) t ->
  forall st : scan_state,
    v_a (scan_from st t) = v_a st + (if class_eqb cl Alphabet then Z.of_nat (length t) else 0) /\
    v_h (scan_from st t) = v_h st + (if class_eqb cl Hiragana then Z.of_nat (length t) else 0) /\
    v_c (scan_from st t) = v_c st + (if class_eqb cl Kanji then Z.of_nat (length t) else 0) /\
    v_k (scan_from st t) = v_k st + (if class_eqb cl Katakana then Z.of_nat (length t) else 0) /\
    v_tt (scan_from st t) = v_tt st /\ v_tk (scan_from st t) = v_tk st.
Proof.
  intros Hcl HF. induction HF as [|x t Hx HF IH]; intros st.
  - cbn [scan_from fold_left length Z.of_nat].
    destruct (class_eqb cl Alphabet), (class_eqb cl Hiragana),
      (class_eqb cl Kanji), (class_eqb cl Katakana); repeat split; lia.
  - rewrite scan_from_cons.
    destruct (IH (loop_body st x)) as (Ha & Hh & Hc & Hk & Htt & Htk).
    rewrite Ha, Hh, Hc, Hk, Htt, Htk. clear Ha Hh Hc Hk Htt Htk IH.
    rewrite loop_body_classify, Hx.
    replace (Z.of_nat (length (x :: t))) with (1 + Z.of_nat (length t))
      by (cbn [length]; lia).
    destruct st as [a h c k ar hr cr kr n_tt n_tk cur].
    destruct cl; try discriminate; destruct cur;
      cbn [count_class begin_or_extend class_eqb run_tag_eqb negb
           v_a v_h v_c v_k v_tt v_tk];
      repeat split; lia.
Qed.

Lemma percentage_single_run (st : scan_state) :
  total_runs st = 1 ->
  percentage st 1 = PyFloat 100 /\ percentage st 0 = PyFloat 0.
Proof.
  intros H. unfold percentage, tr_of. rewrite H. split; vm_compute; reflexivity.
Qed.

(** X13. A text that is not empty and whose characters are all letters of
    one class is one run: the percentage of the class is 100.0 and the three
    others 0.0, the mean run length of the class and [ls] are the length of
    the text as a float, the other mean run lengths stay the [int] 0 and
    [cp] is 0.0. *)
Theorem one_class_text (cl : CharacterClass) (txt : list Z) :
  is_letter_class cl = true -> txt <> [] ->
  Forall (fun x => classify x = cl) txt ->
  Z.of_nat (length txt) < 2 ^ 63 ->
  Tateisi txt = Some (one_class_statistics cl (Z.of_nat (length txt))).
Proof.
  intros Hcl Hne HF Hlen. rewrite Tateisi_stats_of. f_equal.
  pose proof (counts_ok_scan txt) as H.
  pose proof (runs_alternate_scan txt) as A.
  destruct (one_class_letters cl txt Hcl HF scan_init) as (Ha & Hh & Hc & Hk & Htt & Htk).
  fold (scan txt) in *.
  assert (Hn : 1 <= Z.of_nat (length txt)) by (destruct txt; [congruence|cbn [length]; lia]).
  set (n := Z.of_nat (length txt)) in *.
  unfold counts_ok, class_counts_ok in H. unfold runs_alternate, alternating in A.
  destruct (scan txt) as [a h c k ar hr cr kr n_tt n_tk cur].
  cbn [v_a v_h v_c v_k v_ar v_hr v_cr v_kr v_tt v_tk current_run scan_init] in *.
  destruct A as (Aa & Ah & Ac & Ak).
  unfold stats_of, one_class_statistics.
  cbn [v_a v_h v_c v_k v_ar v_hr v_cr v_kr v_tt v_tk].
  destruct cl; try discriminate; cbn [class_eqb] in *.
  - assert (E : ar = 1 /\ hr = 0 /\ cr = 0 /\ kr = 0
                /\ a = n /\ h = 0 /\ c = 0 /\ k = 0 /\ n_tt = 0 /\ n_tk = 0).
    { destruct (run_tag_eqb cur run_a); lia. }
    destruct E as (-> & -> & -> & -> & -> & -> & -> & -> & -> & ->).
    destruct (percentage_single_run (mk_scan n 0 0 0 1 0 0 0 0 0 cur) eq_refl) as [-> ->].
    unfold mean_length, div_by_kuten. cbn [Z.eqb].
    rewrite int_truediv_one by lia.
    replace (n + 0 + 0 + 0) with n by lia. rewrite div_one by lia. reflexivity.
  - assert (E : ar = 0 /\ hr = 1 /\ cr = 0 /\ kr = 0
                /\ a = 0 /\ h = n /\ c = 0 /\ k = 0 /\ n_tt = 0 /\ n_tk = 0).
    { destruct (run_tag_eqb cur run_h); lia. }
    destruct E as (-> & -> & -> & -> & -> & -> & -> & -> & -> & ->).
    destruct (percentage_single_run (mk_scan 0 n 0 0 0 1 0 0 0 0 cur) eq_refl) as [-> ->].
    unfold mean_length, div_by_kuten. cbn [Z.eqb].
    rewrite int_truediv_one by lia.
    replace (0 + n + 0 + 0) with n by lia. rewrite div_one by lia. reflexivity.
  - assert (E : ar = 0 /\ hr = 0 /\ cr = 0 /\ kr = 1
                /\ a = 0 /\ h = 0 /\ c = 0 /\ k = n /\ n_tt = 0 /\ n_tk = 0).
    { destruct (run_tag_eqb cur run_k); lia. }
    destruct E as (-> & -> & -> & -> & -> & -> & -> & -> & -> & ->).
    destruct (percentage_single_run (mk_scan 0 0 0 n 0 0 0 1 0 0 cur) eq_refl) as [-> ->].
    unfold mean_length, div_by_kuten. cbn [Z.eqb].
    rewrite int_truediv_one by lia.
    replace (0 + 0 + 0 + n) with n by lia. rewrite div_one by lia. reflexivity.
  - assert (E : ar = 0 /\ hr = 0 /\ cr = 1 /\ kr = 0
                /\ a = 0 /\ h = 0 /\ c = n /\ k = 0 /\ n_tt = 0 /\ n_tk = 0).
    { destruct (run_tag_eqb cur run_c); lia. }
    destruct E as (-> & -> & -> & -> & -> & -> & -> & -> & -> & ->).
    destruct (percentage_single_run (mk_scan 0 0 n 0 0 0 1 0 0 0 cur) eq_refl) as [-> ->].
    unfold mean_length, div_by_kuten. cbn [Z.eqb].
    rewrite int_truediv_one by lia.
    replace (0 + 0 + n + 0) with n by lia. rewrite div_one by lia. reflexivity.
Qed.

Lemma one_class_text_witness :
  is_letter_class Hiragana = true /\ [0x3042; 0x3044; 0x3046] <> [] /\
  Forall (fun x => classify x = Hiragana) [0x3042; 0x3044; 0x3046] /\
  Z.of_nat (length [0x3042; 0x3044; 0x3046]) < 2 ^ 63 /\
  Tateisi [0x3042; 0x3044; 0x3046] =
    Some (one_class_statistics Hiragana (Z.of_nat (length [0x3042; 0x3044; 0x3046]))).
Proof.
  assert (F : Forall (fun x => classify x = Hiragana) [0x3042; 0x3044; 0x3046])
    by (repeat constructor).
  split; [reflexivity|]. split; [discriminate|]. split; [exact F|].
  split; [reflexivity|].
  apply (one_class_text Hiragana [0x3042; 0x3044; 0x3046]);
    [reflexivity|discriminate|exact F|reflexivity].
Defined.

(** ** Accuracy of the quotients *)










